(** * companion-module-synq-dbt44: the OSC session core of [index.js]

    A shallow embedding of the Synq DBT-44 module (class [SynqDbt44Instance])
    and the properties of its receive path, address mapping, value
    formatting and read-modify-write actions.

    Conventions of the embedding.
    - A JavaScript number is an IEEE 754 binary64 value: [float] of the
      kernel, with the arithmetic of [PrimFloat].  Conversions between
      numbers and strings ([Number], [parseFloat], [parseInt], [toFixed],
      [String]) are written out after ECMA-262 with exact integer
      arithmetic on the value [m * 2^e] of a finite number.
    - A JavaScript string is a [string]; its characters are the code units
      below 256.  A [Buffer] is a list of bytes.
    - A JavaScript value that the module stores or receives is a [Value]
      (undefined, null, boolean, number or string).
    - The instance fields are a record; every method takes the instance and
      returns the new one.  Calls into the host ([updateStatus], [oscSend],
      [checkFeedbacks], [setVariableDefinitions], [setVariableValues]) are
      appended to the field [calls].  Calls to [this.log] change nothing
      and are left out.
    - An exception is a [Throw] completion; [try_catch] is try/catch.
    - The [osc] package is not part of the repository: its entry points
      [readPacket] and [writePacket] are the interface [OscLib]. *)

From Stdlib Require Import ZArith Floats String Ascii List Lia Bool.
From Stdlib Require Import Strings.Byte DecimalString.
From stdpp Require Import gmap strings.
Import ListNotations.

Set Warnings "-inexact-float".

Local Open Scope string_scope.
Local Open Scope Z_scope.

(** ** JavaScript strings *)

Module JSString.

Definition code (c : ascii) : Z := Z.of_N (N_of_ascii c).

Definition ascii_eqb (a b : ascii) : bool := Ascii.eqb a b.

(** WhiteSpace and LineTerminator code units (those below 256): what
    [trim] strips and what the numeric grammars skip. *)
Definition isWhiteSpace (c : ascii) : bool :=
  let n := code c in
  ((9 <=? n) && (n <=? 13)) || (n =? 32) || (n =? 160).

Definition isDigit (c : ascii) : bool :=
  let n := code c in (48 <=? n) && (n <=? 57).

Fixpoint trimStart (s : string) : string :=
  match s with
  | EmptyString => EmptyString
  | String c r => if isWhiteSpace c then trimStart r else s
  end.

Fixpoint trimEnd (s : string) : string :=
  match s with
  | EmptyString => EmptyString
  | String c r =>
      match trimEnd r with
      | EmptyString => if isWhiteSpace c then EmptyString else String c EmptyString
      | r' => String c r'
      end
  end.

Definition trim (s : string) : string := trimEnd (trimStart s).

Definition isEmpty (s : string) : bool :=
  match s with EmptyString => true | _ => false end.

(** [s.startsWith(p)] *)
Fixpoint startsWith (s p : string) {struct p} : bool :=
  match p, s with
  | EmptyString, _ => true
  | String a p', String b s' => ascii_eqb a b && startsWith s' p'
  | String _ _, EmptyString => false
  end.

(** [s.slice(0, n)] for [0 <= n] *)
Fixpoint take (n : nat) (s : string) : string :=
  match n, s with
  | O, _ => EmptyString
  | S n', String c r => String c (take n' r)
  | S _, EmptyString => EmptyString
  end.

(** [s.slice(n)] for [0 <= n] *)
Fixpoint drop (n : nat) (s : string) : string :=
  match n, s with
  | O, _ => s
  | S n', String _ r => drop n' r
  | S _, EmptyString => EmptyString
  end.

(** [s.endsWith(p)]: the last [p.length] code units of [s] are [p]. *)
Definition endsWith (s p : string) : bool :=
  (String.length p <=? String.length s)%nat
  && String.eqb (drop (String.length s - String.length p) s) p.

(** [s.slice(0, e)] for an integer [e]: a negative end counts from the
    end of the string, and a result left of the start is empty. *)
Definition sliceTo (s : string) (e : Z) : string :=
  let len := Z.of_nat (String.length s) in
  let e' := if e <? 0 then Z.max 0 (len + e) else Z.min e len in
  take (Z.to_nat e') s.

(** [s.replace(/^\//, '')] *)
Definition stripLeadingSlash (s : string) : string :=
  match s with
  | String c r => if ascii_eqb c "/" then r else s
  | EmptyString => EmptyString
  end.

(** [s.replace(/\//g, '_')] *)
Fixpoint slashesToUnderscores (s : string) : string :=
  match s with
  | EmptyString => EmptyString
  | String c r =>
      String (if ascii_eqb c "/" then "_"%char else c) (slashesToUnderscores r)
  end.

Fixpoint repeatChar (c : ascii) (n : nat) : string :=
  match n with
  | O => EmptyString
  | S n' => String c (repeatChar c n')
  end.

(** Decimal digits of a non-negative integer, ["0"] for zero. *)
Definition digitsOfZ (n : Z) : string :=
  NilZero.string_of_uint (N.to_uint (Z.to_N n)).

End JSString.

(** ** JavaScript numbers *)

Module JSNumber.
Import JSString.

Definition NaN : float := PrimFloat.nan.

(** [isNaN(x)] and [Number.isFinite(x)] on a number *)
Definition isNaN (x : float) : bool := is_nan x.
Definition isFinite (x : float) : bool := negb (is_nan x || is_infinity x).

(** [x === y] on numbers: NaN differs from itself, the zeros are equal. *)
Definition numEq (x y : float) : bool := (x =? y)%float.

Definition isNegZero (x : float) : bool :=
  match classify x with NZero => true | _ => false end.

(** The number nearest to the rational [p / q] ([0 <= p], [0 < q]) with the
    sign [neg]; ties go to the even significand, as the Number value of a
    real does.  The quotient is taken with at least 70 bits and a sticky
    last bit, then rounded once to 53. *)
Definition ofRatio (neg : bool) (p q : Z) : float :=
  if p =? 0 then (if neg then PrimFloat.neg_zero else PrimFloat.zero)
  else
    let k := Z.max 0 (70 + Z.log2 q - Z.log2 p) in
    let n := p * 2 ^ k in
    let sticky := if n mod q =? 0 then 0 else 1 in
    SF2Prim (binary_normalize prec emax
               (cond_Zopp neg (2 * (n / q) + sticky)) (- k - 1) neg).

(** The Number value of [m * 10^e10]. *)
Definition ofDecimal (neg : bool) (m e10 : Z) : float :=
  if 0 <=? e10 then ofRatio neg (m * 10 ^ e10) 1
  else ofRatio neg m (10 ^ (- e10)).

Definition ofZ (n : Z) : float := ofRatio (n <? 0) (Z.abs n) 1.

(** [Math.round]: the nearest integer, a tie going up; NaN, the zeros and
    the infinities are returned as they are, and a result that rounds to
    zero keeps the sign of the argument. *)
Definition Math_round (x : float) : float :=
  match Prim2SF x with
  | S754_finite s m e =>
      if 0 <=? e then x
      else
        let sm := if s then Z.neg m else Z.pos m in
        let n := (2 * sm + 2 ^ (- e)) / 2 ^ (1 - e) in
        if n =? 0 then (if s then PrimFloat.neg_zero else PrimFloat.zero) else ofZ n
  | _ => x
  end.

(** [Math.min] and [Math.max] of two numbers *)
Definition Math_min (a b : float) : float :=
  if is_nan a || is_nan b then NaN
  else if (a <? b)%float then a
  else if (b <? a)%float then b
  else if isNegZero a then a else b.

Definition Math_max (a b : float) : float :=
  if is_nan a || is_nan b then NaN
  else if (a <? b)%float then b
  else if (b <? a)%float then a
  else if isNegZero a then b else a.

(** *** Number::toString (radix 10) *)

(** How many times [p] is multiplied by ten before it reaches [q]. *)
Fixpoint scaleUp (fuel : nat) (p q : Z) : Z :=
  match fuel with
  | O => 0
  | S fuel' => if q <=? p then 0 else 1 + scaleUp fuel' (10 * p) q
  end.

(** The [n] with [10^(n-1) <= p/q < 10^n] for a positive [p/q]. *)
Definition pointPosition (p q : Z) : Z :=
  if q <=? p then Z.of_nat (String.length (digitsOfZ (p / q)))
  else 1 - scaleUp 400 p q.

(** The shortest digit string [s] (of [k] digits, [k] from the argument
    up) and point position [n] with [s * 10^(n-k)] reading back as [x];
    of two candidates the one nearer to [x], the even one on a tie. *)
Fixpoint shortestDigits (fuel : nat) (k : Z) (x : float) (p q n0 : Z) : Z * Z :=
  let t := n0 - k in
  let P := if 0 <=? t then p else p * 10 ^ (- t) in
  let Q := if 0 <=? t then q * 10 ^ t else q in
  let lo := P / Q in
  let hi := lo + 1 in
  let r := P mod Q in
  let okLo := (ofDecimal false lo t =? x)%float in
  let okHi := (ofDecimal false hi t =? x)%float in
  let norm s := if s =? 10 ^ k then (10 ^ (k - 1), n0 + 1) else (s, n0) in
  match fuel with
  | O => norm lo
  | S fuel' =>
      if okLo && okHi then
        norm (if 2 * r <? Q then lo
              else if Q <? 2 * r then hi
              else if Z.even lo then lo else hi)
      else if okLo then norm lo
      else if okHi then norm hi
      else shortestDigits fuel' (k + 1) x p q n0
  end.

(** The digits [ds] with the point after the first [n] of them, in the
    notation Number::toString chooses. *)
Definition layout (ds : string) (n : Z) : string :=
  let k := Z.of_nat (String.length ds) in
  if (k <=? n) && (n <=? 21) then
    ds +:+ repeatChar "0" (Z.to_nat (n - k))
  else if (0 <? n) && (n <=? 21) then
    take (Z.to_nat n) ds +:+ "." +:+ drop (Z.to_nat n) ds
  else if (-6 <? n) && (n <=? 0) then
    "0." +:+ repeatChar "0" (Z.to_nat (- n)) +:+ ds
  else
    let e := n - 1 in
    let ex := (if e <? 0 then "-" else "+") +:+ digitsOfZ (Z.abs e) in
    if k =? 1 then ds +:+ "e" +:+ ex
    else take 1 ds +:+ "." +:+ drop 1 ds +:+ "e" +:+ ex.

Definition toString (x : float) : string :=
  match Prim2SF x with
  | S754_nan => "NaN"
  | S754_zero _ => "0"
  | S754_infinity s => if s then "-Infinity" else "Infinity"
  | S754_finite s m e =>
      let p := Z.pos m * 2 ^ (Z.max e 0) in
      let q := 2 ^ (Z.max (- e) 0) in
      let '(d, n) := shortestDigits 17 1 (abs x) p q (pointPosition p q) in
      (if s then "-" else "") +:+ layout (digitsOfZ d) n
  end.

(** *** Number.prototype.toFixed *)

(** The digits of [n] with [f] of them after the point. *)
Definition fixedLayout (n : Z) (f : nat) : string :=
  let m := digitsOfZ n in
  match f with
  | O => m
  | _ =>
      let k := String.length m in
      let m' := if (k <=? f)%nat then repeatChar "0" (f + 1 - k) +:+ m else m in
      let k' := String.length m' in
      take (k' - f) m' +:+ "." +:+ drop (k' - f) m'
  end.

(** The integer [n] with [n / 10^f] nearest to [|x|], the larger one on
    a tie. *)
Definition nearestScaled (x : float) (f : nat) : Z :=
  match Prim2SF x with
  | S754_finite _ m e =>
      let v := Z.pos m * 10 ^ Z.of_nat f in
      if 0 <=? e then v * 2 ^ e
      else (2 * v + 2 ^ (- e)) / 2 ^ (1 - e)
  | _ => 0
  end.

(** [x.toFixed(f)]: NaN and the infinities as Number::toString writes
    them; otherwise a minus sign when [x < 0], then, below [1e21], the
    digits of [nearestScaled] with [f] of them after the point, and
    Number::toString of [|x|] from [1e21] on. *)
Definition toFixed (x : float) (f : nat) : string :=
  if negb (isFinite x) then toString x
  else
    (if (x <? 0)%float then "-" else "") +:+
    (if (abs x <? 1e21)%float then fixedLayout (nearestScaled x f) f
     else toString (abs x)).

(** *** Reading numbers from strings *)

(** DecimalDigits: the longest run of digits at the front; its value
    continued from [acc], the number of digits read, and the rest. *)
Fixpoint readDigits (s : string) (acc : Z) (count : nat) : Z * nat * string :=
  match s with
  | String c r =>
      if isDigit c then readDigits r (10 * acc + (code c - 48)) (S count)
      else (acc, count, s)
  | EmptyString => (acc, count, s)
  end.

Definition readSign (s : string) : bool * string :=
  match s with
  | String c r =>
      if ascii_eqb c "-" then (true, r)
      else if ascii_eqb c "+" then (false, r)
      else (false, s)
  | EmptyString => (false, s)
  end.

(** ExponentPart, read only when it is complete. *)
Definition readExponent (s : string) : Z * string :=
  match s with
  | String c r =>
      if ascii_eqb c "e" || ascii_eqb c "E" then
        let '(neg, r1) := readSign r in
        let '(v, cnt, r2) := readDigits r1 0 0 in
        match cnt with
        | O => (0, s)
        | _ => (if neg then - v else v, r2)
        end
      else (0, s)
  | EmptyString => (0, s)
  end.

(** The longest prefix that is a StrDecimalLiteral: its value and the rest. *)
Definition readStrDecimalLiteral (s : string) : option (float * string) :=
  let '(neg, r0) := readSign s in
  if startsWith r0 "Infinity" then
    Some (if neg then PrimFloat.neg_infinity else PrimFloat.infinity, drop 8 r0)
  else
    let '(i, ni, r1) := readDigits r0 0 0 in
    let '(m, nf, r2) :=
      match r1 with
      | String c r => if ascii_eqb c "." then readDigits r i 0 else (i, O, r1)
      | EmptyString => (i, O, r1)
      end in
    match (ni + nf)%nat with
    | O => None
    | _ =>
        let '(ex, r3) := readExponent r2 in
        Some (ofDecimal neg m (ex - Z.of_nat nf), r3)
    end.

(** Digits of a NonDecimalIntegerLiteral: every character a digit of the
    radix, at least one. *)
Definition radixDigit (radix : Z) (c : ascii) : option Z :=
  let n := code c in
  let d := if (48 <=? n) && (n <=? 57) then n - 48
           else if (97 <=? n) && (n <=? 102) then n - 87
           else if (65 <=? n) && (n <=? 70) then n - 55
           else radix in
  if d <? radix then Some d else None.

Fixpoint readRadix (radix : Z) (s : string) (acc : Z) : option Z :=
  match s with
  | EmptyString => Some acc
  | String c r =>
      match radixDigit radix c with
      | Some d => readRadix radix r (radix * acc + d)
      | None => None
      end
  end.

Definition readNonDecimal (s : string) : option float :=
  match s with
  | String z (String x (String c r)) =>
      if ascii_eqb z "0" then
        let radix := if ascii_eqb x "x" || ascii_eqb x "X" then 16
                     else if ascii_eqb x "o" || ascii_eqb x "O" then 8
                     else if ascii_eqb x "b" || ascii_eqb x "B" then 2
                     else 0 in
        if radix =? 0 then None
        else match readRadix radix (String c r) 0 with
             | Some v => Some (ofZ v)
             | None => Some NaN
             end
      else None
  | _ => None
  end.

(** [Number(s)] for a string (StringToNumber) *)
Definition StringToNumber (s : string) : float :=
  match trim s with
  | EmptyString => PrimFloat.zero
  | t =>
      match readNonDecimal t with
      | Some v => v
      | None =>
          match readStrDecimalLiteral t with
          | Some (v, EmptyString) => v
          | _ => NaN
          end
      end
  end.

(** [parseFloat(s)] for a string *)
Definition parseFloatString (s : string) : float :=
  match readStrDecimalLiteral (trimStart s) with
  | Some (v, _) => v
  | None => NaN
  end.

(** [parseInt(s, 10)] for a string *)
Definition parseIntString (s : string) : float :=
  let '(neg, r) := readSign (trimStart s) in
  let '(v, cnt, _) := readDigits r 0 0 in
  match cnt with
  | O => NaN
  | _ => ofRatio neg v 1
  end.

(** [x || d] for a number [x]: [d] when [x] is NaN or a zero. *)
Definition orElse (x d : float) : float :=
  if is_nan x || is_zero x then d else x.

End JSNumber.

(** ** JavaScript values *)

Module JSValue.
Import JSString JSNumber.

Inductive Value :=
| VUndefined
| VNull
| VBool (b : bool)
| VNumber (x : float)
| VString (s : string).

(** [String(v)] *)
Definition ToString (v : Value) : string :=
  match v with
  | VUndefined => "undefined"
  | VNull => "null"
  | VBool b => if b then "true" else "false"
  | VNumber x => toString x
  | VString s => s
  end.

(** [Number(v)] *)
Definition ToNumber (v : Value) : float :=
  match v with
  | VUndefined => NaN
  | VNull => PrimFloat.zero
  | VBool b => if b then PrimFloat.one else PrimFloat.zero
  | VNumber x => x
  | VString s => StringToNumber s
  end.

(** Truthiness: what [!v], [v || w] and [if (v)] test. *)
Definition ToBoolean (v : Value) : bool :=
  match v with
  | VUndefined | VNull => false
  | VBool b => b
  | VNumber x => negb (is_nan x || is_zero x)
  | VString s => negb (isEmpty s)
  end.

(** [a === b] *)
Definition strictEq (a b : Value) : bool :=
  match a, b with
  | VUndefined, VUndefined => true
  | VNull, VNull => true
  | VBool x, VBool y => Bool.eqb x y
  | VNumber x, VNumber y => numEq x y
  | VString x, VString y => String.eqb x y
  | _, _ => false
  end.

(** [parseFloat(v)] and [parseInt(v, 10)]: the argument is first
    converted to a string. *)
Definition parseFloat (v : Value) : float := parseFloatString (ToString v).
Definition parseInt (v : Value) : float := parseIntString (ToString v).

End JSValue.

(** ** Completions: a call returns a value or throws *)

Inductive Completion (A : Type) : Type :=
| Normal (a : A)
| Throw.
Arguments Normal {A} a.
Arguments Throw {A}.

Definition cbind {A B} (c : Completion A) (k : A -> Completion B) : Completion B :=
  match c with
  | Normal a => k a
  | Throw => Throw
  end.

Notation "'let*' x ':=' c 'in' k" := (cbind c (fun x => k))
  (at level 10, x pattern, c at level 100, k at level 200).

(** [try { body } catch (_) { handler }] *)
Definition try_catch {A} (body handler : Completion A) : Completion A :=
  match body with
  | Normal a => Normal a
  | Throw => handler
  end.

(** ** OSC packets and the [osc] package *)

Definition Buffer := list byte.

(** An argument as [readPacket] returns it with [{ metadata: true }]. *)
Record Arg := mkArg { type : string; value : JSValue.Value }.

#[warnings="-register-all"] Inductive Packet :=
| Message (address : string) (args : list Arg)
| Bundle (packets : list Packet).

(** The two entry points of the [osc] package the module calls.
    [readPacket] is [osc.readPacket(buffer, {})], whose result is only ever
    handed to [writePacket], [osc.writePacket(packet)];
    [readPacketMetadata] is [osc.readPacket(buffer, { metadata: true })]. *)
Class OscLib := {
  RawPacket : Type;
  readPacket : Buffer -> Completion RawPacket;
  writePacket : RawPacket -> Completion Buffer;
  readPacketMetadata : Buffer -> Completion Packet
}.

(** ** The module instance *)

Module Dbt44.
Import JSString JSNumber JSValue.

Definition OSC_PATH_PING : string := "/ping".
Definition OSC_PATH_SYNC : string := "/sync".

Record Config := mkConfig {
  host : Value;
  device_name : option string;
  targetPort : Value;
  feedbackPort : Value
}.

(** What the instance asks of the host, in call order. *)
Inductive HostCall :=
| UpdateStatus (status : string) (message : string)
| OscSend (host : string) (port : Value) (path : string) (args : list Arg)
| CheckFeedbacks (feedbackIds : list string)
| SetVariableDefinitions (variableIds : list string)
| SetVariableValues (values : gmap string Value).

(** The fields of [SynqDbt44Instance].  An element of [syncVariableDefs]
    is kept as its [variableId]: its [name] is [variableIdToName] of the
    id, and every reader recomputes it. *)
Record Instance := mkInstance {
  config : Config;
  targetHost : option string;
  receiveBuffer : Buffer;
  syncState : gmap string Value;
  syncVariableDefs : list string;
  savedMatrixGain : gmap string float;
  calls : list HostCall
}.

Definition set_receiveBuffer (b : Buffer) (st : Instance) : Instance :=
  mkInstance (config st) (targetHost st) b (syncState st)
             (syncVariableDefs st) (savedMatrixGain st) (calls st).

Definition set_syncState (m : gmap string Value) (st : Instance) : Instance :=
  mkInstance (config st) (targetHost st) (receiveBuffer st) m
             (syncVariableDefs st) (savedMatrixGain st) (calls st).

Definition set_syncVariableDefs (l : list string) (st : Instance) : Instance :=
  mkInstance (config st) (targetHost st) (receiveBuffer st) (syncState st)
             l (savedMatrixGain st) (calls st).

Definition set_savedMatrixGain (m : gmap string float) (st : Instance) : Instance :=
  mkInstance (config st) (targetHost st) (receiveBuffer st) (syncState st)
             (syncVariableDefs st) m (calls st).

Definition call (c : HostCall) (st : Instance) : Instance :=
  mkInstance (config st) (targetHost st) (receiveBuffer st) (syncState st)
             (syncVariableDefs st) (savedMatrixGain st) (calls st ++ [c])%list.

(** [(this.config.device_name || '').trim()] *)
Definition deviceName (st : Instance) : string :=
  trim (default "" (device_name (config st))).

(** [oscPath(pathWithoutName)]; [None] is [null]. *)
Definition oscPath (st : Instance) (pathWithoutName : string) : option string :=
  let name := deviceName st in
  if isEmpty name then None
  else
    let base := if startsWith pathWithoutName "/" then pathWithoutName
                else "/" +:+ pathWithoutName in
    Some (base +:+ "/" +:+ name).

(** [pathToVariableId(path)]; [None] is [null]. *)
Definition pathToVariableId (st : Instance) (path : Value) : option string :=
  match path with
  | VString p =>
      if isEmpty p then None
      else
        let name := deviceName st in
        let withoutName :=
          if negb (isEmpty name) && endsWith p ("/" +:+ name)
          then sliceTo p (Z.of_nat (String.length p)
                          - Z.of_nat (String.length name) - 1)
          else p in
        Some (slashesToUnderscores (stripLeadingSlash withoutName))
  | _ => None
  end.

(** [formatSyncValue(value)] *)
Definition formatSyncValue (value : Value) : string :=
  if strictEq value (VBool true) then "1"
  else if strictEq value (VBool false) then "0"
  else
    let num := ToNumber value in
    if isFinite num then
      if numEq num 0 || numEq num 1 then toString num
      else
        let rounded := (Math_round (num * 10) / 10)%float in
        toFixed rounded 1
    else ToString value.

(** [this.syncState[variableId] = text]: [syncState] is a plain object
    created by [{}], so the assignment creates or overwrites an own
    property, except for the key [__proto__]: there it reaches the setter
    that the object inherits from [Object.prototype], which ignores a
    string and leaves the object as it is. *)
Definition assignSyncState (variableId text : string)
           (m : gmap string Value) : gmap string Value :=
  if String.eqb variableId "__proto__" then m
  else <[variableId := VString text]> m.

(** [storeSyncValue(variableId, value)] *)
Definition storeSyncValue (variableId : string) (value : Value)
           (st : Instance) : Instance :=
  if isEmpty variableId then st
  else
    let st1 := set_syncState
                 (assignSyncState variableId (formatSyncValue value) (syncState st)) st in
    if existsb (String.eqb variableId) (syncVariableDefs st1) then st1
    else set_syncVariableDefs (syncVariableDefs st1 ++ [variableId])%list st1.

(** [applySyncVariables()]: in the values, a stored [device_name] key
    comes after the configured one and wins. *)
Definition applySyncVariables (st : Instance) : Instance :=
  call (SetVariableValues
          (syncState st ∪ {["device_name" := VString (deviceName st)]}))
    (call (SetVariableDefinitions ("device_name" :: syncVariableDefs st)) st).

Definition checkFeedbacks (ids : list string) (st : Instance) : Instance :=
  call (CheckFeedbacks ids) st.

(** [updateStatus('ok', name || fallback)] *)
Definition updateStatusOk (fallback : string) (st : Instance) : Instance :=
  let name := deviceName st in
  call (UpdateStatus "ok" (if isEmpty name then fallback else name)) st.

(** [sendOsc(pathWithoutName, args)] *)
Definition sendOsc (pathWithoutName : string) (args : list Arg)
           (st : Instance) : Instance :=
  match oscPath st pathWithoutName, targetHost st with
  | Some path, Some h =>
      if isEmpty h then st
      else call (OscSend h (targetPort (config st)) path args) st
  | _, _ => st
  end.

(** *** Receive path *)

Definition blen (b : Buffer) : Z := Z.of_nat (length b).

(** [buffer.slice(start, end)]: a negative index counts from the end, and
    both are clamped to the buffer. *)
Definition clampIndex (len i : Z) : Z :=
  if i <? 0 then Z.max 0 (len + i) else Z.min i len.

Definition slice (b : Buffer) (s e : Z) : Buffer :=
  let s' := clampIndex (blen b) s in
  let e' := clampIndex (blen b) e in
  firstn (Z.to_nat (e' - s')) (skipn (Z.to_nat s') b).

Definition sliceFrom (b : Buffer) (s : Z) : Buffer := slice b s (blen b).

(** ToInt32, for the operands and the result of [&] and [~]. *)
Definition toInt32 (n : Z) : Z := (n + 2 ^ 31) mod 2 ^ 32 - 2 ^ 31.

(** [buffer.indexOf(0)]; [-1] when there is no zero byte. *)
Fixpoint indexOfNul (b : Buffer) (i : Z) : Z :=
  match b with
  | [] => -1
  | c :: r => if Byte.eqb c x00 then i else indexOfNul r (i + 1)
  end.

Definition isPrintable (c : byte) : bool :=
  let n := Z.of_N (Byte.to_N c) in (32 <=? n) && (n <=? 126).

Definition bytesToString (b : list byte) : string := string_of_list_byte b.

Record PathOnly := mkPathOnly { path : string; byteLength : Z }.

(** [parsePathOnlyOsc(buffer)]; [None] is [null].  The test
    [/^\/[\x20-\x7e]+$/] on the UTF-8 decoding of the bytes before the
    zero byte holds exactly when the first is ['/'] and the others, at
    least one, are printable ASCII bytes: a byte outside that range
    decodes to a control character or to a character above U+007F. *)
Definition parsePathOnlyOsc (buffer : Buffer) : option PathOnly :=
  match buffer with
  | first :: _ :: _ =>
      if negb (Byte.eqb first x2f) then None
      else
        let nullIdx := indexOfNul buffer 0 in
        if nullIdx <? 1 then None
        else
          let pathBytes := firstn (Z.to_nat nullIdx) buffer in
          match pathBytes with
          | _ :: ((_ :: _) as rest) =>
              if forallb isPrintable rest then
                let byteLength :=
                  toInt32 (Z.land (toInt32 (nullIdx + 1 + 3))
                                  (toInt32 (Z.lnot 3))) in
                if blen buffer <? byteLength then None
                else Some (mkPathOnly (bytesToString pathBytes) byteLength)
              else None
          | _ => None
          end
  | _ => None
  end.

Section WithOsc.
Context {osc : OscLib}.

(** [getCompleteMessageLength(buffer)] *)
Definition getCompleteMessageLength (buffer : Buffer) : Completion Z :=
  try_catch
    (let* packet := readPacket buffer in
     let* bytes := writePacket packet in
     Normal (blen bytes))
    (Normal (blen buffer + 1)).

(** The value a message carries: its first argument, [true] and [false]
    for the tags [T] and [F], and the empty string without arguments. *)
Definition messageValue (args : list Arg) : Value :=
  match args with
  | a :: _ =>
      if String.eqb (type a) "T" then VBool true
      else if String.eqb (type a) "F" then VBool false
      else value a
  | [] => VString ""
  end.

(** [handleOscMessage(packet)] for a packet with the given address and
    arguments; the boolean is the return value. *)
Definition handleOscMessage (address : string) (args : list Arg)
           (st : Instance) : bool * Instance :=
  let st := updateStatusOk "Connected" st in
  let variableId := pathToVariableId st (VString address) in
  let pingPath := oscPath st "/ping" in
  let isPing :=
    String.eqb address "/ping"
    || match pingPath with
       | Some pp => negb (isEmpty pp) && String.eqb address pp
       | None => false
       end in
  let willStore :=
    match variableId with
    | Some id => negb (isEmpty id) && negb isPing
    | None => false
    end in
  if willStore then
    (true, checkFeedbacks []
             (storeSyncValue (default "" variableId) (messageValue args) st))
  else (false, checkFeedbacks [] st).

(** The body of [for (const p of packet.packets)]: members that are
    messages with an address are handled, the others skipped. *)
Fixpoint handleBundle (ps : list Packet) (hadSyncMessage : bool)
         (st : Instance) : bool * Instance :=
  match ps with
  | [] => (hadSyncMessage, st)
  | Message address args :: rest =>
      if isEmpty address then handleBundle rest hadSyncMessage st
      else
        let '(r, st') := handleOscMessage address args st in
        handleBundle rest (r || hadSyncMessage) st'
  | Bundle _ :: rest => handleBundle rest hadSyncMessage st
  end.

(** What one pass through the body of the [while] loop decides. *)
Inductive Iteration :=
| Break
| Next (hadSyncMessage : bool) (st : Instance).

(** Lines 298-309: the length of the first frame and its standard
    decoding, [None] for [packet = null]. *)
Definition standardDecode (buffer : Buffer) : Completion (Z * option Packet) :=
  let* messageLength := getCompleteMessageLength buffer in
  if messageLength <=? blen buffer then
    let message := slice buffer 0 messageLength in
    let* packet :=
      try_catch (let* p := readPacketMetadata message in Normal (Some p))
                (Normal None) in
    Normal (messageLength, packet)
  else Normal (messageLength, None).

(** Lines 311-320: the path-only fallback, taken when there is no
    packet and the buffer has four bytes or more. *)
Definition withPathOnlyFallback (buffer : Buffer)
           (decoded : Z * option Packet) : Z * option Packet :=
  match snd decoded with
  | Some _ => decoded
  | None =>
      if 4 <=? blen buffer then
        match parsePathOnlyOsc buffer with
        | Some pathOnly =>
            (byteLength pathOnly, Some (Message (path pathOnly) []))
        | None => decoded
        end
      else decoded
  end.

(** One pass through the body of the loop of [parseOscIncoming]. *)
Definition parseOscIteration (hadSyncMessage : bool) (st : Instance)
  : Completion Iteration :=
  let buffer := receiveBuffer st in
  let* decoded := standardDecode buffer in
  let '(messageLength, packet) := withPathOnlyFallback buffer decoded in
  if blen buffer <? messageLength then Normal Break
  else
    let st := set_receiveBuffer (sliceFrom buffer messageLength) st in
    match packet with
    | Some (Message address args) =>
        if isEmpty address then Normal (Next hadSyncMessage st)
        else
          let '(r, st') := handleOscMessage address args st in
          Normal (Next (r || hadSyncMessage) st')
    | Some (Bundle ps) =>
        let '(r, st') := handleBundle ps hadSyncMessage st in
        Normal (Next r st')
    | None => Normal (Next hadSyncMessage st)
    end.

(** The [while (this.receiveBuffer.length > 0)] loop, at most [fuel]
    passes: [None] when the loop is still running after them. *)
Fixpoint parseLoop (fuel : nat) (hadSyncMessage : bool) (st : Instance)
  : option (Completion (bool * Instance)) :=
  match receiveBuffer st with
  | [] => Some (Normal (hadSyncMessage, st))
  | _ :: _ =>
      match fuel with
      | O => None
      | S fuel' =>
          match parseOscIteration hadSyncMessage st with
          | Throw => Some Throw
          | Normal Break => Some (Normal (hadSyncMessage, st))
          | Normal (Next h st') => parseLoop fuel' h st'
          end
      end
  end.

(** [parseOscIncoming()] *)
Definition parseOscIncoming (fuel : nat) (st : Instance)
  : option (Completion Instance) :=
  match parseLoop fuel false st with
  | None => None
  | Some Throw => Some Throw
  | Some (Normal (hadSyncMessage, st')) =>
      Some (Normal (if hadSyncMessage then applySyncVariables st' else st'))
  end.

(** The ['message'] handler of the socket: any datagram refreshes the
    status, is appended to the buffer, and the buffer is parsed. *)
Definition onMessage (fuel : nat) (msg : Buffer) (st : Instance)
  : option (Completion Instance) :=
  let st := updateStatusOk "Connected" st in
  parseOscIncoming fuel (set_receiveBuffer (receiveBuffer st ++ msg)%list st).

End WithOsc.

(** *** Actions and feedbacks *)

(** [action.options] / [feedback.options]; an option that is not set is
    [VUndefined]. *)
Record Options := mkOptions {
  input : Value;
  output : Value;
  gain : Value;
  step_preset : Value;
  step_custom : Value;
  mute : Value
}.

(** [parseInt(option, 10) || 1] *)
Definition channelIndex (v : Value) : float := orElse (parseInt v) 1.

(** [this.syncState[key]] *)
Definition stored (st : Instance) (key : string) : Value :=
  default VUndefined (syncState st !! key).

Definition gainInputKey (inIdx outIdx : float) : string :=
  "gain_input_" +:+ toString inIdx +:+ "_" +:+ toString outIdx.
Definition gainInputPath (inIdx outIdx : float) : string :=
  "/gain/input/" +:+ toString inIdx +:+ "/" +:+ toString outIdx.
Definition gainOutputKey (outIdx : float) : string :=
  "gain_output_" +:+ toString outIdx.
Definition gainOutputPath (outIdx : float) : string :=
  "/gain/output/" +:+ toString outIdx.
Definition savedGainKey (inIdx outIdx : float) : string :=
  toString inIdx +:+ "_" +:+ toString outIdx.

Definition floatArg (x : float) : Arg := mkArg "f" (VNumber x).

(** The tail every action shares: store, republish, re-evaluate. *)
Definition storeAndPublish (key : string) (v : Value) (ids : list string)
           (st : Instance) : Instance :=
  checkFeedbacks ids (applySyncVariables (storeSyncValue key v st)).

(** [set_input_gain] callback *)
Definition set_input_gain (o : Options) (st : Instance) : Instance :=
  let inIdx := channelIndex (input o) in
  let outIdx := channelIndex (output o) in
  let v := ToNumber (gain o) in
  storeAndPublish (gainInputKey inIdx outIdx) (VNumber v) []
    (sendOsc (gainInputPath inIdx outIdx) [floatArg v] st).

(** [set_output_gain] callback *)
Definition set_output_gain (o : Options) (st : Instance) : Instance :=
  let outIdx := channelIndex (output o) in
  let v := ToNumber (gain o) in
  storeAndPublish (gainOutputKey outIdx) (VNumber v) []
    (sendOsc (gainOutputPath outIdx) [floatArg v] st).

(** [preset === 'custom' ? Number(step_custom) || 0 : Number(preset) || 0] *)
Definition stepAmount (o : Options) : float :=
  let preset := step_preset o in
  if strictEq preset (VString "custom")
  then orElse (ToNumber (step_custom o)) 0
  else orElse (ToNumber preset) 0.

(** [parseFloat(this.syncState[key]) || 0] *)
Definition currentGain (st : Instance) (key : string) : float :=
  orElse (parseFloat (stored st key)) 0.

(** [Math.max(-120, Math.min(10, current + step))] *)
Definition steppedGain (current step : float) : float :=
  Math_max (-120) (Math_min 10 (current + step)).

(** [step_input_gain] callback *)
Definition step_input_gain (o : Options) (st : Instance) : Instance :=
  let inIdx := channelIndex (input o) in
  let outIdx := channelIndex (output o) in
  let key := gainInputKey inIdx outIdx in
  let v := steppedGain (currentGain st key) (stepAmount o) in
  storeAndPublish key (VNumber v) []
    (sendOsc (gainInputPath inIdx outIdx) [floatArg v] st).

(** [step_output_gain] callback *)
Definition step_output_gain (o : Options) (st : Instance) : Instance :=
  let outIdx := channelIndex (output o) in
  let key := gainOutputKey outIdx in
  let v := steppedGain (currentGain st key) (stepAmount o) in
  storeAndPublish key (VNumber v) []
    (sendOsc (gainOutputPath outIdx) [floatArg v] st).

(** [matrix_point_mute_toggle] callback *)
Definition matrix_point_mute_toggle (o : Options) (st : Instance) : Instance :=
  let inIdx := channelIndex (input o) in
  let outIdx := channelIndex (output o) in
  let key := gainInputKey inIdx outIdx in
  let savedKey := savedGainKey inIdx outIdx in
  let current := parseFloat (stored st key) in
  let isMuted := negb (isNaN current) && (current <=? -120)%float in
  let path := gainInputPath inIdx outIdx in
  if isMuted then
    let restore :=
      match savedMatrixGain st !! savedKey with
      | Some g => g
      | None => 0%float
      end in
    let st := set_savedMatrixGain (delete savedKey (savedMatrixGain st)) st in
    storeAndPublish key (VNumber restore) []
      (sendOsc path [floatArg restore] st)
  else
    let st := set_savedMatrixGain
                (<[savedKey := if isNaN current then 0%float else current]>
                   (savedMatrixGain st)) st in
    storeAndPublish key (VNumber (-120)) []
      (sendOsc path [floatArg (-120)] st).

(** The stored mute value read as a boolean: the expression
    [!isNaN(num) ? num !== 0 : (v === '1' || v === 1 || v === true || v === 'true')]
    with [num = parseFloat(v)], which both mute actions and both mute
    feedbacks spell out. *)
Definition storedIsMuted (v : Value) : bool :=
  let num := parseFloat v in
  if negb (isNaN num) then negb (numEq num 0)
  else strictEq v (VString "1") || strictEq v (VNumber 1)
       || strictEq v (VBool true) || strictEq v (VString "true").

(** The value of [mute] after the [toggle] test of a mute action. *)
Definition requestedMute (o : Options) (st : Instance) (key : string) : bool :=
  let m := strictEq (mute o) (VBool true) || strictEq (mute o) (VString "true") in
  if strictEq (mute o) (VString "toggle")
  then negb (storedIsMuted (stored st key))
  else m.

Definition muteArg (m : bool) : Arg :=
  if m then mkArg "T" VUndefined else mkArg "F" VUndefined.

Definition muteNumber (m : bool) : Value :=
  VNumber (if m then 1 else 0).

(** [set_input_mute] callback *)
Definition set_input_mute (o : Options) (st : Instance) : Instance :=
  let inIdx := channelIndex (input o) in
  let key := "mute_input_" +:+ toString inIdx in
  let m := requestedMute o st key in
  storeAndPublish key (muteNumber m) ["input_muted"; "output_muted"]
    (sendOsc ("/mute/input/" +:+ toString inIdx) [muteArg m] st).

(** [set_output_mute] callback *)
Definition set_output_mute (o : Options) (st : Instance) : Instance :=
  let outIdx := channelIndex (output o) in
  let key := "mute_output_" +:+ toString outIdx in
  let m := requestedMute o st key in
  storeAndPublish key (muteNumber m) ["input_muted"; "output_muted"]
    (sendOsc ("/mute/output/" +:+ toString outIdx) [muteArg m] st).

(** [input_muted], [output_muted] and [matrix_point_muted] feedbacks *)
Definition input_muted (o : Options) (st : Instance) : bool :=
  storedIsMuted (stored st ("mute_input_" +:+ toString (channelIndex (input o)))).

Definition output_muted (o : Options) (st : Instance) : bool :=
  storedIsMuted (stored st ("mute_output_" +:+ toString (channelIndex (output o)))).

Definition matrix_point_muted (o : Options) (st : Instance) : bool :=
  let num := parseFloat (stored st (gainInputKey (channelIndex (input o))
                                                 (channelIndex (output o)))) in
  negb (isNaN num) && (num <=? -120)%float.

(** *** Labels, choices and presets *)

Definition NUM_INPUTS : nat := 8.
Definition NUM_OUTPUTS : nat := 8.

(** [channelLabel(chNum, type)] *)
Definition channelLabel (chNum : Value) (type : string) : string :=
  let n := orElse (parseInt chNum) 1 in
  let kind := if (n <=? 4)%float then "Analog" else "Dante" in
  let num := if (n <=? 4)%float then n else (n - 4)%float in
  let inOut := if String.eqb type "input" then "in" else "out" in
  kind +:+ " " +:+ inOut +:+ " " +:+ toString num.

(** An entry [{ id, label }] of a dropdown. *)
Record Choice := mkChoice { choiceId : float; choiceLabel : string }.

(** The callback of [Array.from({ length }, (_, i) => ...)] in
    [updateActions] and [updateFeedbacks], for the index [i]; [analog] and
    [dante] are the two values of [type]. *)
Definition channelChoice (analog dante : string) (i : nat) : Choice :=
  let n := (ofZ (Z.of_nat i) + 1)%float in
  let num := if (n <=? 4)%float then n else (n - 4)%float in
  let type := if (n <=? 4)%float then analog else dante in
  mkChoice n (type +:+ " " +:+ toString num).

Definition inputChoices : list Choice :=
  map (channelChoice "Analog in" "Dante in") (seq 0 NUM_INPUTS).

Definition outputChoices : list Choice :=
  map (channelChoice "Analog out" "Dante out") (seq 0 NUM_OUTPUTS).

(** A preset button: its category, name and text, the feedback with its
    options and the text it shows, and the action of the first step with
    its options.  The type, sizes and colours are constants and left
    out. *)
Record Preset := mkPreset {
  category : string;
  name : string;
  text : string;
  feedbackId : string;
  feedbackOptions : Options;
  feedbackText : string;
  actionId : string;
  actionOptions : Options
}.

Definition pointOptions (inNum outNum : float) : Options :=
  mkOptions (VNumber inNum) (VNumber outNum)
            VUndefined VUndefined VUndefined VUndefined.

(** The body of the inner loop of [getPresetDefinitions]: the key and the
    preset of input [inNum] and output [outNum]; [newline] is ["\n"]. *)
Definition presetFor (instanceId : string) (outNum inNum : float)
  : string * Preset :=
  let newline := String (ascii_of_nat 10) "" in
  let id := "matrix_mute_in" +:+ toString inNum +:+ "_out" +:+ toString outNum in
  let varId := "gain_input_" +:+ toString inNum +:+ "_" +:+ toString outNum in
  (id,
   mkPreset ("Out " +:+ toString outNum)
            ("In " +:+ toString inNum)
            ("In " +:+ toString inNum +:+ newline
               +:+ "$(" +:+ instanceId +:+ ":" +:+ varId +:+ ")")
            "matrix_point_muted" (pointOptions inNum outNum)
            ("In " +:+ toString inNum +:+ newline +:+ "MUTE")
            "matrix_point_mute_toggle" (pointOptions inNum outNum)).

(** The numbers [1 .. count] a [for (let k = 1; k <= count; k++)] loop
    runs through. *)
Definition loopNumbers (count : nat) : list float :=
  map (fun k => ofZ (Z.of_nat k)) (seq 1 count).

(** [getPresetDefinitions()]: the properties of the object in the order
    they are assigned; [thisId] is [this.id]. *)
Definition getPresetDefinitions (thisId : option string) : list (string * Preset) :=
  let instanceId :=
    match thisId with
    | Some i => if isEmpty i then "instance" else i
    | None => "instance"
    end in
  flat_map (fun outNum => map (presetFor instanceId outNum) (loopNumbers NUM_INPUTS))
           (loopNumbers NUM_OUTPUTS).

(** *** Variable names *)

(** [s.split('_')] *)
Fixpoint splitUnderscore (s : string) : list string :=
  match s with
  | EmptyString => [EmptyString]
  | String c r =>
      if ascii_eqb c "_" then EmptyString :: splitUnderscore r
      else match splitUnderscore r with
           | p :: ps => String c p :: ps
           | [] => [String c EmptyString]
           end
  end.

(** [s.replace(/_/g, ' ')] *)
Fixpoint underscoresToSpaces (s : string) : string :=
  match s with
  | EmptyString => EmptyString
  | String c r =>
      String (if ascii_eqb c "_" then " "%char else c) (underscoresToSpaces r)
  end.

(** The class [\w]: an ASCII letter, a digit or the underscore. *)
Definition isWordChar (c : ascii) : bool :=
  let n := code c in
  ((48 <=? n) && (n <=? 57)) || ((65 <=? n) && (n <=? 90)) || (n =? 95)
  || ((97 <=? n) && (n <=? 122)).

(** [c.toUpperCase()] for a code unit below 256.  Sharp s becomes two
    letters; the micro sign and y with diaeresis have their capitals
    above U+00FF, which a [string] does not carry: [None]. *)
Definition toUpperCaseChar (c : ascii) : option string :=
  let n := code c in
  let shifted := String (ascii_of_N (Z.to_N (n - 32))) EmptyString in
  if (97 <=? n) && (n <=? 122) then Some shifted
  else if n =? 223 then Some "SS"
  else if (n =? 181) || (n =? 255) then None
  else if (224 <=? n) && (n <=? 254) && negb (n =? 247) then Some shifted
  else Some (String c EmptyString).

(** [s.replace(/\b\w/g, (c) => c.toUpperCase())]: a word character is
    replaced when the character before it is not one; [prevWord] says
    whether it is.  Of the word characters only the letters [a] to [z]
    have a capital. *)
Fixpoint capitalizeWords (prevWord : bool) (s : string) : string :=
  match s with
  | EmptyString => EmptyString
  | String c r =>
      let n := code c in
      let upper := if (97 <=? n) && (n <=? 122)
                   then ascii_of_N (Z.to_N (n - 32)) else c in
      String (if isWordChar c && negb prevWord then upper else c)
             (capitalizeWords (isWordChar c) r)
  end.

(** [variableIdToName(variableId)] for a string; nothing in its [try]
    blocks throws.  [None] only when the capital of the first character
    of [parts[1]], in the [comp] branches, is above U+00FF. *)
Definition variableIdToName (variableId : string) : option string :=
  if isEmpty variableId then Some "?"
  else
    let parts := splitUnderscore variableId in
    let part (k : nat) : option string := nth_error parts k in
    let partIs (k : nat) (s : string) : bool :=
      match part k with Some p => String.eqb p s | None => false end in
    let defined (k : nat) : bool :=
      match part k with Some _ => true | None => false end in
    let label (k : nat) (type : string) : string :=
      channelLabel (VString (default "" (part k))) type in
    let sub : option string :=
      match part 1%nat with
      | Some (String c r) =>
          match toUpperCaseChar c with
          | Some u => Some (u +:+ r)
          | None => None
          end
      | _ => Some ""
      end in
    let pt : string :=
      match part 4%nat with
      | Some p => " (pt " +:+ p +:+ ")"
      | None => ""
      end in
    if partIs 0%nat "gain" && partIs 1%nat "input" && defined 2%nat && defined 3%nat then
      Some ("Gain: " +:+ label 2%nat "input" +:+ " -> " +:+ label 3%nat "output")
    else if partIs 0%nat "gain" && partIs 1%nat "output" && defined 2%nat then
      Some ("Gain: " +:+ label 2%nat "output")
    else if partIs 0%nat "mute" && partIs 1%nat "input" && defined 2%nat then
      Some ("Mute: " +:+ label 2%nat "input")
    else if partIs 0%nat "mute" && partIs 1%nat "output" && defined 2%nat then
      Some ("Mute: " +:+ label 2%nat "output")
    else if partIs 0%nat "trim" && defined 1%nat then
      Some ("Trim: " +:+ label 1%nat "input")
    else if partIs 0%nat "delay" && defined 1%nat then
      Some ("Delay: " +:+ label 1%nat "output")
    else if partIs 0%nat "phase" && partIs 1%nat "input" && defined 2%nat then
      Some ("Phase: " +:+ label 2%nat "input")
    else if partIs 0%nat "phase" && partIs 1%nat "output" && defined 2%nat then
      Some ("Phase: " +:+ label 2%nat "output")
    else if partIs 0%nat "eqenable" && partIs 1%nat "input" && defined 2%nat then
      Some ("EQ enable: " +:+ label 2%nat "input")
    else if partIs 0%nat "eqenable" && partIs 1%nat "output" && defined 2%nat then
      Some ("EQ enable: " +:+ label 2%nat "output")
    else if partIs 0%nat "comp" && defined 1%nat && partIs 2%nat "input" && defined 3%nat then
      match sub with
      | Some u => Some ("Comp " +:+ u +:+ ": " +:+ label 3%nat "input")
      | None => None
      end
    else if partIs 0%nat "comp" && defined 1%nat && partIs 2%nat "output" && defined 3%nat then
      match sub with
      | Some u => Some ("Comp " +:+ u +:+ ": " +:+ label 3%nat "output")
      | None => None
      end
    else if partIs 0%nat "eq" && partIs 1%nat "gain" && partIs 2%nat "input" && defined 3%nat then
      Some ("EQ gain: " +:+ label 3%nat "input" +:+ pt)
    else if partIs 0%nat "eq" && partIs 1%nat "gain" && partIs 2%nat "output" && defined 3%nat then
      Some ("EQ gain: " +:+ label 3%nat "output" +:+ pt)
    else Some (capitalizeWords false (underscoresToSpaces variableId)).

End Dbt44.

(** ** A reader and writer of the OSC 1.0 layout

    The general theorems below hold for every [OscLib].  To run concrete
    buffers an instance is needed, and the package is not among the
    sources: [OscWire] reads and writes the binary layout that section 4.1
    of the specification describes. *)

Module OscWire.
Import JSString JSNumber JSValue.

Fixpoint splitAtNul (b : Buffer) : option (list byte * Buffer) :=
  match b with
  | [] => None
  | c :: r =>
      if Byte.eqb c x00 then Some ([], r)
      else match splitAtNul r with
           | Some (s, t) => Some (c :: s, t)
           | None => None
           end
  end.

(** Zero bytes after the terminator of a string of [n] bytes. *)
Definition padding (n : nat) : nat := (3 - n mod 4)%nat.

Definition readString (b : Buffer) : Completion (string * Buffer) :=
  match splitAtNul b with
  | None => Throw
  | Some (s, rest) =>
      if (length rest <? padding (length s))%nat then Throw
      else Normal (string_of_list_byte s, skipn (padding (length s)) rest)
  end.

Definition byteZ (c : byte) : Z := Z.of_N (Byte.to_N c).

(** Four bytes, big-endian, as an unsigned integer. *)
Definition readUInt32 (b : Buffer) : Completion (Z * Buffer) :=
  match b with
  | b3 :: b2 :: b1 :: b0 :: rest =>
      Normal (byteZ b3 * 2 ^ 24 + byteZ b2 * 2 ^ 16 + byteZ b1 * 2 ^ 8 + byteZ b0, rest)
  | _ => Throw
  end.

(** The binary32 value with the given bits. *)
Definition float32OfBits (bits : Z) : float :=
  let s := Z.testbit bits 31 in
  let ex := Z.land (Z.shiftr bits 23) 255 in
  let frac := Z.land bits (2 ^ 23 - 1) in
  if ex =? 255 then
    (if frac =? 0 then (if s then PrimFloat.neg_infinity else PrimFloat.infinity) else NaN)
  else if ex =? 0 then ofRatio s frac (2 ^ 149)
  else if 150 <=? ex then ofRatio s ((2 ^ 23 + frac) * 2 ^ (ex - 150)) 1
  else ofRatio s (2 ^ 23 + frac) (2 ^ (150 - ex)).

Definition int32OfBits (bits : Z) : float :=
  ofZ (if Z.testbit bits 31 then bits - 2 ^ 32 else bits).

Fixpoint readArguments (tags : string) (b : Buffer) : Completion (list Arg) :=
  match tags with
  | EmptyString => Normal []
  | String t tags' =>
      let* r :=
        (if ascii_eqb t "f" then
           let* w := readUInt32 b in
           Normal (mkArg "f" (VNumber (float32OfBits (fst w))), snd w)
         else if ascii_eqb t "i" then
           let* w := readUInt32 b in
           Normal (mkArg "i" (VNumber (int32OfBits (fst w))), snd w)
         else if ascii_eqb t "s" then
           let* w := readString b in
           Normal (mkArg "s" (VString (fst w)), snd w)
         else if ascii_eqb t "T" then Normal (mkArg "T" (VBool true), b)
         else if ascii_eqb t "F" then Normal (mkArg "F" (VBool false), b)
         else Throw) in
      let* rest := readArguments tags' (snd r) in
      Normal (fst r :: rest)
  end.

Definition readMessage (b : Buffer) : Completion Packet :=
  let* a := readString b in
  if negb (startsWith (fst a) "/") then Throw
  else
    let* t := readString (snd a) in
    match fst t with
    | String c tags =>
        if ascii_eqb c "," then
          let* args := readArguments tags (snd t) in
          Normal (Message (fst a) args)
        else Throw
    | EmptyString => Throw
    end.

(** The elements of a bundle: a size, then a message of that many bytes. *)
Fixpoint readElements (fuel : nat) (b : Buffer) : Completion (list Packet) :=
  match b with
  | [] => Normal []
  | _ :: _ =>
      match fuel with
      | O => Throw
      | S fuel' =>
          let* w := readUInt32 b in
          let size := Z.to_nat (fst w) in
          if (length (snd w) <? size)%nat then Throw
          else
            let* m := readMessage (firstn size (snd w)) in
            let* rest := readElements fuel' (skipn size (snd w)) in
            Normal (m :: rest)
      end
  end.

(** Modelled from the spec: [osc.readPacket], of the [osc] package, is
    missing.  A packet is a message (a null-terminated address that starts
    with a slash, padded to four bytes; a type-tag string [,] plus one
    letter per argument; four big-endian bytes for each [f] and [i], a
    padded string for each [s], nothing for [T] and [F]) or a [#bundle] of
    messages, one level; anything else throws. *)
Definition readPacketBytes (b : Buffer) : Completion Packet :=
  match b with
  | c :: _ =>
      if Byte.eqb c x2f then readMessage b
      else if Byte.eqb c x23 then
        let* h := readString b in
        if negb (String.eqb (fst h) "#bundle") then Throw
        else if (length (snd h) <? 8)%nat then Throw
        else
          let* ps := readElements (length b) (skipn 8 (snd h)) in
          Normal (Bundle ps)
      else Throw
  | [] => Throw
  end.

Definition byteOfZ (n : Z) : byte := default x00 (Byte.of_N (Z.to_N (n mod 256))).

Definition writeUInt32 (n : Z) : Buffer :=
  [byteOfZ (n / 2 ^ 24); byteOfZ (n / 2 ^ 16); byteOfZ (n / 2 ^ 8); byteOfZ n].

Definition writeString (s : string) : Buffer :=
  let bytes := list_byte_of_string s in
  (bytes ++ x00 :: repeat x00 (padding (length bytes)))%list.

(** The bits of the binary32 value nearest to a number. *)
Definition float32Bits (x : float) : Z :=
  match Prim2SF x with
  | S754_nan => 2 ^ 31 - 2 ^ 22
  | S754_zero s => if s then 2 ^ 31 else 0
  | S754_infinity s => (if s then 2 ^ 31 else 0) + 255 * 2 ^ 23
  | S754_finite s m e =>
      (if s then 2 ^ 31 else 0) +
      match binary_normalize 24 128 (Z.pos m) e false with
      | S754_finite _ m' e' =>
          if Z.pos m' <? 2 ^ 23 then Z.pos m'
          else (e' + 150) * 2 ^ 23 + (Z.pos m' - 2 ^ 23)
      | S754_infinity _ => 255 * 2 ^ 23
      | _ => 0
      end
  end.

Definition writeArgument (a : Arg) : Completion Buffer :=
  let t := type a in
  if String.eqb t "f" then Normal (writeUInt32 (float32Bits (ToNumber (value a))))
  else if String.eqb t "i" then
    match Prim2SF (ToNumber (value a)) with
    | S754_zero _ => Normal (writeUInt32 0)
    | S754_finite s m e =>
        if 0 <=? e then Normal (writeUInt32 ((if s then Z.neg m else Z.pos m) * 2 ^ e))
        else Throw
    | _ => Throw
    end
  else if String.eqb t "s" then Normal (writeString (ToString (value a)))
  else if String.eqb t "T" || String.eqb t "F" then Normal []
  else Throw.

Fixpoint writeArguments (args : list Arg) : Completion (string * Buffer) :=
  match args with
  | [] => Normal (EmptyString, [])
  | a :: rest =>
      let* b := writeArgument a in
      let* r := writeArguments rest in
      Normal (type a +:+ fst r, (b ++ snd r)%list)
  end.

Definition writeMessage (address : string) (args : list Arg) : Completion Buffer :=
  let* r := writeArguments args in
  Normal (writeString address ++ writeString ("," +:+ fst r) ++ snd r)%list.

Fixpoint writeElements (ps : list Packet) : Completion Buffer :=
  match ps with
  | [] => Normal []
  | Message address args :: rest =>
      let* m := writeMessage address args in
      let* r := writeElements rest in
      Normal (writeUInt32 (Z.of_nat (length m)) ++ m ++ r)%list
  | Bundle _ :: _ => Throw
  end.

(** Modelled from the spec: [osc.writePacket], of the [osc] package, is
    missing.  The packet in the same layout. *)
Definition writePacketBytes (p : Packet) : Completion Buffer :=
  match p with
  | Message address args => writeMessage address args
  | Bundle ps =>
      let* r := writeElements ps in
      Normal (writeString "#bundle" ++ writeUInt32 0 ++ writeUInt32 1 ++ r)%list
  end.

(** Modelled from the spec: the [osc] package as the reader and writer
    above; with or without [metadata] the reader is the same. *)
#[export] Instance StdOsc : OscLib := {|
  RawPacket := Packet;
  readPacket := readPacketBytes;
  writePacket := writePacketBytes;
  readPacketMetadata := readPacketBytes
|}.

End OscWire.

(** ** The words of the specification, and worked inputs *)

Import JSString JSNumber JSValue Dbt44.

(** [clamp(x, lo, hi)] of the operation table. *)
Definition clamp (x lo hi : float) : float :=
  if (x <? lo)%float then lo else if (hi <? x)%float then hi else x.

(** [ceil4(n)]: [n] rounded up to a multiple of four. *)
Definition ceil4 (n : Z) : Z := 4 * ((n + 3) / 4).

Fixpoint allDigits (s : string) : bool :=
  match s with
  | EmptyString => true
  | String c r => isDigit c && allDigits r
  end.

(** A decimal numeral with exactly one digit after the point. *)
Definition oneDecimal (s : string) : Prop :=
  exists sign whole d,
    s = sign +:+ whole +:+ "." +:+ String d "" /\
    (sign = "" \/ sign = "-") /\
    whole <> "" /\ allDigits whole = true /\ isDigit d = true.

(** The address is exactly [/ping] or [/ping/<configured device name>]. *)
Definition isPingAddress (st : Instance) (address : string) : Prop :=
  address = "/ping"
  \/ (isEmpty (deviceName st) = false /\ address = "/ping/" +:+ deviceName st).

(** The label [updateStatus('ok', ...)] is given. *)
Definition statusLabel (fallback : string) (st : Instance) : string :=
  if isEmpty (deviceName st) then fallback else deviceName st.

(** The instance is configured and resolved, so that [sendOsc] sends. *)
Definition canSend (st : Instance) (h : string) : Prop :=
  targetHost st = Some h /\ isEmpty h = false /\ isEmpty (deviceName st) = false.

(** A unit named [unit1], connected, nothing received yet. *)
Definition exampleConfig : Config :=
  mkConfig (VString "192.168.1.100") (Some "unit1") (VString "9000") (VString "9001").

Definition exampleInstance (buffer : Buffer) : Instance :=
  mkInstance exampleConfig (Some "192.168.1.100") buffer ∅ [] ∅ [].

(** The same unit with one stored value. *)
Definition exampleWith (key : string) (v : Value) : Instance :=
  set_syncState (<[key := v]> ∅) (exampleInstance []).

(** The ping echo of the device: the address and one zero byte, twelve
    bytes, no type tags. *)
Definition pingEcho : Buffer := (list_byte_of_string "/ping/unit1" ++ [x00])%list.

(** Four bytes that start no OSC packet. *)
Definition garbage : Buffer := list_byte_of_string "ABCD".

(** A lone slash and its padding. *)
Definition loneSlash : Buffer := [x2f; x00; x00; x00].

(** A standard frame: the crosspoint gain of input 2 to output 5, -3.5 dB. *)
Definition gainFrame : Buffer :=
  match OscWire.writePacketBytes
          (Message "/gain/input/2/5/unit1" [mkArg "f" (VNumber (-3.5))]) with
  | Normal b => b
  | Throw => []
  end.

Definition noOptions : Options :=
  mkOptions VUndefined VUndefined VUndefined VUndefined VUndefined VUndefined.

(** Options that select input 1 and output 1. *)
Definition point11 (preset custom muteOption : Value) : Options :=
  mkOptions (VNumber 1) (VNumber 1) VUndefined preset custom muteOption.

(** No character of the string is a slash. *)
Fixpoint noSlash (s : string) : bool :=
  match s with
  | EmptyString => true
  | String c r => negb (ascii_eqb c "/") && noSlash r
  end.

(** The character does not occur in the string. *)
Fixpoint lacks (x : ascii) (s : string) : bool :=
  match s with
  | EmptyString => true
  | String c r => negb (ascii_eqb c x) && lacks x r
  end.

(** The state store and the variable definitions agree: no identifier is
    defined twice, every stored key is defined, no defined identifier is
    empty, and every stored value is a non-empty string. *)
Definition storeConsistent (st : Instance) : Prop :=
  NoDup (syncVariableDefs st) /\
  (forall k, is_Some (syncState st !! k) -> In k (syncVariableDefs st)) /\
  (forall k, In k (syncVariableDefs st) -> k <> "") /\
  (forall k v, syncState st !! k = Some v -> exists s, v = VString s /\ s <> "").

(** The fields that only configuration and the actions write. *)
Definition sameSettings (st st' : Instance) : Prop :=
  config st' = config st /\ targetHost st' = targetHost st /\
  savedMatrixGain st' = savedMatrixGain st.






(** Every packet the package writes has at least one byte. *)
Definition writesNonEmpty (osc : OscLib) : Prop :=
  forall packet bytes, writePacket packet = Normal bytes -> bytes <> [].

(** A call is either not a message to the device, or a message whose path
    is mapped by [pathToVariableId] to a key of the state store. *)
Definition sentOnStoredKey (st : Instance) (c : HostCall) : Prop :=
  match c with
  | OscSend _ _ path _ =>
      exists key, pathToVariableId st (VString path) = Some key /\
                  is_Some (syncState st !! key)
  | _ => True
  end.

(** The call is a message to the device. *)
Definition isOscSend (c : HostCall) : bool :=
  match c with OscSend _ _ _ _ => true | _ => false end.

(** The call is one a message handler makes: a status or a feedback
    refresh. *)
Definition isHandlerCall (c : HostCall) : bool :=
  match c with UpdateStatus _ _ | CheckFeedbacks _ => true | _ => false end.

(** The seven actions that write to the device. *)
Inductive Action :=
| SetInputGain | SetOutputGain | StepInputGain | StepOutputGain
| MatrixPointMuteToggle | SetInputMute | SetOutputMute.

Definition runAction (a : Action) : Options -> Instance -> Instance :=
  match a with
  | SetInputGain => set_input_gain
  | SetOutputGain => set_output_gain
  | StepInputGain => step_input_gain
  | StepOutputGain => step_output_gain
  | MatrixPointMuteToggle => matrix_point_mute_toggle
  | SetInputMute => set_input_mute
  | SetOutputMute => set_output_mute
  end.

(** What an action writes into the store, in the words of its callback:
    the key, and the value before it is formatted.  [i] and [j] are the
    input and output numbers [parseInt(option, 10) || 1] as [String]
    writes them, [read key] is [this.syncState[key]], [step] the preset
    or custom amount, and [requested] the mute asked for. *)
Definition actionWrite (a : Action) (o : Options) (st : Instance) : string * Value :=
  let i := toString (orElse (parseInt (input o)) 1) in
  let j := toString (orElse (parseInt (output o)) 1) in
  let read key := default VUndefined (syncState st !! key) in
  let step :=
    if strictEq (step_preset o) (VString "custom")
    then orElse (ToNumber (step_custom o)) 0
    else orElse (ToNumber (step_preset o)) 0 in
  let stepped key := clamp (orElse (parseFloat (read key)) 0 + step) (-120) 10 in
  let requested key :=
    if strictEq (mute o) (VString "toggle") then negb (storedIsMuted (read key))
    else strictEq (mute o) (VBool true) || strictEq (mute o) (VString "true") in
  let crossKey := "gain_input_" +:+ i +:+ "_" +:+ j in
  let outKey := "gain_output_" +:+ j in
  match a with
  | SetInputGain => (crossKey, VNumber (ToNumber (gain o)))
  | SetOutputGain => (outKey, VNumber (ToNumber (gain o)))
  | StepInputGain => (crossKey, VNumber (stepped crossKey))
  | StepOutputGain => (outKey, VNumber (stepped outKey))
  | MatrixPointMuteToggle =>
      let current := parseFloat (read crossKey) in
      (crossKey,
       VNumber (if negb (isNaN current) && (current <=? -120)%float
                then default 0%float (savedMatrixGain st !! (i +:+ "_" +:+ j))
                else (-120)%float))
  | SetInputMute =>
      ("mute_input_" +:+ i,
       VNumber (if requested ("mute_input_" +:+ i) then 1%float else 0%float))
  | SetOutputMute =>
      ("mute_output_" +:+ j,
       VNumber (if requested ("mute_output_" +:+ j) then 1%float else 0%float))
  end.



(** ** Facts about strings *)

Lemma append_cons (c : ascii) (a b : string) :
  String c a +:+ b = String c (a +:+ b).
Proof. reflexivity. Qed.

Lemma append_nil (b : string) : "" +:+ b = b.
Proof. reflexivity. Qed.

Lemma length_append (a b : string) :
  String.length (a +:+ b) = (String.length a + String.length b)%nat.
Proof.
  induction a as [|c a IH]; [reflexivity|].
  rewrite append_cons. cbn [String.length]. now rewrite IH.
Qed.

Lemma drop_append (a b : string) : drop (String.length a) (a +:+ b) = b.
Proof.
  induction a as [|c a IH]; [reflexivity|].
  rewrite append_cons. cbn [String.length drop]. exact IH.
Qed.

Lemma take_append (a b : string) : take (String.length a) (a +:+ b) = a.
Proof.
  induction a as [|c a IH]; [now destruct b|].
  rewrite append_cons. cbn [String.length take]. now rewrite IH.
Qed.

Lemma endsWith_append (a b : string) : endsWith (a +:+ b) b = true.
Proof.
  unfold endsWith. rewrite length_append.
  replace (String.length a + String.length b - String.length b)%nat
    with (String.length a) by lia.
  rewrite drop_append, String.eqb_refl, andb_true_r.
  apply Nat.leb_le. lia.
Qed.

Lemma sliceTo_append (a b : string) :
  sliceTo (a +:+ b)
    (Z.of_nat (String.length (a +:+ b)) - Z.of_nat (String.length b)) = a.
Proof.
  unfold sliceTo. rewrite length_append.
  set (la := String.length a). set (lb := String.length b).
  replace (Z.of_nat (la + lb) - Z.of_nat lb) with (Z.of_nat la) by lia.
  destruct (Z.ltb_spec (Z.of_nat la) 0); [lia|].
  rewrite Z.min_l by lia. rewrite Nat2Z.id. apply take_append.
Qed.

Lemma isEmpty_false_append (a b : string) :
  isEmpty b = false -> isEmpty (a +:+ b) = false.
Proof. destruct a; [auto|reflexivity]. Qed.

Lemma stripLeadingSlash_base (p : string) :
  stripLeadingSlash (if startsWith p "/" then p else "/" +:+ p)
  = stripLeadingSlash p.
Proof.
  destruct p as [|c r]; [reflexivity|].
  cbn [startsWith stripLeadingSlash]. unfold ascii_eqb. rewrite andb_true_r.
  destruct (Ascii.eqb_spec c "/") as [->|Hne].
  - reflexivity.
  - assert (Ascii.eqb "/" c = false) as ->
      by (apply Ascii.eqb_neq; congruence).
    rewrite append_cons, append_nil. reflexivity.
Qed.

Lemma string_of_uint_digits (u : Decimal.uint) :
  allDigits (NilEmpty.string_of_uint u) = true.
Proof. induction u; cbn [NilEmpty.string_of_uint allDigits]; auto. Qed.

Lemma digitsOfZ_digits (n : Z) : allDigits (digitsOfZ n) = true.
Proof.
  unfold digitsOfZ, NilZero.string_of_uint.
  destruct (N.to_uint (Z.to_N n)) eqn:E; try reflexivity;
    rewrite <- E at 1; rewrite E; apply string_of_uint_digits.
Qed.

Lemma digitsOfZ_nonempty (n : Z) : digitsOfZ n <> "".
Proof.
  unfold digitsOfZ, NilZero.string_of_uint.
  destruct (N.to_uint (Z.to_N n)); cbn [NilEmpty.string_of_uint]; discriminate.
Qed.

(** A string of two digits or more is a non-empty string of digits
    followed by one digit. *)
Lemma split_last_digit (m : string) :
  allDigits m = true -> (2 <= String.length m)%nat ->
  exists whole d, m = whole +:+ String d "" /\ whole <> "" /\
                  allDigits whole = true /\ isDigit d = true.
Proof.
  induction m as [|c m IH]; cbn [allDigits String.length]; [lia|].
  intros Hd Hl. apply andb_prop in Hd as [Hc Hm].
  destruct m as [|c' m'].
  - cbn in Hl. lia.
  - destruct m' as [|c'' m''].
    + exists (String c ""), c'. cbn in Hm. apply andb_prop in Hm as [Hc' _].
      split; [reflexivity|]. split; [discriminate|].
      split; [cbn; now rewrite Hc|assumption].
    + destruct IH as (whole & d & Heq & Hne & Hw & Hdd); [assumption|cbn; lia|].
      exists (String c whole), d. rewrite append_cons, <- Heq.
      split; [reflexivity|]. split; [discriminate|].
      split; [cbn [allDigits]; now rewrite Hc, Hw|assumption].
Qed.

Lemma fixedLayout_one (n : Z) :
  exists whole d, fixedLayout n 1 = whole +:+ "." +:+ String d "" /\
                  whole <> "" /\ allDigits whole = true /\ isDigit d = true.
Proof.
  unfold fixedLayout.
  set (m := digitsOfZ n).
  set (m' := if (String.length m <=? 1)%nat
             then repeatChar "0" (1 + 1 - String.length m) +:+ m else m).
  assert (Hd : allDigits m' = true /\ (2 <= String.length m')%nat).
  { subst m'. pose proof (digitsOfZ_digits n) as Hm.
    pose proof (digitsOfZ_nonempty n) as Hn. fold m in Hm, Hn.
    destruct (Nat.leb_spec (String.length m) 1).
    - destruct m as [|c [|c' r]]; [congruence| |cbn in *; lia].
      change (repeatChar "0" (1 + 1 - String.length (String c "")) +:+ String c "")
        with (String "0" (String c "")).
      split; [|cbn; lia].
      cbn [allDigits] in *. rewrite Hm. reflexivity.
    - split; [assumption|lia]. }
  destruct Hd as [Hd Hl].
  destruct (split_last_digit m' Hd Hl) as (whole & d & Heq & Hne & Hw & Hdd).
  exists whole, d. repeat split; auto.
  rewrite Heq at 1 2 3. rewrite length_append. cbn [String.length].
  replace (String.length whole + 1 - 1)%nat with (String.length whole) by lia.
  rewrite Heq. rewrite take_append, drop_append. reflexivity.
Qed.

Lemma toFixed_one_decimal (x : float) :
  isFinite x = true -> (abs x <? 1e21)%float = true -> oneDecimal (toFixed x 1).
Proof.
  intros Hf Hs. unfold toFixed. rewrite Hf, Hs. cbn [negb].
  destruct (fixedLayout_one (nearestScaled x 1)) as (whole & d & Heq & Hne & Hw & Hdd).
  exists (if (x <? 0)%float then "-" else ""), whole, d.
  rewrite Heq. repeat split; auto. destruct (x <? 0)%float; auto.
Qed.

Lemma lacks_append (x : ascii) (a b : string) :
  lacks x (a +:+ b) = lacks x a && lacks x b.
Proof.
  induction a as [|c a IH]; [reflexivity|].
  rewrite append_cons. cbn [lacks]. rewrite IH. apply andb_assoc.
Qed.

(** ** Facts about numbers *)

Lemma float_of_spec (x : float) (sx : spec_float) :
  Prim2SF x = sx -> x = SF2Prim sx.
Proof. intros <-. symmetry. apply SF2Prim_Prim2SF. Qed.

Lemma SFcompare_antisym (a b : spec_float) :
  SFcompare b a = option_map CompOpp (SFcompare a b).
Proof.
  destruct a as [s1|s1| |s1 m1 e1], b as [s2|s2| |s2 m2 e2];
    try destruct s1; try destruct s2; try reflexivity;
    cbn [SFcompare option_map]; f_equal;
    rewrite (Z.compare_antisym e1 e2);
    assert (Hm : Pos.compare_cont Eq m2 m1 = CompOpp (Pos.compare_cont Eq m1 m2))
      by (rewrite (Pos.compare_cont_antisym m1 m2 Eq); reflexivity);
    rewrite Hm;
    destruct (e1 ?= e2); cbn [CompOpp]; try reflexivity;
    destruct (Pos.compare_cont Eq m1 m2); reflexivity.
Qed.

Lemma SFcompare_Eq_finite (a : spec_float) s m e :
  SFcompare a (S754_finite s m e) = Some Eq -> a = S754_finite s m e.
Proof.
  destruct a as [s1|s1| |s1 m1 e1]; try destruct s1; destruct s;
    cbn [SFcompare]; try discriminate;
    destruct (Z.compare_spec e1 e); try discriminate;
    rewrite Pos.compare_cont_spec; cbn [Pos.switch_Eq];
    destruct (Pos.compare_spec m1 m); cbn [CompOpp]; try discriminate;
    intros _; subst; reflexivity.
Qed.

Lemma is_nan_spec (x : float) :
  is_nan x = match Prim2SF x with S754_nan => true | _ => false end.
Proof.
  unfold is_nan. rewrite FloatAxioms.eqb_spec.
  destruct (Prim2SF x) as [s|s| |s m e]; try destruct s; try reflexivity;
    unfold SFeqb, SFcompare; rewrite Z.compare_refl, Pos.compare_cont_refl; reflexivity.
Qed.

Lemma is_nan_true (x : float) : is_nan x = true -> x = nan.
Proof.
  rewrite is_nan_spec. destruct (Prim2SF x) eqn:Hx; try discriminate.
  intros _. apply (float_of_spec _ _ Hx).
Qed.

Lemma ltb_not_nan (a b : float) :
  (a <? b)%float = true -> is_nan a = false /\ is_nan b = false.
Proof.
  rewrite FloatAxioms.ltb_spec, !is_nan_spec. unfold SFltb.
  destruct (Prim2SF a), (Prim2SF b); cbn [SFcompare]; try discriminate; auto.
Qed.

Lemma ltb_antisym (a b : float) :
  (a <? b)%float = true -> (b <? a)%float = false.
Proof.
  rewrite !FloatAxioms.ltb_spec. unfold SFltb.
  rewrite (SFcompare_antisym (Prim2SF a) (Prim2SF b)).
  destruct (SFcompare (Prim2SF a) (Prim2SF b)) as [[]|]; cbn; congruence.
Qed.

Lemma ltb_leb_false (a b : float) :
  (a <? b)%float = true -> (b <=? a)%float = false.
Proof.
  rewrite FloatAxioms.ltb_spec, FloatAxioms.leb_spec. unfold SFltb, SFleb.
  rewrite (SFcompare_antisym (Prim2SF a) (Prim2SF b)).
  destruct (SFcompare (Prim2SF a) (Prim2SF b)) as [[]|]; cbn; congruence.
Qed.

(** A number that is neither below nor above a finite non-zero number is
    that number. *)
Lemma not_ltb_eq (x c : float) s m e :
  Prim2SF c = S754_finite s m e ->
  is_nan x = false -> (x <? c)%float = false -> (c <? x)%float = false -> x = c.
Proof.
  intros Hc. rewrite is_nan_spec, !FloatAxioms.ltb_spec. unfold SFltb.
  rewrite (SFcompare_antisym (Prim2SF x) (Prim2SF c)).
  intros Hn H1 H2. apply Prim2SF_inj. rewrite Hc in *.
  apply SFcompare_Eq_finite.
  destruct (Prim2SF x) as [s1|s1| |s1 m1 e1]; try discriminate;
  destruct (SFcompare _ _) as [[]|] eqn:E; cbn in *; try discriminate; try reflexivity.
  all: destruct s, s1; cbn in E; discriminate.
Qed.

(** A number equal to a finite non-zero number is that number. *)
Lemma numEq_finite (x c : float) s m e :
  Prim2SF c = S754_finite s m e -> numEq x c = true -> x = c.
Proof.
  intros Hc. unfold numEq. rewrite FloatAxioms.eqb_spec, Hc. unfold SFeqb.
  destruct (SFcompare _ _) as [[]|] eqn:E; try discriminate. intros _.
  apply Prim2SF_inj. rewrite Hc. now apply SFcompare_Eq_finite.
Qed.

(** A number equal to zero is one of the two zeros. *)
Lemma numEq_zero (x : float) :
  numEq x 0 = true -> exists s, Prim2SF x = S754_zero s.
Proof.
  unfold numEq. rewrite FloatAxioms.eqb_spec.
  replace (Prim2SF 0) with (S754_zero false) by (vm_compute; reflexivity).
  unfold SFeqb. destruct (Prim2SF x) as [s|s| |s m e]; try destruct s;
    cbn [SFcompare]; try discriminate; eauto.
Qed.

(** ** Facts about the instance methods *)

Lemma sendOsc_call (st : Instance) (p : string) (args : list Arg) (h : string) :
  canSend st h -> startsWith p "/" = true ->
  sendOsc p args st
  = call (OscSend h (targetPort (config st)) (p +:+ "/" +:+ deviceName st) args) st.
Proof.
  intros (Hh & Hne & Hn) Hp. unfold sendOsc, oscPath. rewrite Hn, Hp, Hh, Hne.
  reflexivity.
Qed.

Lemma sendOsc_cases p args st :
  sendOsc p args st = st \/ exists c, sendOsc p args st = call c st.
Proof.
  unfold sendOsc. destruct (oscPath st p), (targetHost st) as [h|]; auto.
  destruct (isEmpty h); eauto.
Qed.

Lemma sendOsc_frame p args st :
  syncState (sendOsc p args st) = syncState st /\
  savedMatrixGain (sendOsc p args st) = savedMatrixGain st /\
  config (sendOsc p args st) = config st /\
  targetHost (sendOsc p args st) = targetHost st.
Proof. destruct (sendOsc_cases p args st) as [->|[c ->]]; auto. Qed.

Lemma assignSyncState_other (id text : string) (m : gmap string Value) :
  id <> "__proto__" -> assignSyncState id text m = <[id := VString text]> m.
Proof.
  intros Hp. unfold assignSyncState.
  destruct (String.eqb_spec id "__proto__"); [contradiction|reflexivity].
Qed.

Lemma storeSyncValue_syncState (id : string) (v : Value) (st : Instance) :
  isEmpty id = false -> id <> "__proto__" ->
  syncState (storeSyncValue id v st)
  = <[id := VString (formatSyncValue v)]> (syncState st).
Proof.
  intros Hne Hp. unfold storeSyncValue. rewrite Hne.
  rewrite (assignSyncState_other _ _ _ Hp).
  destruct (existsb _ _); reflexivity.
Qed.

(** Nothing is stored under [__proto__]. *)
Lemma storeSyncValue_proto (v : Value) (st : Instance) :
  syncState (storeSyncValue "__proto__" v st) = syncState st.
Proof.
  unfold storeSyncValue, assignSyncState. cbn [isEmpty].
  change (String.eqb "__proto__" "__proto__") with true. cbn iota.
  destruct (existsb _ _); reflexivity.
Qed.

Lemma storeSyncValue_defs (id : string) (v : Value) (st : Instance) :
  isEmpty id = false -> In id (syncVariableDefs (storeSyncValue id v st)).
Proof.
  intros Hne. unfold storeSyncValue. rewrite Hne.
  destruct (existsb _ _) eqn:E; cbn.
  - apply existsb_exists in E. destruct E as (x & Hx & Heq).
    apply String.eqb_eq in Heq. now subst.
  - apply in_or_app. right. now left.
Qed.

Lemma storeSyncValue_frame (id : string) (v : Value) (st : Instance) :
  calls (storeSyncValue id v st) = calls st /\
  savedMatrixGain (storeSyncValue id v st) = savedMatrixGain st /\
  config (storeSyncValue id v st) = config st /\
  targetHost (storeSyncValue id v st) = targetHost st.
Proof.
  unfold storeSyncValue. destruct (isEmpty id); [auto|].
  destruct (existsb _ _); auto.
Qed.

Lemma storeAndPublish_syncState key v ids st :
  isEmpty key = false -> key <> "__proto__" ->
  syncState (storeAndPublish key v ids st)
  = <[key := VString (formatSyncValue v)]> (syncState st).
Proof.
  intros Hne Hp. unfold storeAndPublish. cbn. now apply storeSyncValue_syncState.
Qed.

Lemma storeAndPublish_frame key v ids st :
  savedMatrixGain (storeAndPublish key v ids st) = savedMatrixGain st /\
  config (storeAndPublish key v ids st) = config st /\
  targetHost (storeAndPublish key v ids st) = targetHost st.
Proof.
  unfold storeAndPublish. cbn.
  destruct (storeSyncValue_frame key v st) as (_ & ? & ? & ?). auto.
Qed.

Lemma storeAndPublish_calls key v ids st c :
  In c (calls st) -> In c (calls (storeAndPublish key v ids st)).
Proof.
  intros Hin. unfold storeAndPublish. cbn.
  destruct (storeSyncValue_frame key v st) as (-> & _).
  rewrite !in_app_iff. auto.
Qed.

(** What a store-and-send action leaves: the formatted value under the
    key, and the message among the calls when the instance can send. *)
Lemma store_after_send key v ids p args st :
  isEmpty key = false -> key <> "__proto__" -> startsWith p "/" = true ->
  let st' := storeAndPublish key v ids (sendOsc p args st) in
  syncState st' !! key = Some (VString (formatSyncValue v)) /\
  (forall h, canSend st h ->
     In (OscSend h (targetPort (config st)) (p +:+ "/" +:+ deviceName st) args)
        (calls st')).
Proof.
  intros Hk Hproto Hp st'. subst st'. split.
  - rewrite storeAndPublish_syncState by assumption. apply lookup_insert_eq.
  - intros h Hs. apply storeAndPublish_calls. rewrite (sendOsc_call _ _ _ _ Hs Hp).
    cbn. apply in_or_app. right. now left.
Qed.

Lemma oscPath_ping (st : Instance) :
  oscPath st "/ping"
  = if isEmpty (deviceName st) then None else Some ("/ping/" +:+ deviceName st).
Proof. unfold oscPath. destruct (isEmpty (deviceName st)); reflexivity. Qed.

(** The test [isPing] of [handleOscMessage], as a function of the address. *)
Lemma isPing_test (st : Instance) (address : string) :
  (String.eqb address "/ping"
   || match oscPath st "/ping" with
      | Some pp => negb (isEmpty pp) && String.eqb address pp
      | None => false
      end) = true <-> isPingAddress st address.
Proof.
  unfold isPingAddress. rewrite oscPath_ping.
  destruct (String.eqb_spec address "/ping") as [->|Hne]; cbn [orb].
  - split; auto.
  - destruct (isEmpty (deviceName st)) eqn:Hn.
    + split; [discriminate|]. intros [?|[? _]]; congruence.
    + change (isEmpty ("/ping/" +:+ deviceName st)) with false. cbn [negb andb].
      destruct (String.eqb_spec address ("/ping/" +:+ deviceName st)) as [->|Hne2].
      * split; [intros _; right; split; reflexivity|reflexivity].
      * split; [discriminate|]. intros [?|[_ ?]]; congruence.
Qed.

Lemma handleOscMessage_skip (st : Instance) (address : string) (args : list Arg) :
  isPingAddress st address ->
  handleOscMessage address args st
  = (false, checkFeedbacks [] (updateStatusOk "Connected" st)).
Proof.
  intros Hp. apply isPing_test in Hp. unfold handleOscMessage.
  change (oscPath (updateStatusOk "Connected" st) "/ping") with (oscPath st "/ping").
  rewrite Hp. cbn [negb andb]. 
  destruct (pathToVariableId _ _); rewrite ?andb_false_r; reflexivity.
Qed.

Lemma handleOscMessage_store (st : Instance) (address id : string) (args : list Arg) :
  ~ isPingAddress st address ->
  pathToVariableId st (VString address) = Some id ->
  isEmpty id = false ->
  handleOscMessage address args st
  = (true, checkFeedbacks []
             (storeSyncValue id (messageValue args) (updateStatusOk "Connected" st))).
Proof.
  intros Hp Hid Hne. unfold handleOscMessage.
  change (oscPath (updateStatusOk "Connected" st) "/ping") with (oscPath st "/ping").
  change (pathToVariableId (updateStatusOk "Connected" st) (VString address))
    with (pathToVariableId st (VString address)).
  rewrite Hid.
  destruct (_ || _) eqn:E; [apply isPing_test in E; contradiction|].
  rewrite Hne. reflexivity.
Qed.

(** ** Address mapping *)

(** C5.  With a non-empty trimmed device name, the outbound path that
    [oscPath] builds from a logical path [p] ([p], prefixed with a slash
    when it has none, followed by a slash and the device name) is mapped
    by [pathToVariableId] to [p] without its leading slash and with every
    remaining slash replaced by an underscore. *)
Theorem oscPath_pathToVariableId (st : Instance) (p : string) :
  isEmpty (deviceName st) = false ->
  exists out,
    oscPath st p = Some out /\
    out = (if startsWith p "/" then p else "/" +:+ p) +:+ "/" +:+ deviceName st /\
    pathToVariableId st (VString out)
    = Some (slashesToUnderscores (stripLeadingSlash p)).
Proof.
  intros Hname. eexists. split; [|split; [reflexivity|]].
  - unfold oscPath. rewrite Hname. reflexivity.
  - unfold pathToVariableId.
    set (base := if startsWith p "/" then p else "/" +:+ p).
    set (suffix := "/" +:+ deviceName st).
    change (base +:+ "/" +:+ deviceName st) with (base +:+ suffix).
    rewrite isEmpty_false_append by reflexivity.
    rewrite Hname, endsWith_append. cbn [negb andb].
    replace (Z.of_nat (String.length (base +:+ suffix))
             - Z.of_nat (String.length (deviceName st)) - 1)
      with (Z.of_nat (String.length (base +:+ suffix)) - Z.of_nat (String.length suffix))
      by (subst suffix; rewrite (length_append "/" (deviceName st));
          cbn [String.length]; lia).
    rewrite sliceTo_append. subst base. rewrite stripLeadingSlash_base. reflexivity.
Qed.

(** The path [/gain/input/2/5/unit1] of the unit [unit1] is the variable
    [gain_input_2_5]. *)
Lemma pathToVariableId_example :
  isEmpty (deviceName (exampleInstance [])) = false /\
  oscPath (exampleInstance []) "/gain/input/2/5" = Some "/gain/input/2/5/unit1" /\
  pathToVariableId (exampleInstance []) (VString "/gain/input/2/5/unit1")
  = Some "gain_input_2_5".
Proof.
  destruct (oscPath_pathToVariableId (exampleInstance []) "/gain/input/2/5" eq_refl)
    as (out & H1 & H2 & H3).
  subst out. split; [reflexivity|]. split; [exact H1|exact H3].
Defined.

(** ** Value formatting *)

(** The branches of [formatSyncValue]: [true] gives ["1"] and [false]
    ["0"]; a value whose number is a finite 0 or 1 gives ["0"] or ["1"];
    any other value with a finite number goes through [toFixed], which
    writes a numeral with exactly one digit after the point whenever the
    rounded number is finite and below [1e21] in magnitude; and a value
    whose number is not finite gives its string. *)
Lemma formatSyncValue_cases (v : Value) :
  (v = VBool true -> formatSyncValue v = "1") /\
  (v = VBool false -> formatSyncValue v = "0") /\
  ((forall b, v <> VBool b) ->
   let num := ToNumber v in
   let rounded := (Math_round (num * 10) / 10)%float in
   (isFinite num = true -> numEq num 0 = true -> formatSyncValue v = "0") /\
   (isFinite num = true -> numEq num 1 = true -> formatSyncValue v = "1") /\
   (isFinite num = true -> numEq num 0 = false -> numEq num 1 = false ->
    formatSyncValue v = toFixed rounded 1 /\
    (isFinite rounded = true -> (abs rounded <? 1e21)%float = true ->
     oneDecimal (formatSyncValue v))) /\
   (isFinite num = false -> formatSyncValue v = ToString v)).
Proof.
  split; [intros ->; reflexivity|]. split; [intros ->; reflexivity|].
  intros Hnb num rounded.
  assert (Hfmt : formatSyncValue v =
                 if isFinite num then
                   if numEq num 0 || numEq num 1 then toString num
                   else toFixed rounded 1
                 else ToString v).
  { unfold formatSyncValue. destruct v as [| |b|x|s]; try reflexivity.
    destruct (Hnb b eq_refl). }
  rewrite Hfmt. split; [|split; [|split]].
  - intros -> H0. rewrite H0. cbn [orb].
    destruct (numEq_zero _ H0) as [s Hs]. unfold toString. rewrite Hs. reflexivity.
  - intros -> H1. rewrite H1, orb_true_r.
    rewrite (numEq_finite num 1 false 4503599627370496 (-52));
      [vm_compute; reflexivity|vm_compute; reflexivity|assumption].
  - intros -> -> ->. cbn [orb]. split; [reflexivity|].
    intros Hfin Hsmall. now apply toFixed_one_decimal.
  - intros ->. reflexivity.
Qed.

(** The formats of [true], [0.0], [1.0] and [-3.456]. *)
Lemma formatSyncValue_examples :
  formatSyncValue (VBool true) = "1" /\
  formatSyncValue (VNumber 0) = "0" /\
  formatSyncValue (VNumber 1) = "1" /\
  formatSyncValue (VNumber (-3.456)) = "-3.5" /\
  oneDecimal (formatSyncValue (VNumber (-3.456))).
Proof.
  pose proof (formatSyncValue_cases (VBool true)) as (Ht & _).
  pose proof (formatSyncValue_cases (VNumber 0)) as (_ & _ & H0).
  pose proof (formatSyncValue_cases (VNumber 1)) as (_ & _ & H1).
  pose proof (formatSyncValue_cases (VNumber (-3.456))) as (_ & _ & H3).
  destruct H0 as (H0 & _); [discriminate|].
  destruct H1 as (_ & H1 & _); [discriminate|].
  destruct H3 as (_ & _ & H3 & _); [discriminate|].
  destruct H3 as (Heq & Hdec); [reflexivity|reflexivity|reflexivity|].
  split; [exact (Ht eq_refl)|].
  split; [exact (H0 eq_refl eq_refl)|].
  split; [exact (H1 eq_refl eq_refl)|].
  split; [rewrite Heq; vm_compute; reflexivity|].
  apply Hdec; reflexivity.
Defined.

(** A numeral with one digit after the point has no exponent. *)
Lemma oneDecimal_no_exponent (s : string) : oneDecimal s -> lacks "e" s = true.
Proof.
  intros (sign & whole & d & -> & Hs & _ & Hw & Hd).
  assert (Hdig : forall c, isDigit c = true -> ascii_eqb c "e" = false).
  { intros c Hc. destruct (ascii_eqb c "e") eqn:E; [|reflexivity].
    apply Ascii.eqb_eq in E. subst c. vm_compute in Hc. discriminate. }
  assert (Hwhole : lacks "e" whole = true).
  { clear -Hw Hdig. induction whole as [|c w IH]; [reflexivity|].
    cbn [allDigits] in Hw. apply andb_prop in Hw as [Hc Hw].
    cbn [lacks]. rewrite (Hdig c Hc), IH by assumption. reflexivity. }
  rewrite !lacks_append, Hwhole. cbn [lacks]. rewrite (Hdig d Hd).
  destruct Hs as [-> | ->]; reflexivity.
Qed.

(** C4.  From [1e21] on the code leaves the format that the claim and
    the words of the function itself (other numbers with one decimal)
    describe: there [toFixed] writes the exponent notation of
    [Number::toString], so a finite number other than 0 and 1 is stored
    without a digit after a point.  The inputs are the number [1e21], the
    string ["1e21"], which an argument of type [s] carries, and the
    binary32 number nearest to [1e21], which an argument of type [f]
    carries.  Below [1e21] the same branch writes one digit after the
    point: ["-3.5"] for [-3.456], and ["0.4"] for [0.35], where
    [Math.round] decides ([toFixed] alone writes ["0.3"]). *)
Theorem formatSyncValue_exponent_notation :
  (isFinite (ToNumber (VString "1e21")) = true /\
   numEq (ToNumber (VString "1e21")) 0 = false /\
   numEq (ToNumber (VString "1e21")) 1 = false) /\
  (formatSyncValue (VNumber 1e21) = "1e+21" /\
   formatSyncValue (VString "1e21") = "1e+21" /\
   formatSyncValue (VNumber 1000000020040877342720) = "1.0000000200408773e+21") /\
  (~ oneDecimal "1e+21" /\ ~ oneDecimal "1.0000000200408773e+21") /\
  syncState (snd (handleOscMessage "/gain/input/2/5/unit1" [mkArg "s" (VString "1e21")]
                    (exampleInstance [])))
    !! "gain_input_2_5" = Some (VString "1e+21") /\
  (formatSyncValue (VNumber (-3.456)) = "-3.5" /\
   formatSyncValue (VNumber 0.35) = "0.4" /\
   formatSyncValue (VNumber 12345.678) = "12345.7" /\
   oneDecimal "-3.5" /\ oneDecimal "0.4").
Proof.
  split; [repeat split|].
  split; [repeat split; vm_compute; reflexivity|].
  split.
  - split; intros H; apply oneDecimal_no_exponent in H; vm_compute in H; discriminate H.
  - split; [vm_compute; reflexivity|].
    split; [vm_compute; reflexivity|]. split; [vm_compute; reflexivity|].
    split; [vm_compute; reflexivity|]. split.
    + exists "-", "3", "5"%char. repeat split; auto; discriminate.
    + exists "", "0", "4"%char. repeat split; auto; discriminate.
Qed.

(** ** Inbound messages *)

(** C9.  A message whose address is exactly [/ping] or
    [/ping/<device name>] makes [handleOscMessage] return [false] and leaves
    the state store and the variable definitions as they were, while the
    status is refreshed (and the feedbacks re-evaluated).  For any other
    message whose address gives a non-empty variable identifier the
    handler returns [true] and the identifier is among the definitions;
    the value is stored under it, formatted, unless the identifier is
    [__proto__]: then the store is left as it was, against the words of
    the handler (returns true if this was a message we stored). *)
Theorem handleOscMessage_ping_frame (st : Instance) (address : string) (args : list Arg) :
  (isPingAddress st address ->
   fst (handleOscMessage address args st) = false /\
   syncState (snd (handleOscMessage address args st)) = syncState st /\
   syncVariableDefs (snd (handleOscMessage address args st)) = syncVariableDefs st /\
   calls (snd (handleOscMessage address args st))
   = (calls st ++ [UpdateStatus "ok" (statusLabel "Connected" st); CheckFeedbacks []])%list)
  /\
  (~ isPingAddress st address ->
   forall id, pathToVariableId st (VString address) = Some id ->
   isEmpty id = false ->
   fst (handleOscMessage address args st) = true /\
   In id (syncVariableDefs (snd (handleOscMessage address args st))) /\
   (id <> "__proto__" ->
    syncState (snd (handleOscMessage address args st))
    = <[id := VString (formatSyncValue (messageValue args))]> (syncState st)) /\
   (id = "__proto__" ->
    syncState (snd (handleOscMessage address args st)) = syncState st)).
Proof.
  split.
  - intros Hp. rewrite (handleOscMessage_skip _ _ _ Hp). cbn [fst snd].
    repeat split. cbn. rewrite <- app_assoc. reflexivity.
  - intros Hp id Hid Hne. rewrite (handleOscMessage_store _ _ _ _ Hp Hid Hne).
    cbn [fst snd]. split; [reflexivity|].
    change (syncState (checkFeedbacks [] ?s)) with (syncState s).
    change (syncVariableDefs (checkFeedbacks [] ?s)) with (syncVariableDefs s).
    split; [apply storeSyncValue_defs; assumption|]. split.
    + intros Hproto. rewrite storeSyncValue_syncState by assumption. reflexivity.
    + intros ->. rewrite storeSyncValue_proto. reflexivity.
Qed.

(** A ping echo of [unit1] stores nothing; a gain report is stored,
    formatted, under its identifier; a message on [/__proto__] is
    answered with [true] and defined as a variable, and nothing is
    stored. *)
Lemma handleOscMessage_examples :
  (fst (handleOscMessage "/ping/unit1" [] (exampleInstance [])) = false /\
   syncState (snd (handleOscMessage "/ping/unit1" [] (exampleInstance []))) = ∅ /\
   syncVariableDefs (snd (handleOscMessage "/ping/unit1" [] (exampleInstance []))) = [] /\
   calls (snd (handleOscMessage "/ping/unit1" [] (exampleInstance [])))
   = [UpdateStatus "ok" "unit1"; CheckFeedbacks []]) /\
  (fst (handleOscMessage "/gain/input/2/5/unit1" [mkArg "f" (VNumber (-3.456))]
          (exampleInstance []))
   = true /\
   syncState (snd (handleOscMessage "/gain/input/2/5/unit1" [mkArg "f" (VNumber (-3.456))]
                     (exampleInstance [])))
   = <["gain_input_2_5" := VString "-3.5"]> ∅) /\
  (fst (handleOscMessage "/__proto__/unit1" [mkArg "f" (VNumber 1.5)] (exampleInstance []))
   = true /\
   In "__proto__"
      (syncVariableDefs (snd (handleOscMessage "/__proto__/unit1" [mkArg "f" (VNumber 1.5)]
                                (exampleInstance [])))) /\
   syncState (snd (handleOscMessage "/__proto__/unit1" [mkArg "f" (VNumber 1.5)]
                     (exampleInstance [])))
   = ∅).
Proof.
  destruct (handleOscMessage_ping_frame (exampleInstance []) "/ping/unit1" [])
    as (Hping & _).
  destruct (handleOscMessage_ping_frame (exampleInstance [])
              "/gain/input/2/5/unit1" [mkArg "f" (VNumber (-3.456))]) as (_ & Hstore).
  destruct (handleOscMessage_ping_frame (exampleInstance [])
              "/__proto__/unit1" [mkArg "f" (VNumber 1.5)]) as (_ & Hproto).
  split; [|split].
  - apply Hping. right. split; reflexivity.
  - destruct (Hstore ltac:(intros [H|[_ H]]; discriminate H) "gain_input_2_5"
                eq_refl eq_refl) as (H1 & _ & H2 & _).
    split; [exact H1|]. exact (H2 ltac:(discriminate)).
  - destruct (Hproto ltac:(intros [H|[_ H]]; discriminate H) "__proto__"
                eq_refl eq_refl) as (H1 & H2 & _ & H3).
    split; [exact H1|]. split; [exact H2|]. exact (H3 eq_refl).
Defined.

(** C10.  [formatSyncValue] of the empty string is ["0"], so a message
    without arguments (other than a ping) stores ["0"] under its variable
    identifier, unless the identifier is [__proto__]: there nothing is
    stored, as for every message on that address. *)
Theorem formatSyncValue_empty_string :
  formatSyncValue (VString "") = "0" /\
  forall (st : Instance) (address id : string),
    ~ isPingAddress st address ->
    pathToVariableId st (VString address) = Some id ->
    isEmpty id = false ->
    (id <> "__proto__" ->
     syncState (snd (handleOscMessage address [] st)) !! id = Some (VString "0")) /\
    (id = "__proto__" ->
     syncState (snd (handleOscMessage address [] st)) = syncState st).
Proof.
  split; [vm_compute; reflexivity|].
  intros st address id Hp Hid Hne.
  rewrite (handleOscMessage_store _ _ _ _ Hp Hid Hne). cbn [snd].
  change (syncState (checkFeedbacks [] ?s)) with (syncState s).
  split.
  - intros Hproto. rewrite storeSyncValue_syncState by assumption.
    rewrite lookup_insert_eq.
    replace (formatSyncValue (messageValue [])) with "0" by (vm_compute; reflexivity).
    reflexivity.
  - intros ->. rewrite storeSyncValue_proto. reflexivity.
Qed.

(** A mute report without arguments stores ["0"]; a message without
    arguments on [/__proto__] stores nothing. *)
Lemma no_arguments_example :
  syncState (snd (handleOscMessage "/mute/input/3/unit1" [] (exampleInstance [])))
    !! "mute_input_3" = Some (VString "0") /\
  syncState (snd (handleOscMessage "/__proto__/unit1" [] (exampleInstance [])))
    !! "__proto__" = None.
Proof.
  destruct formatSyncValue_empty_string as (_ & H).
  destruct (H (exampleInstance []) "/mute/input/3/unit1" "mute_input_3"
              ltac:(intros [H0|[_ H0]]; discriminate H0) eq_refl eq_refl) as (H1 & _).
  destruct (H (exampleInstance []) "/__proto__/unit1" "__proto__"
              ltac:(intros [H0|[_ H0]]; discriminate H0) eq_refl eq_refl) as (_ & H2).
  split; [exact (H1 ltac:(discriminate))|].
  rewrite (H2 eq_refl). reflexivity.
Defined.

(** ** Channel mute *)



(** ** Stepped gain *)

Lemma steppedGain_clamp (c s : float) :
  steppedGain c s = clamp (c + s) (-120) 10.
Proof.
  unfold steppedGain, clamp. generalize (c + s)%float as x. intros x.
  unfold Math_max, Math_min.
  replace (is_nan 10) with false by (vm_compute; reflexivity).
  replace (is_nan (-120)) with false by (vm_compute; reflexivity).
  replace (isNegZero 10) with false by (vm_compute; reflexivity).
  replace (isNegZero (-120)) with false by (vm_compute; reflexivity).
  cbn [orb].
  destruct (is_nan x) eqn:Hn.
  { apply is_nan_true in Hn. subst x. vm_compute. reflexivity. }
  destruct (10 <? x)%float eqn:H1.
  - replace (is_nan 10) with false by (vm_compute; reflexivity). cbn [orb].
    replace (-120 <? 10)%float with true by (vm_compute; reflexivity).
    assert ((x <? -120)%float = false) as ->; [|reflexivity].
    rewrite FloatAxioms.ltb_spec in *.
    replace (Prim2SF 10) with (S754_finite false 5629499534213120 (-49)) in H1
      by (vm_compute; reflexivity).
    replace (Prim2SF (-120)) with (S754_finite true 8444249301319680 (-46))
      by (vm_compute; reflexivity).
    unfold SFltb in *.
    destruct (Prim2SF x) as [sg|sg| |sg m e]; try destruct sg;
      cbn [SFcompare] in *; try discriminate; reflexivity.
  - assert ((if (x <? 10)%float then x else x) = x) as ->
      by (destruct (x <? 10)%float; reflexivity).
    rewrite Hn.
    destruct (-120 <? x)%float eqn:H2.
    + rewrite (ltb_antisym _ _ H2). reflexivity.
    + destruct (x <? -120)%float eqn:H3; [reflexivity|].
      symmetry. eapply not_ltb_eq; eauto.
Qed.




(** ** Crosspoint mute with restore *)

Lemma canSend_preserved (st st' : Instance) (h : string) :
  config st' = config st -> targetHost st' = targetHost st ->
  canSend st h -> canSend st' h.
Proof.
  unfold canSend, deviceName. intros -> ->. auto.
Qed.

Lemma toggle_frame (o : Options) (st : Instance) :
  config (matrix_point_mute_toggle o st) = config st /\
  targetHost (matrix_point_mute_toggle o st) = targetHost st.
Proof.
  unfold matrix_point_mute_toggle.
  destruct (negb _ && _);
    match goal with
    | |- context [storeAndPublish ?k ?v ?i (sendOsc ?p ?a ?s)] =>
        destruct (storeAndPublish_frame k v i (sendOsc p a s)) as (_ & -> & ->);
        destruct (sendOsc_frame p a s) as (_ & _ & -> & ->)
    end; split; reflexivity.
Qed.

(** The toggle on a muted point: the saved gain, or 0, is restored and
    the saved entry deleted. *)
Lemma toggle_muted (o : Options) (st : Instance) :
  let inIdx := channelIndex (input o) in
  let outIdx := channelIndex (output o) in
  let key := gainInputKey inIdx outIdx in
  let savedKey := savedGainKey inIdx outIdx in
  let current := parseFloat (stored st key) in
  let restore := default 0%float (savedMatrixGain st !! savedKey) in
  let st1 := matrix_point_mute_toggle o st in
  isNaN current = false -> (current <=? -120)%float = true ->
  syncState st1 !! key = Some (VString (formatSyncValue (VNumber restore))) /\
  savedMatrixGain st1 = delete savedKey (savedMatrixGain st) /\
  forall h, canSend st h ->
    In (OscSend h (targetPort (config st))
          (gainInputPath inIdx outIdx +:+ "/" +:+ deviceName st) [floatArg restore])
       (calls st1).
Proof.
  intros inIdx outIdx key savedKey current restore st1 Hn Hle.
  assert (Heq : st1 = storeAndPublish key (VNumber restore) []
            (sendOsc (gainInputPath inIdx outIdx) [floatArg restore]
               (set_savedMatrixGain (delete savedKey (savedMatrixGain st)) st))).
  { subst st1. unfold matrix_point_mute_toggle.
    fold inIdx outIdx. fold key. fold savedKey. fold current. rewrite Hn, Hle.
    cbn [negb andb]. subst restore.
    destruct (savedMatrixGain st !! savedKey); reflexivity. }
  rewrite Heq.
  set (st0 := set_savedMatrixGain (delete savedKey (savedMatrixGain st)) st).
  assert (Hproto : key <> "__proto__") by discriminate.
  pose proof (store_after_send key (VNumber restore) [] (gainInputPath inIdx outIdx)
                [floatArg restore] st0 eq_refl Hproto eq_refl) as (Hs & Hc).
  split; [exact Hs|]. split.
  - destruct (storeAndPublish_frame key (VNumber restore) []
               (sendOsc (gainInputPath inIdx outIdx) [floatArg restore] st0))
      as (-> & _).
    destruct (sendOsc_frame (gainInputPath inIdx outIdx) [floatArg restore] st0)
      as (_ & -> & _). reflexivity.
  - intros h Hh. apply (Hc h). exact Hh.
Qed.

(** The toggle on a point that is not muted: the current gain (0 when it
    does not parse) is saved and -120 written. *)
Lemma toggle_open (o : Options) (st : Instance) :
  let inIdx := channelIndex (input o) in
  let outIdx := channelIndex (output o) in
  let key := gainInputKey inIdx outIdx in
  let savedKey := savedGainKey inIdx outIdx in
  let current := parseFloat (stored st key) in
  let st1 := matrix_point_mute_toggle o st in
  isNaN current = true \/ (current <=? -120)%float = false ->
  syncState st1 !! key = Some (VString (formatSyncValue (VNumber (-120)))) /\
  savedMatrixGain st1
  = <[savedKey := if isNaN current then 0%float else current]> (savedMatrixGain st) /\
  forall h, canSend st h ->
    In (OscSend h (targetPort (config st))
          (gainInputPath inIdx outIdx +:+ "/" +:+ deviceName st) [floatArg (-120)])
       (calls st1).
Proof.
  intros inIdx outIdx key savedKey current st1 Hc.
  set (sv := <[savedKey := if isNaN current then 0%float else current]>
               (savedMatrixGain st)).
  assert (Heq : st1 = storeAndPublish key (VNumber (-120)) []
            (sendOsc (gainInputPath inIdx outIdx) [floatArg (-120)]
               (set_savedMatrixGain sv st))).
  { subst st1 sv. unfold matrix_point_mute_toggle.
    fold inIdx outIdx. fold key. fold savedKey. fold current.
    destruct Hc as [-> | ->]; [reflexivity|]. rewrite andb_false_r. reflexivity. }
  rewrite Heq.
  assert (Hproto : key <> "__proto__") by discriminate.
  pose proof (store_after_send key (VNumber (-120)) [] (gainInputPath inIdx outIdx)
                [floatArg (-120)] (set_savedMatrixGain sv st)
                eq_refl Hproto eq_refl) as (Hs & Hcalls).
  split; [exact Hs|]. split.
  - destruct (storeAndPublish_frame key (VNumber (-120)) []
               (sendOsc (gainInputPath inIdx outIdx) [floatArg (-120)]
                  (set_savedMatrixGain sv st))) as (-> & _).
    destruct (sendOsc_frame (gainInputPath inIdx outIdx) [floatArg (-120)]
                (set_savedMatrixGain sv st)) as (_ & -> & _). reflexivity.
  - intros h Hh. apply (Hcalls h). exact Hh.
Qed.

(** The toggle in the names of the callback: both branches, and what
    two toggles and a toggle without a saved gain leave. *)
Lemma matrix_toggle_branches (o : Options) (st : Instance) :
  let inIdx := channelIndex (input o) in
  let outIdx := channelIndex (output o) in
  let key := gainInputKey inIdx outIdx in
  let savedKey := savedGainKey inIdx outIdx in
  let path := gainInputPath inIdx outIdx +:+ "/" +:+ deviceName st in
  let current := parseFloat (stored st key) in
  let st1 := matrix_point_mute_toggle o st in
  let st2 := matrix_point_mute_toggle o st1 in
  (isNaN current = false -> (current <=? -120)%float = true ->
   let restore := default 0%float (savedMatrixGain st !! savedKey) in
   syncState st1 !! key = Some (VString (formatSyncValue (VNumber restore))) /\
   savedMatrixGain st1 = delete savedKey (savedMatrixGain st) /\
   forall h, canSend st h ->
     In (OscSend h (targetPort (config st)) path [floatArg restore]) (calls st1)) /\
  (isNaN current = true \/ (current <=? -120)%float = false ->
   syncState st1 !! key = Some (VString (formatSyncValue (VNumber (-120)))) /\
   savedMatrixGain st1
   = <[savedKey := if isNaN current then 0%float else current]> (savedMatrixGain st) /\
   forall h, canSend st h ->
     In (OscSend h (targetPort (config st)) path [floatArg (-120)]) (calls st1)) /\
  (syncState st !! key = None -> isNaN current = true) /\
  ((-120 <? current)%float = true ->
   syncState st2 !! key = Some (VString (formatSyncValue (VNumber current))) /\
   savedMatrixGain st2 !! savedKey = None /\
   forall h, canSend st h ->
     In (OscSend h (targetPort (config st)) path [floatArg current]) (calls st2)) /\
  (isNaN current = false -> (current <=? -120)%float = true ->
   savedMatrixGain st !! savedKey = None ->
   syncState st1 !! key = Some (VString "0") /\
   forall h, canSend st h ->
     In (OscSend h (targetPort (config st)) path [floatArg 0]) (calls st1)).
Proof.
  intros inIdx outIdx key savedKey path current st1 st2.
  split; [exact (toggle_muted o st)|]. split; [exact (toggle_open o st)|].
  split; [|split].
  - intros Hnone. subst current. unfold stored. rewrite Hnone. reflexivity.
  - intros Hgt.
    destruct (ltb_not_nan _ _ Hgt) as (_ & Hn).
    change (is_nan current) with (isNaN current) in Hn.
    pose proof (ltb_leb_false _ _ Hgt) as Hle.
    destruct (toggle_open o st (or_intror Hle)) as (Hs1 & Hsv1 & _).
    fold inIdx outIdx in Hs1, Hsv1. fold key in Hs1. fold savedKey in Hsv1.
    fold key current in Hsv1. fold st1 in Hs1, Hsv1. rewrite Hn in Hsv1.
    destruct (toggle_frame o st) as (Hcfg & Hhost). fold st1 in Hcfg, Hhost.
    assert (Hcur1 : parseFloat (stored st1 key) = (-120)%float).
    { unfold stored. rewrite Hs1. vm_compute. reflexivity. }
    destruct (toggle_muted o st1) as (Hs2 & Hsv2 & Hc2);
      fold inIdx outIdx; fold key; rewrite ?Hcur1; try reflexivity.
    fold inIdx outIdx in Hs2, Hsv2, Hc2. fold key in Hs2. fold savedKey in Hs2, Hsv2, Hc2.
    fold st2 in Hs2, Hsv2, Hc2.
    rewrite Hsv1, lookup_insert_eq in Hs2, Hc2. cbn [default] in Hs2, Hc2.
    split; [exact Hs2|]. split.
    + rewrite Hsv2. apply lookup_delete_eq.
    + intros h Hh. subst path. unfold deviceName.
      rewrite <- Hcfg. apply Hc2. eapply canSend_preserved; eauto.
  - intros Hn Hle Hnone.
    destruct (toggle_muted o st Hn Hle) as (Hs & _ & Hc).
    fold inIdx outIdx in Hs, Hc. fold key in Hs. fold savedKey in Hs, Hc.
    rewrite Hnone in Hs, Hc. cbn [default] in Hs, Hc. split; [exact Hs|exact Hc].
Qed.

(** C2.  The crosspoint mute toggle on input [i], output [o] (each
    [parseInt(option, 10) || 1]) reads the value stored under
    [gain_input_<i>_<o>] with [parseFloat].  When that is a number at or
    below -120, it writes the gain saved under [<i>_<o>] (0 when there is
    none) and deletes the saved entry; otherwise it saves the current
    gain (0 when the stored value is absent or does not parse) under
    [<i>_<o>] and writes -120.  What it writes is stored, formatted,
    under [gain_input_<i>_<o>] and sent as the one argument of type [f]
    to [/gain/input/<i>/<o>/<device name>].  Hence from a stored gain
    [g > -120] two toggles write [g] again and leave no saved entry, and
    a toggle on a muted point without a saved entry writes 0. *)
Theorem matrix_point_mute_toggle_cases (o : Options) (st : Instance) :
  let inIdx := toString (orElse (parseInt (input o)) 1) in
  let outIdx := toString (orElse (parseInt (output o)) 1) in
  let key := "gain_input_" +:+ inIdx +:+ "_" +:+ outIdx in
  let savedKey := inIdx +:+ "_" +:+ outIdx in
  let path := ("/gain/input/" +:+ inIdx +:+ "/" +:+ outIdx) +:+ "/" +:+ deviceName st in
  let current := parseFloat (default VUndefined (syncState st !! key)) in
  let st1 := matrix_point_mute_toggle o st in
  let st2 := matrix_point_mute_toggle o st1 in
  (isNaN current = false -> (current <=? -120)%float = true ->
   let restore := default 0%float (savedMatrixGain st !! savedKey) in
   syncState st1 !! key = Some (VString (formatSyncValue (VNumber restore))) /\
   savedMatrixGain st1 = delete savedKey (savedMatrixGain st) /\
   forall h, canSend st h ->
     In (OscSend h (targetPort (config st)) path [mkArg "f" (VNumber restore)])
        (calls st1)) /\
  (isNaN current = true \/ (current <=? -120)%float = false ->
   syncState st1 !! key = Some (VString (formatSyncValue (VNumber (-120)))) /\
   savedMatrixGain st1
   = <[savedKey := if isNaN current then 0%float else current]> (savedMatrixGain st) /\
   forall h, canSend st h ->
     In (OscSend h (targetPort (config st)) path [mkArg "f" (VNumber (-120))])
        (calls st1)) /\
  (syncState st !! key = None -> isNaN current = true) /\
  ((-120 <? current)%float = true ->
   syncState st2 !! key = Some (VString (formatSyncValue (VNumber current))) /\
   savedMatrixGain st2 !! savedKey = None /\
   forall h, canSend st h ->
     In (OscSend h (targetPort (config st)) path [mkArg "f" (VNumber current)])
        (calls st2)) /\
  (isNaN current = false -> (current <=? -120)%float = true ->
   savedMatrixGain st !! savedKey = None ->
   syncState st1 !! key = Some (VString "0") /\
   forall h, canSend st h ->
     In (OscSend h (targetPort (config st)) path [mkArg "f" (VNumber 0)]) (calls st1)).
Proof.
  pose proof (matrix_toggle_branches o st) as H.
  unfold channelIndex, gainInputKey, savedGainKey, gainInputPath, stored, floatArg in H.
  exact H.
Qed.

(** On input 2, output 5, from ["-2.0"]: the first toggle stores
    ["-120.0"], sends -120 and saves -2 under [2_5]; the second stores
    ["-2.0"] again, sends -2 and clears the saved entry; a toggle on the
    muted point after the saved gains were cleared stores ["0"] and
    sends 0.  The gain saved for another point is not touched. *)
Lemma matrix_point_mute_toggle_example :
  let o := mkOptions (VNumber 2) (VNumber 5) VUndefined VUndefined VUndefined
                     VUndefined in
  let st := set_savedMatrixGain (<["1_1" := (-7)%float]> ∅)
              (exampleWith "gain_input_2_5" (VString "-2.0")) in
  let st1 := matrix_point_mute_toggle o st in
  let st2 := matrix_point_mute_toggle o st1 in
  let st3 := matrix_point_mute_toggle o (set_savedMatrixGain ∅ st1) in
  let sent (x : float) := OscSend "192.168.1.100" (VString "9000")
                                  "/gain/input/2/5/unit1" [mkArg "f" (VNumber x)] in
  (syncState st1 !! "gain_input_2_5" = Some (VString "-120.0") /\
   savedMatrixGain st1 !! "2_5" = Some (-2)%float /\
   savedMatrixGain st1 !! "1_1" = Some (-7)%float /\
   In (sent (-120)%float) (calls st1)) /\
  (syncState st2 !! "gain_input_2_5" = Some (VString "-2.0") /\
   savedMatrixGain st2 !! "2_5" = None /\
   In (sent (-2)%float) (calls st2)) /\
  (syncState st3 !! "gain_input_2_5" = Some (VString "0") /\
   In (sent 0%float) (calls st3)).
Proof.
  intros o st st1 st2 st3 sent.
  pose proof (matrix_point_mute_toggle_cases o st) as (_ & Hopen & _ & Htwice & _).
  pose proof (matrix_point_mute_toggle_cases o (set_savedMatrixGain ∅ st1))
    as (_ & _ & _ & _ & Hzero).
  destruct Hopen as (H1 & H1s & H1c); [right; reflexivity|].
  destruct Htwice as (H2 & H2s & H2c); [reflexivity|].
  destruct Hzero as (H3 & H3c); [reflexivity|reflexivity|reflexivity|].
  assert (Hs : canSend st "192.168.1.100") by (repeat split).
  assert (Hs1 : canSend (set_savedMatrixGain ∅ st1) "192.168.1.100") by (repeat split).
  split; [|split].
  - split; [exact H1|]. split; [|split; [|exact (H1c _ Hs)]].
    + subst st1. rewrite H1s. vm_compute. reflexivity.
    + subst st1. rewrite H1s. vm_compute. reflexivity.
  - split; [exact H2|]. split; [exact H2s|exact (H2c _ Hs)].
  - split; [exact H3|exact (H3c _ Hs1)].
Defined.

(** ** The receive path *)

Lemma printable_not_nul (c : byte) : isPrintable c = true -> Byte.eqb c x00 = false.
Proof. destruct c; intros H; try reflexivity; vm_compute in H; discriminate. Qed.

Lemma indexOfNul_app (pre rest : list byte) (i : Z) :
  forallb isPrintable pre = true ->
  indexOfNul (pre ++ x00 :: rest)%list i = i + Z.of_nat (length pre).
Proof.
  revert i. induction pre as [|c pre IH]; intros i Hp.
  - cbn. lia.
  - cbn [forallb] in Hp. apply andb_prop in Hp as [Hc Hp].
    cbn [app indexOfNul length]. rewrite (printable_not_nul _ Hc), IH by assumption. lia.
Qed.

Lemma toInt32_small (n : Z) : - 2 ^ 31 <= n < 2 ^ 31 -> toInt32 n = n.
Proof.
  intros H. unfold toInt32. rewrite Z.mod_small by lia. lia.
Qed.

(** [(n + 3) & ~3] is [n] rounded up to a multiple of four. *)
Lemma and_not_3 (n : Z) :
  0 <= n -> n + 3 < 2 ^ 31 ->
  toInt32 (Z.land (toInt32 (n + 3)) (toInt32 (Z.lnot 3))) = ceil4 n.
Proof.
  intros H0 H1. unfold ceil4.
  rewrite (toInt32_small (n + 3)) by lia.
  replace (toInt32 (Z.lnot 3)) with (Z.lnot (Z.ones 2)) by (vm_compute; reflexivity).
  rewrite <- Z.ldiff_land, Z.ldiff_ones_r by lia.
  rewrite Z.shiftr_div_pow2, Z.shiftl_mul_pow2 by lia.
  change (2 ^ 2) with 4.
  assert (0 <= (n + 3) / 4) by (apply Z.div_pos; lia).
  assert (4 * ((n + 3) / 4) <= n + 3) by (apply Z.mul_div_le; lia).
  rewrite toInt32_small by lia. lia.
Qed.

Lemma ceil4_bounds (n : Z) : 0 <= n -> n <= ceil4 n < n + 4.
Proof.
  intros H. unfold ceil4.
  pose proof (Z.div_mod (n + 3) 4 ltac:(lia)).
  pose proof (Z.mod_pos_bound (n + 3) 4 ltac:(lia)). lia.
Qed.


Lemma sliceFrom_suffix (b : Buffer) (n : Z) :
  0 <= n <= blen b -> sliceFrom b n = skipn (Z.to_nat n) b.
Proof.
  intros H. unfold sliceFrom, slice, clampIndex.
  destruct (Z.ltb_spec n 0); [lia|].
  destruct (Z.ltb_spec (blen b) 0); [unfold blen in *; lia|].
  rewrite Z.min_l, Z.min_l by lia.
  apply firstn_all2. rewrite length_skipn. unfold blen in *. lia.
Qed.

Lemma parsePathOnlyOsc_printable (b0 : byte) (body' rest : list byte) :
  let body := b0 :: body' in
  let buffer := (x2f :: body ++ x00 :: rest)%list in
  let frameLength := ceil4 (Z.of_nat (length body) + 2) in
  forallb isPrintable body = true ->
  frameLength <= blen buffer -> blen buffer < 2 ^ 31 ->
  parsePathOnlyOsc buffer
  = Some (mkPathOnly (bytesToString (x2f :: body)) frameLength).
Proof.
  intros body buffer frameLength Hp Hlen Hsize.
  assert (Hblen : blen buffer
                  = Z.of_nat (length body) + 2 + Z.of_nat (length rest)).
  { unfold blen, buffer. cbn [length]. rewrite length_app. cbn [length]. lia. }
  assert (Hc := ceil4_bounds (Z.of_nat (length body) + 2) ltac:(lia)).
  assert (Hq : frameLength = 4 * ((Z.of_nat (length body) + 2 + 3) / 4)) by reflexivity.
  fold frameLength in Hc.
  assert (Hidx : indexOfNul buffer 0 = Z.of_nat (length body) + 1).
  { change buffer with ((x2f :: body) ++ x00 :: rest)%list.
    rewrite indexOfNul_app by (cbn [forallb]; exact Hp). cbn [length]. lia. }
  assert (Hfirst : firstn (Z.to_nat (Z.of_nat (length body) + 1)) buffer = x2f :: body).
  { change buffer with ((x2f :: body) ++ x00 :: rest)%list.
    replace (Z.to_nat (Z.of_nat (length body) + 1)) with (length (x2f :: body))
      by (cbn [length]; lia).
    rewrite firstn_app, Nat.sub_diag, firstn_all. cbn [firstn]. apply app_nil_r. }
  unfold parsePathOnlyOsc.
  change buffer with (x2f :: b0 :: (body' ++ x00 :: rest))%list at 1.
  cbv iota. change (Byte.eqb x2f x2f) with true. cbn [negb].
  fold buffer. rewrite Hidx, Hfirst.
  destruct (Z.ltb_spec (Z.of_nat (length body) + 1) 1); [lia|].
  unfold body at 1. cbv iota. fold body. rewrite Hp.
  replace (Z.of_nat (length body) + 1 + 1 + 3)
    with ((Z.of_nat (length body) + 2) + 3) by lia.
  rewrite and_not_3 by lia. fold frameLength.
  destruct (Z.ltb_spec (blen buffer) frameLength); [lia|].
  reflexivity.
Qed.

(** C6, as amended.  A buffer (below 2^31 bytes) that starts with a
    slash followed by at least one byte, all printable ASCII, up to its
    first zero byte, and that holds [ceil4] of the address length with
    its terminator, is a path-only frame for [parsePathOnlyOsc]: the path
    is the address and the byte length that [ceil4].  In the loop of
    [parseOscIncoming], when the standard decoding gave no packet, the
    frame is handled as [{address, args: []}] and exactly that many bytes
    are consumed. *)
Theorem parsePathOnlyOsc_frame (body rest : list byte) :
  let buffer := (x2f :: body ++ x00 :: rest)%list in
  let address := bytesToString (x2f :: body) in
  let frameLength := ceil4 (Z.of_nat (length body) + 2) in
  body <> [] -> forallb isPrintable body = true ->
  frameLength <= blen buffer -> blen buffer < 2 ^ 31 ->
  parsePathOnlyOsc buffer = Some (mkPathOnly address frameLength) /\
  forall (osc : OscLib) (hadSyncMessage : bool) (st : Instance) (messageLength : Z),
    receiveBuffer st = buffer ->
    standardDecode buffer = Normal (messageLength, None) ->
    parseOscIteration hadSyncMessage st
    = Normal
        (let r := handleOscMessage address []
                    (set_receiveBuffer (skipn (Z.to_nat frameLength) buffer) st) in
         Next (fst r || hadSyncMessage) (snd r)).
Proof.
  intros buffer address frameLength Hne Hp Hlen Hsize.
  assert (Hparse : parsePathOnlyOsc buffer = Some (mkPathOnly address frameLength)).
  { destruct body as [|b0 body']; [congruence|].
    apply parsePathOnlyOsc_printable; assumption. }
  assert (Hc := ceil4_bounds (Z.of_nat (length body) + 2) ltac:(lia)).
  assert (Hq : frameLength = 4 * ((Z.of_nat (length body) + 2 + 3) / 4)) by reflexivity.
  assert (Hb : 1 <= Z.of_nat (length body))
    by (destruct body; [congruence|cbn [length]; lia]).
  fold frameLength in Hc.
  split; [exact Hparse|].
  intros osc h st ml Hbuf Hstd.
  unfold parseOscIteration. rewrite Hbuf, Hstd. cbn [cbind].
  unfold withPathOnlyFallback. cbn [snd].
  destruct (Z.leb_spec 4 (blen buffer)); [|lia].
  rewrite Hparse. cbn [byteLength path].
  destruct (Z.ltb_spec (blen buffer) frameLength); [lia|].
  rewrite sliceFrom_suffix by lia.
  replace (isEmpty address) with false by reflexivity.
  destruct (handleOscMessage address [] _). reflexivity.
Qed.

(** The ping echo [/ping/unit1] and its zero byte, twelve bytes, is the
    path-only frame of address [/ping/unit1]. *)
Lemma parsePathOnlyOsc_ping :
  parsePathOnlyOsc pingEcho = Some (mkPathOnly "/ping/unit1" 12) /\
  @parseOscIteration OscWire.StdOsc false (exampleInstance pingEcho)
  = Normal (Next false
              (checkFeedbacks [] (updateStatusOk "Connected" (exampleInstance [])))).
Proof.
  destruct (parsePathOnlyOsc_frame (list_byte_of_string "ping/unit1") [])
    as (Hp & Hit); [discriminate|reflexivity|vm_compute; discriminate|reflexivity|].
  split; [exact Hp|].
  rewrite (Hit OscWire.StdOsc false (exampleInstance pingEcho) 13 eq_refl eq_refl).
  reflexivity.
Defined.

(** C6, the claim as stated fails on a lone slash: the bytes before
    its first zero byte are the printable string [/], the buffer holds
    [ceil4 2 = 4] bytes, and it is not a path-only frame.  It also fails
    on a standard frame with an argument: the bytes before its first zero
    byte are a printable address and it holds [ceil4 22 = 24] bytes, but
    the loop decodes it with its argument and consumes all 32 bytes. *)
Lemma parsePathOnlyOsc_lone_slash :
  (forallb isPrintable [x2f] = true /\
   ceil4 (blen [x2f] + 1) <= blen loneSlash /\
   parsePathOnlyOsc loneSlash = None) /\
  (parsePathOnlyOsc gainFrame = Some (mkPathOnly "/gain/input/2/5/unit1" 24) /\
   blen gainFrame = 32 /\
   @parseOscIteration OscWire.StdOsc false (exampleInstance gainFrame)
   = Normal (Next true
               (snd (handleOscMessage "/gain/input/2/5/unit1" [floatArg (-3.5)]
                       (exampleInstance []))))).
Proof.
  split.
  - split; [reflexivity|]. split; [vm_compute; discriminate|reflexivity].
  - split; [vm_compute; reflexivity|]. split; vm_compute; reflexivity.
Qed.

Section ReceivePath.
Context {osc : OscLib}.

Lemma getCompleteMessageLength_cases (buffer : Buffer) :
  (exists n, getCompleteMessageLength buffer = Normal n) /\
  (forall packet bytes,
     readPacket buffer = Normal packet -> writePacket packet = Normal bytes ->
     getCompleteMessageLength buffer = Normal (blen bytes)) /\
  (readPacket buffer = Throw \/
   (exists packet, readPacket buffer = Normal packet /\ writePacket packet = Throw) ->
   getCompleteMessageLength buffer = Normal (blen buffer + 1)).
Proof.
  unfold getCompleteMessageLength.
  split; [|split].
  - destruct (readPacket buffer) as [p|]; cbn; [|eauto].
    destruct (writePacket p); cbn; eauto.
  - intros p b -> . cbn. intros ->. reflexivity.
  - intros [-> | (p & -> & Hw)]; cbn; [reflexivity|]. rewrite Hw. reflexivity.
Qed.

Lemma standardDecode_total (buffer : Buffer) :
  exists d, standardDecode buffer = Normal d.
Proof.
  unfold standardDecode.
  destruct (getCompleteMessageLength_cases buffer) as ((n & ->) & _). cbn [cbind].
  destruct (n <=? blen buffer); [|eauto].
  destruct (readPacketMetadata _); cbn; eauto.
Qed.

Lemma standardDecode_sentinel (buffer : Buffer) :
  getCompleteMessageLength buffer = Normal (blen buffer + 1) ->
  standardDecode buffer = Normal (blen buffer + 1, None).
Proof.
  intros H. unfold standardDecode. rewrite H. cbn [cbind].
  destruct (Z.leb_spec (blen buffer + 1) (blen buffer)); [lia|reflexivity].
Qed.

(** C7, as amended.  [getCompleteMessageLength] never throws: it returns
    the length of the re-encoded first packet when the standard decoding
    and the encoding succeed, and [buffer.length + 1] when either throws,
    whether or not the buffer is a path-only frame.  The path-only length
    is taken by the loop of [parseOscIncoming], which never throws there
    either: without a packet and with four bytes or more, the length
    becomes that of the path-only frame, and stays what it was when the
    buffer is not one. *)
Theorem getCompleteMessageLength_total (buffer : Buffer) :
  (exists n, getCompleteMessageLength buffer = Normal n) /\
  (forall packet bytes,
     readPacket buffer = Normal packet -> writePacket packet = Normal bytes ->
     getCompleteMessageLength buffer = Normal (blen bytes)) /\
  (readPacket buffer = Throw \/
   (exists packet, readPacket buffer = Normal packet /\ writePacket packet = Throw) ->
   getCompleteMessageLength buffer = Normal (blen buffer + 1)) /\
  (exists d, standardDecode buffer = Normal d) /\
  (forall messageLength pathOnly,
     standardDecode buffer = Normal (messageLength, None) ->
     4 <= blen buffer -> parsePathOnlyOsc buffer = Some pathOnly ->
     fst (withPathOnlyFallback buffer (messageLength, None)) = byteLength pathOnly) /\
  (forall messageLength,
     standardDecode buffer = Normal (messageLength, None) ->
     parsePathOnlyOsc buffer = None ->
     fst (withPathOnlyFallback buffer (messageLength, None)) = messageLength).
Proof.
  destruct (getCompleteMessageLength_cases buffer) as (H1 & H2 & H3).
  split; [exact H1|]. split; [exact H2|]. split; [exact H3|].
  split; [apply standardDecode_total|]. split.
  - intros ml po _ H4 Hp. unfold withPathOnlyFallback. cbn [snd].
    destruct (Z.leb_spec 4 (blen buffer)); [|lia]. rewrite Hp. reflexivity.
  - intros ml _ Hp. unfold withPathOnlyFallback. cbn [snd].
    rewrite Hp. destruct (4 <=? blen buffer); reflexivity.
Qed.

(** C1, as amended.  On a non-empty buffer that is not a path-only frame
    and whose standard decoding throws, the first pass of the loop of
    [parseOscIncoming] breaks: the run returns with the buffer and the
    rest of the instance unchanged, and no byte is dropped.  Bytes are
    dropped only when a length was computed: if the frame of that length
    then fails to decode, exactly that many bytes are removed and nothing
    is handled. *)
Theorem parseOscIncoming_unparseable (st : Instance) (fuel : nat) :
  receiveBuffer st <> [] ->
  parsePathOnlyOsc (receiveBuffer st) = None ->
  (readPacket (receiveBuffer st) = Throw \/
   (exists packet, readPacket (receiveBuffer st) = Normal packet /\
                   writePacket packet = Throw) ->
   parseOscIteration false st = Normal Break /\
   parseOscIncoming (S fuel) st = Some (Normal st)) /\
  (forall messageLength,
     getCompleteMessageLength (receiveBuffer st) = Normal messageLength ->
     0 <= messageLength <= blen (receiveBuffer st) ->
     readPacketMetadata (slice (receiveBuffer st) 0 messageLength) = Throw ->
     forall hadSyncMessage,
       parseOscIteration hadSyncMessage st
       = Normal (Next hadSyncMessage
                   (set_receiveBuffer
                      (skipn (Z.to_nat messageLength) (receiveBuffer st)) st))).
Proof.
  intros Hne Hpo. split.
  - intros Hfail.
    destruct (getCompleteMessageLength_cases (receiveBuffer st)) as (_ & _ & H3).
    pose proof (standardDecode_sentinel _ (H3 Hfail)) as Hstd.
    assert (Hit : forall h, parseOscIteration h st = Normal Break).
    { intros h. unfold parseOscIteration. rewrite Hstd. cbn [cbind].
      unfold withPathOnlyFallback. cbn [snd]. rewrite Hpo.
      destruct (4 <=? blen (receiveBuffer st));
        destruct (Z.ltb_spec (blen (receiveBuffer st)) (blen (receiveBuffer st) + 1));
        try lia; reflexivity. }
    split; [apply Hit|].
    unfold parseOscIncoming. cbn [parseLoop].
    destruct (receiveBuffer st) eqn:E; [congruence|]. rewrite <- E in *.
    rewrite Hit. reflexivity.
  - intros ml Hml Hrange Hmeta h.
    unfold parseOscIteration, standardDecode. rewrite Hml. cbn [cbind].
    destruct (Z.leb_spec ml (blen (receiveBuffer st))); [|lia].
    rewrite Hmeta. cbn [cbind try_catch].
    unfold withPathOnlyFallback. cbn [snd]. rewrite Hpo.
    assert ((if 4 <=? blen (receiveBuffer st) then (ml, @None Packet) else (ml, None))
            = (ml, None)) as -> by (destruct (4 <=? _); reflexivity).
    destruct (Z.ltb_spec (blen (receiveBuffer st)) ml); [lia|].
    rewrite sliceFrom_suffix by lia. reflexivity.
Qed.

End ReceivePath.

(** The length of a standard frame followed by a ping echo is that of
    the frame; the length of the ping echo alone is the sentinel, and the
    loop replaces it by twelve. *)
Lemma getCompleteMessageLength_examples :
  @getCompleteMessageLength OscWire.StdOsc (gainFrame ++ pingEcho)%list = Normal 32 /\
  @getCompleteMessageLength OscWire.StdOsc pingEcho = Normal 13 /\
  fst (@withPathOnlyFallback pingEcho (13, None)) = 12.
Proof.
  destruct (@getCompleteMessageLength_total OscWire.StdOsc (gainFrame ++ pingEcho)%list)
    as (_ & H2 & _).
  destruct (@getCompleteMessageLength_total OscWire.StdOsc pingEcho)
    as (_ & _ & H3 & _ & H5 & _).
  split; [|split].
  - exact (H2 (Message "/gain/input/2/5/unit1" [mkArg "f" (VNumber (-3.5))])
              gainFrame eq_refl eq_refl).
  - exact (H3 (or_introl eq_refl)).
  - exact (H5 13 (mkPathOnly "/ping/unit1" 12) eq_refl ltac:(vm_compute; discriminate) eq_refl).
Defined.

(** A run over a gain report, a ping echo and a second gain report in
    one buffer handles the three frames in order, empties the buffer and
    stores the gain. *)
Example parseOscIncoming_three_frames :
  match @parseOscIncoming OscWire.StdOsc 8
          (exampleInstance (gainFrame ++ pingEcho ++ gainFrame)%list) with
  | Some (Normal st) =>
      receiveBuffer st = [] /\
      syncState st = <["gain_input_2_5" := VString "-3.5"]> ∅ /\
      syncVariableDefs st = ["gain_input_2_5"]
  | _ => False
  end.
Proof. vm_compute. repeat split. Qed.

(** C7, the claim as stated fails on the ping echo: the standard
    decoding throws, the path-only frame length is 12, and the function
    returns 13. *)
Lemma getCompleteMessageLength_path_only :
  @readPacket OscWire.StdOsc pingEcho = Throw /\
  parsePathOnlyOsc pingEcho = Some (mkPathOnly "/ping/unit1" 12) /\
  @getCompleteMessageLength OscWire.StdOsc pingEcho = Normal 13.
Proof. repeat split. Qed.

(** Four bytes that start no packet are left in the buffer. *)
Lemma parseOscIncoming_garbage_example :
  @parseOscIncoming OscWire.StdOsc 1 (exampleInstance garbage)
  = Some (Normal (exampleInstance garbage)).
Proof.
  apply (@parseOscIncoming_unparseable OscWire.StdOsc (exampleInstance garbage) 0);
    [discriminate|reflexivity|left; reflexivity].
Defined.

(** C1, the claim as stated fails on four bytes that are neither a
    standard nor a path-only frame: after the run the buffer still holds
    all four. *)
Lemma parseOscIncoming_garbage_stalls :
  @readPacket OscWire.StdOsc garbage = Throw /\
  parsePathOnlyOsc garbage = None /\
  @parseOscIncoming OscWire.StdOsc 4 (exampleInstance garbage)
  = Some (Normal (exampleInstance garbage)) /\
  receiveBuffer (exampleInstance garbage) = garbage /\
  length garbage = 4%nat.
Proof. repeat split. Qed.

(** ** The receive path as a whole *)

Lemma storeSyncValue_buffer id v st :
  receiveBuffer (storeSyncValue id v st) = receiveBuffer st.
Proof.
  unfold storeSyncValue. destruct (isEmpty id); [reflexivity|].
  destruct (existsb _ _); reflexivity.
Qed.

Lemma handleOscMessage_settings address args st :
  receiveBuffer (snd (handleOscMessage address args st)) = receiveBuffer st /\
  sameSettings st (snd (handleOscMessage address args st)).
Proof.
  unfold handleOscMessage, sameSettings.
  set (st0 := updateStatusOk "Connected" st).
  set (id := default "" (pathToVariableId st0 (VString address))).
  destruct (match pathToVariableId _ _ with Some _ => _ | None => _ end);
    cbn [snd]; [|repeat split].
  pose proof (storeSyncValue_buffer id (messageValue args) st0) as Hb.
  destruct (storeSyncValue_frame id (messageValue args) st0) as (_ & Hs & Hc & Ht).
  unfold checkFeedbacks, call.
  cbn [receiveBuffer config targetHost savedMatrixGain].
  rewrite Hb, Hs, Hc, Ht. repeat split.
Qed.

Lemma handleBundle_settings ps h st :
  receiveBuffer (snd (handleBundle ps h st)) = receiveBuffer st /\
  sameSettings st (snd (handleBundle ps h st)).
Proof.
  revert h st. induction ps as [|p ps IH]; intros h st; [repeat split|].
  destruct p as [address args|inner]; cbn [handleBundle]; [|apply IH].
  destruct (isEmpty address); [apply IH|].
  destruct (handleOscMessage address args st) as [r st'] eqn:E.
  destruct (handleOscMessage_settings address args st) as (Hb & Hc & Ht & Hs).
  rewrite E in Hb, Hc, Ht, Hs. cbn [snd] in *.
  destruct (IH (r || h) st') as (Hb' & Hc' & Ht' & Hs').
  unfold sameSettings. rewrite Hb', Hc', Ht', Hs'. auto.
Qed.

Lemma sliceFrom_skipn (b : Buffer) (s : Z) :
  sliceFrom b s = skipn (Z.to_nat (clampIndex (blen b) s)) b.
Proof.
  unfold sliceFrom, slice.
  assert (Hc : 0 <= clampIndex (blen b) s <= blen b).
  { unfold clampIndex, blen. destruct (Z.ltb_spec s 0); lia. }
  assert (He : clampIndex (blen b) (blen b) = blen b).
  { unfold clampIndex, blen. destruct (Z.ltb_spec (Z.of_nat (length b)) 0); lia. }
  rewrite He. apply firstn_all2. rewrite length_skipn. unfold blen in *. lia.
Qed.

Section WholeRun.
Context {osc : OscLib}.

(** What a pass that goes on leaves: a suffix of the buffer, and the
    settings untouched. *)
Lemma parseOscIteration_next h st h' st' :
  parseOscIteration h st = Normal (Next h' st') ->
  exists messageLength,
    (exists d, standardDecode (receiveBuffer st) = Normal d /\
               fst (withPathOnlyFallback (receiveBuffer st) d) = messageLength) /\
    messageLength <= blen (receiveBuffer st) /\
    receiveBuffer st' = sliceFrom (receiveBuffer st) messageLength /\
    sameSettings st st'.
Proof.
  unfold parseOscIteration.
  destruct (standardDecode (receiveBuffer st)) as [d|] eqn:Hd; cbn [cbind]; [|discriminate].
  destruct (withPathOnlyFallback (receiveBuffer st) d) as [ml packet] eqn:Hf.
  destruct (Z.ltb_spec (blen (receiveBuffer st)) ml); [discriminate|].
  intros Hn. exists ml. split; [exists d; rewrite Hf; auto|]. split; [assumption|].
  set (st0 := set_receiveBuffer (sliceFrom (receiveBuffer st) ml) st) in *.
  destruct packet as [[address args|ps]|].
  - destruct (isEmpty address).
    + injection Hn as _ <-. repeat split.
    + destruct (handleOscMessage address args st0) as [r st1] eqn:E.
      injection Hn as _ <-.
      destruct (handleOscMessage_settings address args st0) as (Hb & Hs).
      rewrite E in Hb, Hs. cbn [snd] in *. split; [exact Hb|exact Hs].
  - destruct (handleBundle ps h st0) as [r st1] eqn:E.
    injection Hn as _ <-.
    destruct (handleBundle_settings ps h st0) as (Hb & Hs).
    rewrite E in Hb, Hs. cbn [snd] in *. split; [exact Hb|exact Hs].
  - injection Hn as _ <-. repeat split.
Qed.

Lemma parseOscIteration_no_throw h st : parseOscIteration h st <> Throw.
Proof.
  unfold parseOscIteration.
  destruct (standardDecode_total (receiveBuffer st)) as (d & ->). cbn [cbind].
  destruct (withPathOnlyFallback _ d) as [ml packet].
  destruct (_ <? _); [discriminate|].
  destruct packet as [[address args|ps]|]; try discriminate.
  - destruct (isEmpty address); [discriminate|].
    destruct (handleOscMessage _ _ _); discriminate.
  - destruct (handleBundle _ _ _); discriminate.
Qed.

Lemma parseLoop_no_throw fuel h st : parseLoop fuel h st <> Some Throw.
Proof.
  revert h st. induction fuel as [|fuel IH]; intros h st; cbn [parseLoop];
    destruct (receiveBuffer st); try discriminate.
  destruct (parseOscIteration h st) as [[|h' st']|] eqn:E;
    [discriminate|apply IH|]. now apply parseOscIteration_no_throw in E.
Qed.

(** X1.  Whatever the reader and the writer of the package do, return or
    throw, a run of [parseOscIncoming] does not throw, and neither does the
    handler of a datagram: every exception of the package is caught inside
    the loop. *)
Theorem parseOscIncoming_never_throws (fuel : nat) (msg : Buffer) (st : Instance) :
  parseOscIncoming fuel st <> Some Throw /\ onMessage fuel msg st <> Some Throw.
Proof.
  assert (H : forall s, parseOscIncoming fuel s <> Some Throw).
  { intros s. unfold parseOscIncoming.
    destruct (parseLoop fuel false s) as [[[h st']|]|] eqn:E; try discriminate.
    now apply parseLoop_no_throw in E. }
  split; [apply H|apply H].
Qed.

(** A run only removes bytes from the front of the buffer and touches no
    setting. *)
Lemma parseLoop_suffix fuel h st h' st' :
  parseLoop fuel h st = Some (Normal (h', st')) ->
  (exists n, receiveBuffer st' = skipn n (receiveBuffer st)) /\ sameSettings st st'.
Proof.
  revert h st. induction fuel as [|fuel IH]; intros h st; cbn [parseLoop].
  - destruct (receiveBuffer st) eqn:E; [|discriminate].
    intros [= _ <-]. split; [exists 0%nat; now rewrite E|repeat split].
  - destruct (receiveBuffer st) eqn:E.
    { intros [= _ <-]. split; [exists 0%nat; now rewrite E|repeat split]. }
    rewrite <- E.
    destruct (parseOscIteration h st) as [[|h1 st1]|] eqn:Hit; [| |discriminate].
    + intros [= _ <-]. split; [exists 0%nat; reflexivity|repeat split].
    + intros Hl. destruct (IH _ _ Hl) as ((n & Hn) & Hc & Ht & Hs).
      destruct (parseOscIteration_next _ _ _ _ Hit) as (ml & _ & _ & Hb & Hc1 & Ht1 & Hs1).
      split.
      * rewrite Hn, Hb, sliceFrom_skipn, skipn_skipn. eauto.
      * unfold sameSettings. rewrite Hc, Ht, Hs. auto.
Qed.

(** X2.  A run of [parseOscIncoming] only takes bytes off the front of the
    receive buffer: what it leaves is a suffix of what it found, and the
    configuration, the resolved host and the saved gains are untouched. *)
Theorem parseOscIncoming_suffix (fuel : nat) (st st' : Instance) :
  parseOscIncoming fuel st = Some (Normal st') ->
  (exists n, receiveBuffer st' = skipn n (receiveBuffer st)) /\
  sameSettings st st'.
Proof.
  unfold parseOscIncoming.
  destruct (parseLoop fuel false st) as [[[h st1]|]|] eqn:E; try discriminate.
  intros [= <-]. destruct (parseLoop_suffix _ _ _ _ _ E) as (Hn & Hs).
  destruct h; [|auto]. split; [exact Hn|exact Hs].
Qed.


Lemma getCompleteMessageLength_value (buffer : Buffer) (n : Z) :
  getCompleteMessageLength buffer = Normal n ->
  n = blen buffer + 1 \/
  exists packet bytes, readPacket buffer = Normal packet /\
                       writePacket packet = Normal bytes /\ n = blen bytes.
Proof.
  unfold getCompleteMessageLength.
  destruct (readPacket buffer) as [p|]; cbn; [|intros [= <-]; auto].
  destruct (writePacket p) as [b|] eqn:E; cbn; intros [= <-].
  - right. exists p, b. auto.
  - left. reflexivity.
Qed.

Lemma standardDecode_length (buffer : Buffer) (n : Z) (p : option Packet) :
  standardDecode buffer = Normal (n, p) ->
  getCompleteMessageLength buffer = Normal n.
Proof.
  unfold standardDecode.
  destruct (getCompleteMessageLength buffer) as [m|]; cbn [cbind]; [|discriminate].
  destruct (m <=? blen buffer); [|intros [= <- _]; reflexivity].
  destruct (readPacketMetadata _); cbn; intros [= <- _]; reflexivity.
Qed.

End WholeRun.

Lemma parseOscIncoming_suffix_example :
  let st := exampleInstance (pingEcho ++ garbage)%list in
  exists st',
    @parseOscIncoming OscWire.StdOsc 4 st = Some (Normal st') /\
    (exists n, receiveBuffer st' = skipn n (receiveBuffer st)) /\
    sameSettings st st'.
Proof.
  intros st. eexists. split; [vm_compute; reflexivity|].
  apply (@parseOscIncoming_suffix OscWire.StdOsc 4). vm_compute. reflexivity.
Defined.

Lemma indexOfNul_ge (b : Buffer) (i : Z) :
  indexOfNul b i = -1 \/ i <= indexOfNul b i.
Proof.
  revert i. induction b as [|c b IH]; intros i; cbn [indexOfNul]; [auto|].
  destruct (Byte.eqb c x00); [right; lia|].
  destruct (IH (i + 1)); [auto|right; lia].
Qed.

Lemma indexOfNul_split (b : Buffer) (i n : Z) :
  0 <= i -> indexOfNul b i = n -> i <= n ->
  exists pre rest,
    b = (pre ++ x00 :: rest)%list /\ n = i + Z.of_nat (length pre) /\
    forallb (fun c => negb (Byte.eqb c x00)) pre = true.
Proof.
  revert i. induction b as [|c b IH]; intros i H0; cbn [indexOfNul]; [lia|].
  destruct (Byte.eqb c x00) eqn:E.
  - intros <- _. exists [], b. apply Byte.byte_dec_bl in E. subst c.
    repeat split. cbn. lia.
  - intros Hn Hi.
    assert (Hge : i + 1 <= n) by (destruct (indexOfNul_ge b (i + 1)); lia).
    destruct (IH (i + 1) ltac:(lia) Hn Hge) as (pre & rest & -> & Hlen & Hp).
    exists (c :: pre), rest. cbn [app length forallb]. rewrite E, Hp.
    repeat split. lia.
Qed.

Lemma parsePathOnlyOsc_inv (buffer : Buffer) (pathOnly : PathOnly) :
  parsePathOnlyOsc buffer = Some pathOnly ->
  blen buffer < 2 ^ 31 - 3 ->
  exists body rest,
    buffer = (x2f :: body ++ x00 :: rest)%list /\
    body <> [] /\ forallb isPrintable body = true /\
    path pathOnly = bytesToString (x2f :: body) /\
    byteLength pathOnly = ceil4 (Z.of_nat (length body) + 2) /\
    4 <= byteLength pathOnly <= blen buffer.
Proof.
  unfold parsePathOnlyOsc. intros Hp Hsize.
  destruct buffer as [|first [|second tl]]; try discriminate.
  remember (first :: second :: tl) as buffer eqn:Hbuf.
  destruct (Byte.eqb first x2f) eqn:Hf; cbn [negb] in Hp; [|discriminate].
  apply Byte.byte_dec_bl in Hf.
  destruct (Z.ltb_spec (indexOfNul buffer 0) 1) as [|Hidx]; [discriminate|].
  destruct (indexOfNul_split buffer 0 _ ltac:(lia) eq_refl ltac:(lia))
    as (pre & rest & Hb & Hn & Hnul).
  rewrite Hn in Hp. rewrite Z.add_0_l in Hp. rewrite Hb, Nat2Z.id in Hp.
  rewrite firstn_app, Nat.sub_diag, firstn_all in Hp. cbn [firstn] in Hp.
  rewrite app_nil_r in Hp.
  destruct pre as [|p0 [|b0 body']]; try discriminate.
  destruct (forallb isPrintable (b0 :: body')) eqn:Hpr; [|discriminate].
  assert (Hp0 : p0 = x2f) by (rewrite Hbuf in Hb; cbn in Hb; congruence).
  subst p0.
  assert (Hblen : blen buffer = Z.of_nat (length (b0 :: body')) + 2
                                + Z.of_nat (length rest)).
  { rewrite Hb. unfold blen. rewrite length_app. cbn [length]. lia. }
  replace (Z.of_nat (length (x2f :: b0 :: body')) + 1 + 3)
    with (Z.of_nat (length (b0 :: body')) + 2 + 3) in Hp by (cbn [length]; lia).
  rewrite and_not_3 in Hp by lia.
  pose proof (ceil4_bounds (Z.of_nat (length (b0 :: body')) + 2) ltac:(lia)) as Hc.
  assert (Hq : ceil4 (Z.of_nat (length (b0 :: body')) + 2)
               = 4 * ((Z.of_nat (length (b0 :: body')) + 2 + 3) / 4)) by reflexivity.
  destruct (Z.ltb_spec (blen ((x2f :: b0 :: body') ++ x00 :: rest)%list)
              (ceil4 (Z.of_nat (length (b0 :: body')) + 2))) as [|Hle];
    [discriminate|].
  injection Hp as <-. cbn [path byteLength].
  exists (b0 :: body'), rest. rewrite <- Hb in Hle.
  split; [exact Hb|]. split; [discriminate|]. split; [exact Hpr|].
  split; [reflexivity|]. split; [reflexivity|].
  cbn [length] in *. lia.
Qed.

(** X3.  Below 2^31 - 3 bytes, [parsePathOnlyOsc] returns a frame exactly
    for the buffers that start with a slash and at least one more byte, all
    printable ASCII, up to the first zero byte, and hold the frame whole;
    the frame is then the address and its length with the terminator rounded
    up to a multiple of four. Every other buffer gives [null]. *)
Theorem parsePathOnlyOsc_exactly (buffer : Buffer) (pathOnly : PathOnly) :
  blen buffer < 2 ^ 31 - 3 ->
  (parsePathOnlyOsc buffer = Some pathOnly <->
   exists body rest,
     buffer = (x2f :: body ++ x00 :: rest)%list /\
     body <> [] /\ forallb isPrintable body = true /\
     ceil4 (Z.of_nat (length body) + 2) <= blen buffer /\
     pathOnly = mkPathOnly (bytesToString (x2f :: body))
                           (ceil4 (Z.of_nat (length body) + 2))).
Proof.
  intros Hsize. split.
  - intros Hp.
    destruct (parsePathOnlyOsc_inv _ _ Hp Hsize)
      as (body & rest & Hb & Hne & Hpr & Hpath & Hlen & Hrange).
    exists body, rest. rewrite <- Hlen.
    split; [exact Hb|]. split; [exact Hne|]. split; [exact Hpr|].
    split; [lia|]. destruct pathOnly as [p l]. cbn [path byteLength] in *.
    congruence.
  - intros (body & rest & -> & Hne & Hpr & Hlen & ->).
    destruct body as [|b0 body']; [contradiction|].
    apply parsePathOnlyOsc_printable; [exact Hpr|exact Hlen|lia].
Qed.

Lemma parsePathOnlyOsc_exactly_example :
  parsePathOnlyOsc pingEcho = Some (mkPathOnly "/ping/unit1" 12) /\
  parsePathOnlyOsc garbage = None.
Proof.
  split.
  - apply (parsePathOnlyOsc_exactly pingEcho); [vm_compute; reflexivity|].
    exists (list_byte_of_string "ping/unit1"), [].
    repeat split; try discriminate.
  - destruct (parsePathOnlyOsc garbage) as [p|] eqn:E; [|reflexivity].
    apply (parsePathOnlyOsc_exactly garbage) in E; [|vm_compute; reflexivity].
    destruct E as (body & rest & Hb & _). discriminate Hb.
Defined.

Lemma writeString_nonempty (s : string) : OscWire.writeString s <> [].
Proof. unfold OscWire.writeString. destruct (list_byte_of_string s); discriminate. Qed.

Lemma StdOsc_writesNonEmpty : writesNonEmpty OscWire.StdOsc.
Proof.
  intros packet bytes. cbn. destruct packet as [address args|ps]; cbn.
  - unfold OscWire.writeMessage.
    destruct (OscWire.writeArguments args) as [r|]; cbn; [|discriminate].
    intros [= <-]. pose proof (writeString_nonempty address).
    destruct (OscWire.writeString address); [contradiction|discriminate].
  - destruct (OscWire.writeElements ps) as [r|]; cbn; [|discriminate].
    intros [= <-]. discriminate.
Qed.

Section Termination.
Context {osc : OscLib}.
Hypothesis Hw : writesNonEmpty osc.

(** A pass over a non-empty buffer asks for at least one byte. *)
Lemma iteration_length (buffer : Buffer) (d : Z * option Packet) :
  blen buffer < 2 ^ 31 - 3 ->
  standardDecode buffer = Normal d ->
  1 <= fst (withPathOnlyFallback buffer d).
Proof.
  intros Hsize Hd. destruct d as [n p].
  apply standardDecode_length in Hd. apply getCompleteMessageLength_value in Hd.
  assert (Hn : 1 <= n).
  { destruct Hd as [->|(pk & bytes & _ & Hwr & ->)]; [unfold blen; lia|].
    apply Hw in Hwr. destruct bytes; [contradiction|]. unfold blen; cbn [length]; lia. }
  unfold withPathOnlyFallback. cbn [snd]. destruct p; [exact Hn|].
  destruct (4 <=? blen buffer); [|exact Hn].
  destruct (parsePathOnlyOsc buffer) eqn:E; [|exact Hn].
  cbn [fst].
  destruct (parsePathOnlyOsc_inv _ _ E Hsize) as (body & rest & _ & _ & _ & _ & _ & Hrange).
  lia.
Qed.

Lemma parseLoop_terminates (fuel : nat) (h : bool) (st : Instance) :
  blen (receiveBuffer st) < 2 ^ 31 - 3 ->
  (length (receiveBuffer st) <= fuel)%nat ->
  exists r, parseLoop fuel h st = Some (Normal r).
Proof.
  revert h st. induction fuel as [|fuel IH]; intros h st Hsize Hfuel; cbn [parseLoop].
  - destruct (receiveBuffer st); [eauto|cbn in Hfuel; lia].
  - destruct (receiveBuffer st) as [|c0 tl] eqn:E; [eauto|].
    destruct (parseOscIteration h st) as [[|h1 st1]|] eqn:Hit; [eauto| |].
    + destruct (parseOscIteration_next _ _ _ _ Hit)
        as (ml & (d & Hd & Hml) & Hle & Hb & _).
      rewrite E in Hd, Hml, Hle, Hb.
      pose proof (iteration_length _ d Hsize Hd) as H1.
      rewrite Hml in H1.
      rewrite sliceFrom_suffix in Hb by lia.
      assert (Hlen : (length (receiveBuffer st1) < length (c0 :: tl))%nat).
      { rewrite Hb, length_skipn. unfold blen in *. lia. }
      apply IH; [unfold blen in *; lia|cbn [length] in *; lia].
    + now apply parseOscIteration_no_throw in Hit.
Qed.

End Termination.

(** X4.  With a package that writes no packet as zero bytes, and a buffer
    below 2^31 - 3 bytes, [parseOscIncoming] returns after at most as many
    passes of its loop as the buffer has bytes. *)
Theorem parseOscIncoming_terminates {osc : OscLib} (fuel : nat) (st : Instance) :
  writesNonEmpty osc ->
  blen (receiveBuffer st) < 2 ^ 31 - 3 ->
  (length (receiveBuffer st) <= fuel)%nat ->
  exists st', parseOscIncoming fuel st = Some (Normal st').
Proof.
  intros Hw Hsize Hfuel. unfold parseOscIncoming.
  destruct (parseLoop_terminates Hw fuel false st Hsize Hfuel) as ([h st'] & ->).
  eauto.
Qed.

Lemma parseOscIncoming_terminates_example :
  exists st',
    @parseOscIncoming OscWire.StdOsc 16 (exampleInstance (pingEcho ++ garbage)%list) = Some (Normal st').
Proof.
  apply (@parseOscIncoming_terminates OscWire.StdOsc 16);
    [exact StdOsc_writesNonEmpty|vm_compute; reflexivity|vm_compute; lia].
Defined.





Section Reassembly.
Context {osc : OscLib}.




End Reassembly.





(** ** Strings without a slash, and strings that are not empty *)

Lemma noSlash_append (a b : string) : noSlash (a +:+ b) = noSlash a && noSlash b.
Proof.
  induction a as [|c a IH]; [reflexivity|].
  rewrite append_cons. cbn [noSlash]. rewrite IH. apply andb_assoc.
Qed.

Lemma isDigit_not_slash (c : ascii) : isDigit c = true -> ascii_eqb c "/" = false.
Proof.
  intros H. destruct (ascii_eqb c "/") eqn:E; [|reflexivity].
  apply Ascii.eqb_eq in E. subst c. vm_compute in H. discriminate.
Qed.

Lemma allDigits_noSlash (s : string) : allDigits s = true -> noSlash s = true.
Proof.
  induction s as [|c s IH]; [reflexivity|]. cbn [allDigits noSlash].
  intros H. apply andb_prop in H as [Hc Hs].
  rewrite (isDigit_not_slash c Hc), IH by assumption. reflexivity.
Qed.

Lemma noSlash_take (n : nat) (s : string) : noSlash s = true -> noSlash (take n s) = true.
Proof.
  revert s. induction n as [|n IH]; intros [|c s]; cbn [take noSlash]; auto.
  intros H. apply andb_prop in H as [-> Hs]. cbn. auto.
Qed.

Lemma noSlash_drop (n : nat) (s : string) : noSlash s = true -> noSlash (drop n s) = true.
Proof.
  revert s. induction n as [|n IH]; intros [|c s]; cbn [drop noSlash]; auto.
  intros H. apply andb_prop in H as [_ Hs]. auto.
Qed.

Lemma noSlash_repeat_zero (n : nat) : noSlash (repeatChar "0" n) = true.
Proof. induction n as [|n IH]; [reflexivity|]. cbn [repeatChar noSlash]. rewrite IH. reflexivity. Qed.

Lemma noSlash_digitsOfZ (n : Z) : noSlash (digitsOfZ n) = true.
Proof. apply allDigits_noSlash, digitsOfZ_digits. Qed.

Lemma noSlash_layout (ds : string) (n : Z) : noSlash ds = true -> noSlash (layout ds n) = true.
Proof.
  intros H. unfold layout.
  repeat match goal with |- context [if ?c then _ else _] => destruct c end;
    rewrite ?noSlash_append, ?noSlash_repeat_zero, ?noSlash_digitsOfZ,
      ?(noSlash_take _ _ H), ?(noSlash_drop _ _ H), ?H; reflexivity.
Qed.

Lemma toString_noSlash (x : float) : noSlash (toString x) = true.
Proof.
  unfold toString. destruct (Prim2SF x) as [s|s| |s m e]; try reflexivity.
  - destruct s; reflexivity.
  - destruct (shortestDigits _ _ _ _ _ _) as [d n].
    rewrite noSlash_append, noSlash_layout by apply noSlash_digitsOfZ.
    destruct s; reflexivity.
Qed.

Lemma append_nonempty_r (a b : string) : b <> "" -> a +:+ b <> "".
Proof. destruct a; [rewrite append_nil; auto|rewrite append_cons; discriminate]. Qed.

Lemma append_nonempty_l (a b : string) : a <> "" -> a +:+ b <> "".
Proof. destruct a; [congruence|rewrite append_cons; discriminate]. Qed.

Lemma layout_nonempty (ds : string) (n : Z) : ds <> "" -> layout ds n <> "".
Proof.
  intros H. unfold layout.
  repeat match goal with |- context [if ?c then _ else _] => destruct c end;
    first [ now apply append_nonempty_l
          | apply append_nonempty_r; rewrite append_cons; discriminate
          | rewrite append_cons; discriminate ].
Qed.

Lemma toString_nonempty (x : float) : toString x <> "".
Proof.
  unfold toString. destruct (Prim2SF x) as [s|s| |s m e]; try discriminate.
  - destruct s; discriminate.
  - destruct (shortestDigits _ _ _ _ _ _) as [d n].
    apply append_nonempty_r, layout_nonempty, digitsOfZ_nonempty.
Qed.

Lemma toFixed_one_nonempty (x : float) : toFixed x 1 <> "".
Proof.
  unfold toFixed. destruct (negb (isFinite x)); [apply toString_nonempty|].
  apply append_nonempty_r. destruct (abs x <? 1e21)%float; [|apply toString_nonempty].
  destruct (fixedLayout_one (nearestScaled x 1)) as (whole & d & -> & Hne & _).
  now apply append_nonempty_l.
Qed.

(** [formatSyncValue] returns at least one character for every value. *)
Lemma formatSyncValue_nonempty (v : Value) : formatSyncValue v <> "".
Proof.
  unfold formatSyncValue.
  destruct (strictEq v (VBool true)); [discriminate|].
  destruct (strictEq v (VBool false)) eqn:Hf; [discriminate|].
  destruct (isFinite (ToNumber v)) eqn:Hfin.
  - destruct (numEq _ 0 || numEq _ 1); [apply toString_nonempty|apply toFixed_one_nonempty].
  - destruct v as [| |b|x|s]; cbn [ToString ToNumber] in *; try discriminate.
    + destruct b; discriminate.
    + apply toString_nonempty.
    + intros ->. vm_compute in Hfin. discriminate.
Qed.

(** ** The store and the definitions stay consistent *)

Lemma storeConsistent_ext (st st' : Instance) :
  syncState st' = syncState st -> syncVariableDefs st' = syncVariableDefs st ->
  storeConsistent st -> storeConsistent st'.
Proof. unfold storeConsistent. intros -> ->. auto. Qed.

Lemma isEmpty_false (s : string) : isEmpty s = false <-> s <> "".
Proof. destruct s; cbn; split; congruence. Qed.

Lemma existsb_eqb_In (x : string) (l : list string) :
  existsb (String.eqb x) l = true <-> In x l.
Proof.
  rewrite existsb_exists. split.
  - intros (y & Hy & He). apply String.eqb_eq in He. now subst.
  - intros H. exists x. split; [exact H|apply String.eqb_refl].
Qed.

Lemma NoDup_snoc (x : string) (l : list string) :
  NoDup l -> ~ In x l -> NoDup (l ++ [x]).
Proof.
  intros Hnd Hx. apply NoDup_app. split; [exact Hnd|]. split; [|apply NoDup_singleton].
  intros y Hy Hy'. apply list_elem_of_singleton in Hy'. subst.
  apply list_elem_of_In in Hy. contradiction.
Qed.

Lemma storeSyncValue_consistent (id : string) (v : Value) (st : Instance) :
  storeConsistent st -> storeConsistent (storeSyncValue id v st).
Proof.
  intros (Hnd & Hin & Hne & Hval). unfold storeSyncValue.
  destruct (isEmpty id) eqn:Hid; [repeat split; auto|].
  apply isEmpty_false in Hid.
  set (m := assignSyncState id (formatSyncValue v) (syncState st)).
  assert (Hv : forall k w, m !! k = Some w -> exists s, w = VString s /\ s <> "").
  { intros k w. subst m. unfold assignSyncState.
    destruct (String.eqb id "__proto__"); [apply Hval|].
    destruct (decide (k = id)) as [->|Hk].
    - rewrite lookup_insert_eq. intros [= <-]. eexists. split; [reflexivity|].
      apply formatSyncValue_nonempty.
    - rewrite lookup_insert_ne by congruence. apply Hval. }
  assert (Hk : forall k, is_Some (m !! k) -> k = id \/ is_Some (syncState st !! k)).
  { intros k. subst m. unfold assignSyncState.
    destruct (String.eqb id "__proto__"); [auto|].
    destruct (decide (k = id)) as [->|Hk]; [auto|].
    rewrite lookup_insert_ne by congruence. auto. }
  unfold set_syncVariableDefs, set_syncState. cbn [syncVariableDefs syncState].
  destruct (existsb (String.eqb id) (syncVariableDefs st)) eqn:Hex;
    cbn [syncVariableDefs syncState].
  - apply existsb_eqb_In in Hex.
    split; [exact Hnd|]. split; [|split; [exact Hne|exact Hv]].
    intros k Hs. destruct (Hk k Hs) as [->|H]; [exact Hex|now apply Hin].
  - assert (Hnot : ~ In id (syncVariableDefs st)).
    { intros H. apply existsb_eqb_In in H. congruence. }
    split; [|split; [|split; [|exact Hv]]].
    + now apply NoDup_snoc.
    + intros k Hs. apply in_or_app. destruct (Hk k Hs) as [->|H].
      * right. left. reflexivity.
      * left. now apply Hin.
    + intros k Hin'. apply in_app_or in Hin' as [H|H]; [now apply Hne|].
      cbn in H. destruct H as [<-|H]; [exact Hid|destruct H].
Qed.

Lemma handleOscMessage_consistent (address : string) (args : list Arg) (st : Instance) :
  storeConsistent st -> storeConsistent (snd (handleOscMessage address args st)).
Proof.
  intros H. unfold handleOscMessage.
  match goal with |- context [if ?c then _ else _] => destruct c end; cbn [snd].
  - exact (storeSyncValue_consistent _ _ (updateStatusOk "Connected" st) H).
  - exact H.
Qed.

Lemma handleBundle_consistent (ps : list Packet) (h : bool) (st : Instance) :
  storeConsistent st -> storeConsistent (snd (handleBundle ps h st)).
Proof.
  revert h st. induction ps as [|p ps IH]; intros h st H; [exact H|].
  destruct p as [address args|inner]; cbn [handleBundle]; [|now apply IH].
  destruct (isEmpty address); [now apply IH|].
  pose proof (handleOscMessage_consistent address args st H) as H1.
  destruct (handleOscMessage address args st) as [r st']. now apply IH.
Qed.

Section ConsistentRun.
Context {osc : OscLib}.

Lemma parseOscIteration_consistent h st h' st' :
  parseOscIteration h st = Normal (Next h' st') ->
  storeConsistent st -> storeConsistent st'.
Proof.
  unfold parseOscIteration.
  destruct (standardDecode (receiveBuffer st)) as [d|]; cbn [cbind]; [|discriminate].
  destruct (withPathOnlyFallback (receiveBuffer st) d) as [ml packet].
  destruct (_ <? _); [discriminate|].
  set (st0 := set_receiveBuffer _ st).
  intros Hn H.
  destruct packet as [[address args|ps]|].
  - destruct (isEmpty address); [injection Hn as _ <-; exact H|].
    pose proof (handleOscMessage_consistent address args st0 H) as H1.
    destruct (handleOscMessage address args st0) as [r st1].
    injection Hn as _ <-. exact H1.
  - pose proof (handleBundle_consistent ps h st0 H) as H1.
    destruct (handleBundle ps h st0) as [r st1].
    injection Hn as _ <-. exact H1.
  - injection Hn as _ <-. exact H.
Qed.

Lemma parseLoop_consistent fuel h st h' st' :
  parseLoop fuel h st = Some (Normal (h', st')) ->
  storeConsistent st -> storeConsistent st'.
Proof.
  revert h st. induction fuel as [|fuel IH]; intros h st; cbn [parseLoop];
    destruct (receiveBuffer st); try discriminate;
    try (intros [= _ <-]; auto; fail).
  destruct (parseOscIteration h st) as [[|h1 st1]|] eqn:Hit; [| |discriminate].
  - intros [= _ <-]; auto.
  - intros Hl H. apply (IH _ _ Hl). exact (parseOscIteration_consistent _ _ _ _ Hit H).
Qed.

End ConsistentRun.

(** X6.  Receiving keeps the store and the definitions consistent: after a
    message is handled, and after a whole run of [parseOscIncoming], no
    identifier is defined twice, every stored key is defined, no defined
    identifier is empty and every stored value is a non-empty string, if
    that was so before. *)
Theorem storeConsistent_received {osc : OscLib} (st : Instance) :
  storeConsistent st ->
  (forall address args, storeConsistent (snd (handleOscMessage address args st))) /\
  (forall fuel st', parseOscIncoming fuel st = Some (Normal st') -> storeConsistent st').
Proof.
  intros H. split; [intros; now apply handleOscMessage_consistent|].
  intros fuel st'. unfold parseOscIncoming.
  destruct (parseLoop fuel false st) as [[[h st1]|]|] eqn:E; try discriminate.
  intros [= <-]. pose proof (parseLoop_consistent _ _ _ _ _ E H) as H1.
  destruct h; [|exact H1].
  apply (storeConsistent_ext st1); [reflexivity..|exact H1].
Qed.

Lemma storeConsistent_empty (b : Buffer) : storeConsistent (exampleInstance b).
Proof.
  split; [constructor|]. split; [|split].
  - intros k [v Hv]. cbn in Hv. rewrite lookup_empty in Hv. discriminate.
  - intros k [].
  - intros k v Hv. cbn in Hv. rewrite lookup_empty in Hv. discriminate.
Qed.

Lemma storeConsistent_received_example :
  storeConsistent
    (snd (handleOscMessage "/mute/input/1/unit1" [mkArg "T" (VBool true)]
            (exampleInstance []))).
Proof.
  destruct (@storeConsistent_received OscWire.StdOsc (exampleInstance [])
              (storeConsistent_empty [])) as (H & _).
  apply H.
Defined.

(** ** Addresses and variable identifiers *)

Lemma noSlash_slashesToUnderscores (s : string) :
  noSlash (slashesToUnderscores s) = true.
Proof.
  induction s as [|c s IH]; [reflexivity|]. cbn [slashesToUnderscores noSlash].
  rewrite IH. destruct (ascii_eqb c "/") eqn:E; [reflexivity|]. rewrite E. reflexivity.
Qed.

Lemma slashesToUnderscores_noSlash (s : string) :
  noSlash s = true -> slashesToUnderscores s = s.
Proof.
  induction s as [|c s IH]; [reflexivity|]. cbn [slashesToUnderscores noSlash].
  intros H. apply andb_prop in H as [Hc Hs]. rewrite IH by assumption.
  destruct (ascii_eqb c "/"); [discriminate|reflexivity].
Qed.

Lemma slashesToUnderscores_append (a b : string) :
  slashesToUnderscores (a +:+ b) = slashesToUnderscores a +:+ slashesToUnderscores b.
Proof.
  induction a as [|c a IH]; [reflexivity|].
  rewrite append_cons. cbn [slashesToUnderscores]. rewrite IH. reflexivity.
Qed.

(** An address that ends in a slash and the device name is mapped as the
    address without them. *)
Lemma pathToVariableId_suffix (st : Instance) (p : string) :
  isEmpty (deviceName st) = false ->
  pathToVariableId st (VString (p +:+ "/" +:+ deviceName st))
  = Some (slashesToUnderscores (stripLeadingSlash p)).
Proof.
  intros Hname. unfold pathToVariableId.
  set (suffix := "/" +:+ deviceName st).
  rewrite isEmpty_false_append by reflexivity.
  rewrite Hname, endsWith_append. cbn [negb andb].
  replace (Z.of_nat (String.length (p +:+ suffix))
           - Z.of_nat (String.length (deviceName st)) - 1)
    with (Z.of_nat (String.length (p +:+ suffix)) - Z.of_nat (String.length suffix))
    by (subst suffix; rewrite (length_append "/" (deviceName st));
        cbn [String.length]; lia).
  rewrite sliceTo_append. reflexivity.
Qed.

(** X7.  A variable identifier never holds a slash. *)
Theorem pathToVariableId_noSlash (st : Instance) (path : Value) (id : string) :
  pathToVariableId st path = Some id -> noSlash id = true.
Proof.
  unfold pathToVariableId. destruct path as [| | | |p]; try discriminate.
  destruct (isEmpty p); [discriminate|]. intros [= <-].
  apply noSlash_slashesToUnderscores.
Qed.

Lemma pathToVariableId_noSlash_example :
  pathToVariableId (exampleInstance []) (VString "/gain/input/2/5/unit1")
  = Some "gain_input_2_5" /\ noSlash "gain_input_2_5" = true.
Proof.
  split; [reflexivity|].
  apply (pathToVariableId_noSlash (exampleInstance []) (VString "/gain/input/2/5/unit1")).
  reflexivity.
Defined.

(** X8.  The device name at the end of an address is optional: an address
    that does not already end in a slash and the configured name gets the
    identifier it gets with them appended. *)
Theorem pathToVariableId_suffix_optional (st : Instance) (p : string) :
  isEmpty (deviceName st) = false -> isEmpty p = false ->
  endsWith p ("/" +:+ deviceName st) = false ->
  pathToVariableId st (VString (p +:+ "/" +:+ deviceName st))
  = pathToVariableId st (VString p).
Proof.
  intros Hname Hp Hend. rewrite pathToVariableId_suffix by assumption.
  unfold pathToVariableId. rewrite Hp, Hend, andb_false_r. reflexivity.
Qed.

Lemma pathToVariableId_suffix_optional_example :
  pathToVariableId (exampleInstance []) (VString "/mute/output/7/unit1")
  = pathToVariableId (exampleInstance []) (VString "/mute/output/7").
Proof.
  apply (pathToVariableId_suffix_optional (exampleInstance []) "/mute/output/7");
    reflexivity.
Defined.

(** ** What every action does *)

Lemma sendOsc_calls (p : string) (args : list Arg) (st : Instance) :
  startsWith p "/" = true ->
  calls (sendOsc p args st) = calls st \/
  exists h, canSend st h /\
    calls (sendOsc p args st)
    = (calls st ++ [OscSend h (targetPort (config st)) (p +:+ "/" +:+ deviceName st) args])%list.
Proof.
  intros Hp. unfold sendOsc, oscPath. rewrite Hp.
  destruct (isEmpty (deviceName st)) eqn:Hn; [left; reflexivity|].
  destruct (targetHost st) as [h|] eqn:Hh; [|left; reflexivity].
  destruct (isEmpty h) eqn:He; [left; reflexivity|].
  right. exists h. split; [repeat split; assumption|reflexivity].
Qed.

Lemma sendOsc_unconfigured (p : string) (args : list Arg) (st : Instance) :
  isEmpty (deviceName st) = true \/ targetHost st = None \/ targetHost st = Some "" ->
  sendOsc p args st = st.
Proof.
  unfold sendOsc, oscPath. intros [H|[H|H]]; rewrite H; [reflexivity| |].
  - destruct (isEmpty (deviceName st)); reflexivity.
  - destruct (isEmpty (deviceName st)); reflexivity.
Qed.

Lemma sendOsc_store (p : string) (args : list Arg) (st : Instance) :
  syncVariableDefs (sendOsc p args st) = syncVariableDefs st /\
  receiveBuffer (sendOsc p args st) = receiveBuffer st.
Proof. destruct (sendOsc_cases p args st) as [->|[c ->]]; auto. Qed.

Lemma storeAndPublish_calls_inv key v ids st c :
  In c (calls (storeAndPublish key v ids st)) -> In c (calls st) \/ isOscSend c = false.
Proof.
  unfold storeAndPublish, checkFeedbacks, applySyncVariables, call.
  cbn [calls]. destruct (storeSyncValue_frame key v st) as (-> & _).
  intros H. apply in_app_or in H as [H|H].
  - apply in_app_or in H as [H|H].
    + apply in_app_or in H as [H|H]; [left; exact H|right].
      cbn in H. destruct H as [<-|H]; [reflexivity|destruct H].
    + right. cbn in H. destruct H as [<-|H]; [reflexivity|destruct H].
  - right. cbn in H. destruct H as [<-|H]; [reflexivity|destruct H].
Qed.

Lemma storeAndPublish_rest key v ids st :
  receiveBuffer (storeAndPublish key v ids st) = receiveBuffer st.
Proof.
  unfold storeAndPublish, checkFeedbacks, applySyncVariables, call.
  cbn [receiveBuffer]. apply storeSyncValue_buffer.
Qed.

Lemma isEmpty_literal_append (c : ascii) (a b : string) :
  isEmpty (String c a +:+ b) = false.
Proof. reflexivity. Qed.

Lemma slashes_of_path2 (a b : string) :
  noSlash a = true ->
  slashesToUnderscores (a +:+ b) = a +:+ slashesToUnderscores b.
Proof.
  intros H. rewrite slashesToUnderscores_append, slashesToUnderscores_noSlash by exact H.
  reflexivity.
Qed.

Lemma gainInputPath_key (a b : float) :
  slashesToUnderscores (stripLeadingSlash (gainInputPath a b)) = gainInputKey a b.
Proof.
  unfold gainInputPath, gainInputKey.
  change (stripLeadingSlash ("/gain/input/" +:+ toString a +:+ "/" +:+ toString b))
    with ("gain/input/" +:+ toString a +:+ "/" +:+ toString b).
  rewrite slashesToUnderscores_append, (slashes_of_path2 (toString a))
    by apply toString_noSlash.
  rewrite slashesToUnderscores_append, (slashesToUnderscores_noSlash (toString b))
    by apply toString_noSlash.
  reflexivity.
Qed.

Lemma gainOutputPath_key (b : float) :
  slashesToUnderscores (stripLeadingSlash (gainOutputPath b)) = gainOutputKey b.
Proof.
  unfold gainOutputPath, gainOutputKey.
  change (stripLeadingSlash ("/gain/output/" +:+ toString b))
    with ("gain/output/" +:+ toString b).
  rewrite slashesToUnderscores_append, (slashesToUnderscores_noSlash (toString b))
    by apply toString_noSlash.
  reflexivity.
Qed.

Lemma mutePath_key (kind : string) (b : float) :
  noSlash kind = true ->
  slashesToUnderscores (stripLeadingSlash ("/mute/" +:+ kind +:+ "/" +:+ toString b))
  = "mute_" +:+ kind +:+ "_" +:+ toString b.
Proof.
  intros Hk.
  change (stripLeadingSlash ("/mute/" +:+ kind +:+ "/" +:+ toString b))
    with ("mute/" +:+ kind +:+ "/" +:+ toString b).
  rewrite slashesToUnderscores_append, (slashes_of_path2 kind) by exact Hk.
  rewrite slashesToUnderscores_append, (slashesToUnderscores_noSlash (toString b))
    by apply toString_noSlash.
  reflexivity.
Qed.

(** Every action is one shape: a message on a path, then the value
    stored under the key that path maps to. *)
Lemma runAction_shape (a : Action) (o : Options) (st : Instance) :
  exists key path v args ids st0,
    runAction a o st = storeAndPublish key v ids (sendOsc path args st0) /\
    isEmpty key = false /\ startsWith path "/" = true /\
    slashesToUnderscores (stripLeadingSlash path) = key /\
    syncState st0 = syncState st /\ syncVariableDefs st0 = syncVariableDefs st /\
    config st0 = config st /\ targetHost st0 = targetHost st /\
    receiveBuffer st0 = receiveBuffer st /\ calls st0 = calls st /\
    (a <> MatrixPointMuteToggle -> savedMatrixGain st0 = savedMatrixGain st) /\
    key <> "__proto__".
Proof.
  destruct a; cbn [runAction].
  - do 6 eexists. split; [reflexivity|]. split; [reflexivity|]. split; [reflexivity|].
    split; [apply gainInputPath_key|]. repeat split; discriminate.
  - do 6 eexists. split; [reflexivity|]. split; [reflexivity|]. split; [reflexivity|].
    split; [apply gainOutputPath_key|]. repeat split; discriminate.
  - do 6 eexists. split; [reflexivity|]. split; [reflexivity|]. split; [reflexivity|].
    split; [apply gainInputPath_key|]. repeat split; discriminate.
  - do 6 eexists. split; [reflexivity|]. split; [reflexivity|]. split; [reflexivity|].
    split; [apply gainOutputPath_key|]. repeat split; discriminate.
  - unfold matrix_point_mute_toggle.
    destruct (negb _ && _).
    + do 6 eexists. split; [reflexivity|]. split; [reflexivity|]. split; [reflexivity|].
      split; [apply gainInputPath_key|]. repeat split; try congruence; discriminate.
    + do 6 eexists. split; [reflexivity|]. split; [reflexivity|]. split; [reflexivity|].
      split; [apply gainInputPath_key|]. repeat split; try congruence; discriminate.
  - do 6 eexists. split; [reflexivity|]. split; [reflexivity|]. split; [reflexivity|].
    split; [apply (mutePath_key "input"); reflexivity|]. repeat split; discriminate.
  - do 6 eexists. split; [reflexivity|]. split; [reflexivity|]. split; [reflexivity|].
    split; [apply (mutePath_key "output"); reflexivity|]. repeat split; discriminate.
Qed.

(** X9.  Every action keeps the store and the definitions consistent. *)
Theorem storeConsistent_action (a : Action) (o : Options) (st : Instance) :
  storeConsistent st -> storeConsistent (runAction a o st).
Proof.
  intros H.
  destruct (runAction_shape a o st)
    as (key & path & v & args & ids & st0 & -> & _ & _ & _ & Hs & Hd & _).
  destruct (sendOsc_frame path args st0) as (Hs' & _).
  destruct (sendOsc_store path args st0) as (Hd' & _).
  assert (H0 : storeConsistent (sendOsc path args st0)).
  { apply (storeConsistent_ext st); [congruence|congruence|exact H]. }
  exact (storeSyncValue_consistent key v _ H0).
Qed.

Lemma storeConsistent_action_example :
  storeConsistent (runAction SetInputMute (point11 VUndefined VUndefined (VString "toggle"))
                     (exampleInstance [])).
Proof.
  apply (storeConsistent_action SetInputMute), storeConsistent_empty.
Defined.

(** X10.  Whatever an action sends to the device goes to an address that
    [pathToVariableId] maps to a key the action has stored: the report the
    device answers with lands on the value the action wrote. *)
Theorem action_sends_on_stored_key (a : Action) (o : Options) (st : Instance)
        (c : HostCall) :
  In c (calls (runAction a o st)) ->
  In c (calls st) \/ sentOnStoredKey (runAction a o st) c.
Proof.
  destruct (runAction_shape a o st)
    as (key & path & v & args & ids & st0 & -> & Hk & Hp & Hkey & _ & _ & Hc & Ht & _ & Hcalls & _ & Hproto).
  intros Hin. apply storeAndPublish_calls_inv in Hin as [Hin|Hno];
    [|right; destruct c; try exact I; discriminate].
  destruct (sendOsc_calls path args st0 Hp) as [E|(h & (_ & _ & Hname) & E)];
    rewrite E in Hin; [left; congruence|].
  apply in_app_or in Hin as [Hin|Hin]; [left; congruence|]. right.
  cbn in Hin. destruct Hin as [<-|[]]. cbn [sentOnStoredKey].
  exists key. split.
  - unfold pathToVariableId.
    assert (Hdev : deviceName (storeAndPublish key v ids (sendOsc path args st0))
                   = deviceName st0).
    { unfold deviceName. destruct (storeAndPublish_frame key v ids (sendOsc path args st0)) as (_ & -> & _).
      destruct (sendOsc_frame path args st0) as (_ & _ & -> & _). reflexivity. }
    rewrite Hdev. fold (pathToVariableId st0 (VString (path +:+ "/" +:+ deviceName st0))).
    rewrite pathToVariableId_suffix by exact Hname. congruence.
  - rewrite storeAndPublish_syncState by assumption. rewrite lookup_insert_eq. eauto.
Qed.

Lemma action_sends_on_stored_key_example :
  let st := runAction SetOutputGain
              (mkOptions VUndefined (VNumber 7) (VNumber (-6)) VUndefined VUndefined VUndefined)
              (exampleInstance []) in
  let c := OscSend "192.168.1.100" (VString "9000") "/gain/output/7/unit1"
                   [floatArg (-6)] in
  In c (calls st) /\ sentOnStoredKey st c.
Proof.
  intros st c.
  assert (Hin : In c (calls st)) by (vm_compute; left; reflexivity).
  split; [exact Hin|].
  destruct (action_sends_on_stored_key SetOutputGain _ (exampleInstance []) c Hin)
    as [[]|H].
  exact H.
Defined.

(** Where an action cannot send, its store is the store with the one
    value written that the callback names. *)
Lemma action_unconfigured_store (a : Action) (o : Options) (st : Instance) :
  isEmpty (deviceName st) = true \/ targetHost st = None \/ targetHost st = Some "" ->
  syncState (runAction a o st)
  = <[fst (actionWrite a o st)
      := VString (formatSyncValue (snd (actionWrite a o st)))]> (syncState st).
Proof.
  intros Hun.
  assert (Hsend : forall p args (m : gmap string float),
             sendOsc p args (set_savedMatrixGain m st) = set_savedMatrixGain m st).
  { intros p args m. apply sendOsc_unconfigured. exact Hun. }
  destruct a; cbn [runAction actionWrite fst snd].
  - unfold set_input_gain. rewrite (sendOsc_unconfigured _ _ _ Hun).
    rewrite storeAndPublish_syncState by (reflexivity || discriminate). reflexivity.
  - unfold set_output_gain. rewrite (sendOsc_unconfigured _ _ _ Hun).
    rewrite storeAndPublish_syncState by (reflexivity || discriminate). reflexivity.
  - unfold step_input_gain. rewrite (sendOsc_unconfigured _ _ _ Hun), steppedGain_clamp.
    rewrite storeAndPublish_syncState by (reflexivity || discriminate). reflexivity.
  - unfold step_output_gain. rewrite (sendOsc_unconfigured _ _ _ Hun), steppedGain_clamp.
    rewrite storeAndPublish_syncState by (reflexivity || discriminate). reflexivity.
  - unfold matrix_point_mute_toggle, stored, channelIndex, gainInputKey, savedGainKey.
    destruct (negb _ && _); rewrite Hsend;
      rewrite storeAndPublish_syncState by (reflexivity || discriminate).
    + destruct (savedMatrixGain st !! _); reflexivity.
    + reflexivity.
  - unfold set_input_mute. rewrite (sendOsc_unconfigured _ _ _ Hun).
    rewrite storeAndPublish_syncState by (reflexivity || discriminate).
    unfold muteNumber, requestedMute, stored, channelIndex.
    destruct (strictEq (mute o) (VString "toggle")); reflexivity.
  - unfold set_output_mute. rewrite (sendOsc_unconfigured _ _ _ Hun).
    rewrite storeAndPublish_syncState by (reflexivity || discriminate).
    unfold muteNumber, requestedMute, stored, channelIndex.
    destruct (strictEq (mute o) (VString "toggle")); reflexivity.
Qed.

(** X11.  Without a device name or without a resolved host, an action
    sends nothing to the device, and still stores its value: the store it
    leaves is the store it found with the value of the action, formatted,
    under the key of the action. *)
Theorem action_unconfigured (a : Action) (o : Options) (st : Instance) :
  isEmpty (deviceName st) = true \/ targetHost st = None \/ targetHost st = Some "" ->
  (forall c, In c (calls (runAction a o st)) -> In c (calls st) \/ isOscSend c = false) /\
  syncState (runAction a o st)
  = <[fst (actionWrite a o st)
      := VString (formatSyncValue (snd (actionWrite a o st)))]> (syncState st).
Proof.
  intros Hun. split; [|exact (action_unconfigured_store a o st Hun)].
  destruct (runAction_shape a o st)
    as (key & path & v & args & ids & st0 & -> & Hk & _ & _ & _ & _ & Hc & Ht & _ & Hcalls & _).
  assert (Hun0 : isEmpty (deviceName st0) = true \/ targetHost st0 = None
                 \/ targetHost st0 = Some "").
  { unfold deviceName. rewrite Hc, Ht. exact Hun. }
  rewrite (sendOsc_unconfigured path args st0 Hun0).
  intros c Hin. apply storeAndPublish_calls_inv in Hin as [Hin|Hno]; [left|right; exact Hno].
  congruence.
Qed.

(** Without a resolved host, setting the gain of output 7 to -6 sends
    nothing and stores ["-6.0"] under [gain_output_7], and stepping the
    crosspoint 2, 5 up by 3 from ["-2.0"] stores ["1"]. *)
Lemma action_unconfigured_example :
  let st := mkInstance exampleConfig None [] (<["gain_input_2_5" := VString "-2.0"]> ∅)
                       ["gain_input_2_5"] ∅ [] in
  let oGain := mkOptions VUndefined (VNumber 7) (VNumber (-6)) VUndefined VUndefined
                         VUndefined in
  let oStep := mkOptions (VNumber 2) (VNumber 5) VUndefined (VString "3") VUndefined
                         VUndefined in
  (forallb (fun c => negb (isOscSend c)) (calls (runAction SetOutputGain oGain st)) = true /\
   syncState (runAction SetOutputGain oGain st)
   = <["gain_output_7" := VString "-6.0"]> (syncState st)) /\
  syncState (runAction StepInputGain oStep st)
  = <["gain_input_2_5" := VString "1"]> (syncState st).
Proof.
  intros st oGain oStep.
  destruct (action_unconfigured SetOutputGain oGain st (or_intror (or_introl eq_refl)))
    as (_ & H1).
  destruct (action_unconfigured StepInputGain oStep st (or_intror (or_introl eq_refl)))
    as (_ & H2).
  split; [split; [vm_compute; reflexivity|exact H1]|exact H2].
Defined.

(** X12.  An action writes one key of the store and nothing else of it, and
    leaves the receive buffer, the configuration and the resolved host as
    they are; only the crosspoint mute toggle touches the saved gains. *)
Theorem action_frame (a : Action) (o : Options) (st : Instance) :
  (exists key, forall k, k <> key ->
     syncState (runAction a o st) !! k = syncState st !! k) /\
  receiveBuffer (runAction a o st) = receiveBuffer st /\
  config (runAction a o st) = config st /\
  targetHost (runAction a o st) = targetHost st /\
  (a <> MatrixPointMuteToggle ->
   savedMatrixGain (runAction a o st) = savedMatrixGain st).
Proof.
  destruct (runAction_shape a o st)
    as (key & path & v & args & ids & st0 & -> & Hk & _ & _ & Hs & _ & Hc & Ht & Hb & _ & Hsaved & Hproto).
  destruct (storeAndPublish_frame key v ids (sendOsc path args st0)) as (Hg1 & Hc1 & Ht1).
  destruct (sendOsc_frame path args st0) as (Hs2 & Hg2 & Hc2 & Ht2).
  destruct (sendOsc_store path args st0) as (_ & Hb2).
  split; [|split; [|split; [|split]]].
  - exists key. intros k Hne. rewrite storeAndPublish_syncState by assumption.
    rewrite lookup_insert_ne by congruence. congruence.
  - rewrite storeAndPublish_rest. congruence.
  - congruence.
  - congruence.
  - intros Ha. rewrite Hg1, Hg2. auto.
Qed.

(** ** Stepped gains stay in range *)

Lemma SFcompare_None (a b : spec_float) :
  SFcompare a b = None -> a = S754_nan \/ b = S754_nan.
Proof.
  destruct a as [s1|s1| |s1 m1 e1], b as [s2|s2| |s2 m2 e2]; auto;
    try destruct s1; try destruct s2; cbn [SFcompare]; try discriminate;
    destruct (e1 ?= e2); try discriminate;
    destruct (Pos.compare_cont Eq m1 m2); discriminate.
Qed.

Lemma not_ltb_leb (a b : float) :
  is_nan a = false -> is_nan b = false ->
  (a <? b)%float = false -> (b <=? a)%float = true.
Proof.
  rewrite !is_nan_spec, FloatAxioms.ltb_spec, FloatAxioms.leb_spec.
  unfold SFltb, SFleb. rewrite (SFcompare_antisym (Prim2SF a) (Prim2SF b)).
  intros Ha Hb.
  destruct (SFcompare (Prim2SF a) (Prim2SF b)) as [[]|] eqn:E; cbn; try congruence.
  apply SFcompare_None in E as [E|E]; rewrite E in *; discriminate.
Qed.

Lemma ltb_leb (a b : float) : (a <? b)%float = true -> (a <=? b)%float = true.
Proof.
  rewrite FloatAxioms.ltb_spec, FloatAxioms.leb_spec. unfold SFltb, SFleb.
  destruct (SFcompare _ _) as [[]|]; congruence.
Qed.

(** X13.  The gain a step action stores and sends lies between -120 and 10,
    unless the sum of the current gain and the step is NaN, and then it is
    NaN. *)
Theorem steppedGain_range (current step : float) :
  (isNaN (current + step) = false ->
   (-120 <=? steppedGain current step)%float = true /\
   (steppedGain current step <=? 10)%float = true) /\
  (isNaN (current + step) = true -> isNaN (steppedGain current step) = true).
Proof.
  rewrite steppedGain_clamp. unfold clamp, isNaN.
  generalize (current + step)%float as x. intros x. split.
  - intros Hn.
    destruct (x <? -120)%float eqn:H1; [split; vm_compute; reflexivity|].
    destruct (10 <? x)%float eqn:H2; [split; vm_compute; reflexivity|].
    split; apply not_ltb_leb; auto; vm_compute; reflexivity.
  - intros Hn. apply is_nan_true in Hn. subst x. vm_compute. reflexivity.
Qed.

Lemma steppedGain_range_example :
  (-120 <=? steppedGain 9 3)%float = true /\ (steppedGain 9 3 <=? 10)%float = true.
Proof.
  destruct (steppedGain_range 9 3) as (H & _). apply H. vm_compute. reflexivity.
Defined.

(** ** Feedbacks after actions and after reports *)

Lemma mute_round_trip (m : bool) :
  storedIsMuted (VString (formatSyncValue (muteNumber m))) = m.
Proof. destruct m; vm_compute; reflexivity. Qed.

Lemma stored_storeAndPublish key v ids st :
  isEmpty key = false -> key <> "__proto__" ->
  stored (storeAndPublish key v ids st) key = VString (formatSyncValue v).
Proof.
  intros Hk Hproto. unfold stored. rewrite storeAndPublish_syncState by assumption.
  rewrite lookup_insert_eq. reflexivity.
Qed.

Lemma set_input_mute_feedback (o : Options) (st : Instance) :
  input_muted o (set_input_mute o st)
  = requestedMute o st ("mute_input_" +:+ toString (channelIndex (input o))).
Proof.
  unfold input_muted, set_input_mute.
  rewrite stored_storeAndPublish by (reflexivity || discriminate). apply mute_round_trip.
Qed.

Lemma set_output_mute_feedback (o : Options) (st : Instance) :
  output_muted o (set_output_mute o st)
  = requestedMute o st ("mute_output_" +:+ toString (channelIndex (output o))).
Proof.
  unfold output_muted, set_output_mute.
  rewrite stored_storeAndPublish by (reflexivity || discriminate). apply mute_round_trip.
Qed.

(** X14.  After a mute action the feedback of the same channel shows what
    the action asked for: the opposite of what it showed before for
    [toggle], muted for [true] or ["true"], and not muted for any other
    value of the option. *)
Theorem mute_action_feedback (o : Options) (st : Instance) :
  (mute o = VString "toggle" ->
   input_muted o (set_input_mute o st) = negb (input_muted o st) /\
   output_muted o (set_output_mute o st) = negb (output_muted o st)) /\
  (mute o = VBool true \/ mute o = VString "true" ->
   input_muted o (set_input_mute o st) = true /\
   output_muted o (set_output_mute o st) = true) /\
  (mute o <> VString "toggle" -> mute o <> VBool true -> mute o <> VString "true" ->
   input_muted o (set_input_mute o st) = false /\
   output_muted o (set_output_mute o st) = false).
Proof.
  pose proof (set_input_mute_feedback o st) as Hi.
  pose proof (set_output_mute_feedback o st) as Ho.
  unfold requestedMute in Hi, Ho.
  set (fi := input_muted o (set_input_mute o st)) in *.
  set (fo := output_muted o (set_output_mute o st)) in *.
  split; [|split].
  - intros E. rewrite E in Hi, Ho. cbn [strictEq] in Hi, Ho.
    split; [exact Hi|exact Ho].
  - intros [E|E]; rewrite E in Hi, Ho; split; [exact Hi|exact Ho|exact Hi|exact Ho].
  - intros Ht Hb Hs. revert Hi Ho.
    assert (H1 : strictEq (mute o) (VString "toggle") = false).
    { destruct (mute o) as [| |b|x|s]; try reflexivity. cbn [strictEq].
      destruct (String.eqb_spec s "toggle"); congruence. }
    assert (H2 : strictEq (mute o) (VBool true) = false).
    { destruct (mute o) as [| |b|x|s]; try reflexivity. destruct b; [congruence|reflexivity]. }
    assert (H3 : strictEq (mute o) (VString "true") = false).
    { destruct (mute o) as [| |b|x|s]; try reflexivity. cbn [strictEq].
      destruct (String.eqb_spec s "true"); congruence. }
    rewrite H1, H2, H3. cbn [orb]. intros Hi Ho. split; [exact Hi|exact Ho].
Qed.

Lemma mute_action_feedback_example :
  let o := point11 VUndefined VUndefined (VString "toggle") in
  input_muted o (exampleInstance []) = false /\
  input_muted o (set_input_mute o (exampleInstance [])) = true /\
  input_muted o (set_input_mute o (set_input_mute o (exampleInstance []))) = false.
Proof.
  intros o.
  destruct (mute_action_feedback o (exampleInstance [])) as (H1 & _).
  destruct (mute_action_feedback o (set_input_mute o (exampleInstance []))) as (H2 & _).
  destruct (H1 eq_refl) as (Ha & _). destruct (H2 eq_refl) as (Hb & _).
  assert (H0 : input_muted o (exampleInstance []) = false) by (vm_compute; reflexivity).
  split; [exact H0|]. split.
  - rewrite Ha, H0. reflexivity.
  - rewrite Hb, Ha, H0. reflexivity.
Defined.

(** X15.  After the crosspoint mute toggle the feedback of the point has
    flipped: a point that did not show as muted does, and a point that
    showed as muted, with no gain saved for it, no longer does. *)
Theorem matrix_toggle_feedback (o : Options) (st : Instance) :
  (matrix_point_muted o st = false ->
   matrix_point_muted o (matrix_point_mute_toggle o st) = true) /\
  (matrix_point_muted o st = true ->
   savedMatrixGain st !! savedGainKey (channelIndex (input o)) (channelIndex (output o)) = None ->
   matrix_point_muted o (matrix_point_mute_toggle o st) = false).
Proof.
  unfold matrix_point_muted at 1 3. unfold isNaN. split.
  - intros H.
    assert (Hc : isNaN (parseFloat (stored st (gainInputKey (channelIndex (input o))
                                                 (channelIndex (output o))))) = true
                 \/ (parseFloat (stored st (gainInputKey (channelIndex (input o))
                                              (channelIndex (output o)))) <=? -120)%float = false).
    { unfold isNaN. destruct (is_nan _); [left; reflexivity|right; exact H]. }
    destruct (toggle_open o st Hc) as (Hs & _).
    unfold matrix_point_muted, stored. rewrite Hs. vm_compute. reflexivity.
  - intros H Hsaved. apply andb_prop in H as [Hn Hle].
    apply negb_true_iff in Hn.
    destruct (toggle_muted o st Hn Hle) as (Hs & _).
    unfold matrix_point_muted, stored. rewrite Hs, Hsaved. vm_compute. reflexivity.
Qed.

Lemma matrix_toggle_feedback_example :
  let o := point11 VUndefined VUndefined VUndefined in
  matrix_point_muted o (matrix_point_mute_toggle o (exampleWith "gain_input_1_1" (VString "-6.0")))
  = true /\
  matrix_point_muted o (matrix_point_mute_toggle o (exampleWith "gain_input_1_1" (VString "-120.0")))
  = false.
Proof.
  intros o. split.
  - destruct (matrix_toggle_feedback o (exampleWith "gain_input_1_1" (VString "-6.0")))
      as (H & _).
    apply H. vm_compute. reflexivity.
  - destruct (matrix_toggle_feedback o (exampleWith "gain_input_1_1" (VString "-120.0")))
      as (_ & H).
    apply H; vm_compute; reflexivity.
Defined.

Lemma mute_address_not_ping (st : Instance) (kind t : string) :
  ~ isPingAddress st (("/mute/" +:+ kind +:+ "/" +:+ t) +:+ "/" +:+ deviceName st).
Proof.
  intros [H|[_ H]];
    apply (f_equal (fun s => match s with
                             | String _ (String c _) => c
                             | _ => "x"%char
                             end)) in H;
    discriminate H.
Qed.

Lemma handleOscMessage_mute (st : Instance) (kind : string) (n : float) (args : list Arg) :
  noSlash kind = true -> isEmpty (deviceName st) = false ->
  stored (snd (handleOscMessage
                 (("/mute/" +:+ kind +:+ "/" +:+ toString n) +:+ "/" +:+ deviceName st)
                 args st))
         ("mute_" +:+ kind +:+ "_" +:+ toString n)
  = VString (formatSyncValue (messageValue args)).
Proof.
  intros Hk Hname.
  rewrite (handleOscMessage_store st _ ("mute_" +:+ kind +:+ "_" +:+ toString n) args
             (mute_address_not_ping st kind (toString n))).
  - cbn [snd]. unfold stored.
    change (syncState (checkFeedbacks [] ?s)) with (syncState s).
    rewrite storeSyncValue_syncState by (reflexivity || discriminate).
    rewrite lookup_insert_eq. reflexivity.
  - rewrite pathToVariableId_suffix by exact Hname.
    rewrite mutePath_key by exact Hk. reflexivity.
  - reflexivity.
Qed.

(** X16.  A mute report of the device for a channel sets the feedback of
    that channel: it reads the formatted value of the report, muted for the
    tag [T] and not muted for the tag [F]. *)
Theorem mute_report_feedback (o : Options) (args : list Arg) (st : Instance) :
  isEmpty (deviceName st) = false ->
  let inIdx := toString (channelIndex (input o)) in
  let outIdx := toString (channelIndex (output o)) in
  let stIn := snd (handleOscMessage
                     (("/mute/input/" +:+ inIdx) +:+ "/" +:+ deviceName st) args st) in
  let stOut := snd (handleOscMessage
                      (("/mute/output/" +:+ outIdx) +:+ "/" +:+ deviceName st) args st) in
  input_muted o stIn = storedIsMuted (VString (formatSyncValue (messageValue args))) /\
  output_muted o stOut = storedIsMuted (VString (formatSyncValue (messageValue args))) /\
  (forall v, args = [mkArg "T" v] -> input_muted o stIn = true /\ output_muted o stOut = true) /\
  (forall v, args = [mkArg "F" v] -> input_muted o stIn = false /\ output_muted o stOut = false).
Proof.
  intros Hname inIdx outIdx stIn stOut.
  assert (Hi : input_muted o stIn
               = storedIsMuted (VString (formatSyncValue (messageValue args)))).
  { unfold input_muted, stIn, inIdx.
    rewrite <- (handleOscMessage_mute st "input" (channelIndex (input o)) args eq_refl Hname).
    reflexivity. }
  assert (Ho : output_muted o stOut
               = storedIsMuted (VString (formatSyncValue (messageValue args)))).
  { unfold output_muted, stOut, outIdx.
    rewrite <- (handleOscMessage_mute st "output" (channelIndex (output o)) args eq_refl Hname).
    reflexivity. }
  split; [exact Hi|]. split; [exact Ho|]. split.
  - intros v E. rewrite Hi, Ho, E. split; reflexivity.
  - intros v E. rewrite Hi, Ho, E. split; reflexivity.
Qed.

Lemma mute_report_feedback_example :
  let o := mkOptions (VNumber 3) VUndefined VUndefined VUndefined VUndefined VUndefined in
  input_muted o (snd (handleOscMessage "/mute/input/3/unit1" [mkArg "T" (VBool true)]
                        (exampleInstance []))) = true.
Proof.
  intros o.
  destruct (mute_report_feedback o [mkArg "T" (VBool true)] (exampleInstance []) eq_refl)
    as (_ & _ & H & _).
  destruct (H (VBool true) eq_refl) as (Hin & _). exact Hin.
Defined.

(** ** Labels, choices and presets *)

(** X17.  The dropdown entries of the actions and feedbacks agree with
    [channelLabel]: the label of each of the eight input and eight output
    choices is [channelLabel] of its id. *)
Theorem channelLabel_choices :
  Forall (fun c => choiceLabel c = channelLabel (VNumber (choiceId c)) "input")
         inputChoices /\
  Forall (fun c => choiceLabel c = channelLabel (VNumber (choiceId c)) "output")
         outputChoices /\
  map choiceId inputChoices = loopNumbers NUM_INPUTS /\
  map choiceId outputChoices = loopNumbers NUM_OUTPUTS.
Proof.
  split; [|split; [|split]].
  - unfold inputChoices. cbn [NUM_INPUTS seq map].
    repeat (constructor; [vm_compute; reflexivity|]). constructor.
  - unfold outputChoices. cbn [NUM_OUTPUTS seq map].
    repeat (constructor; [vm_compute; reflexivity|]). constructor.
  - vm_compute. reflexivity.
  - vm_compute. reflexivity.
Qed.

Lemma channelIndex_loopNumbers (n : float) :
  In n (loopNumbers 8) -> channelIndex (VNumber n) = n.
Proof.
  unfold loopNumbers. cbn [seq map].
  intros H. repeat (destruct H as [<-|H]; [vm_compute; reflexivity|]). destruct H.
Qed.

(** X18.  Each preset button is wired to one crosspoint: its feedback and
    its action carry the same options, the variable its text shows is the
    key that [matrix_point_mute_toggle] writes and [matrix_point_muted]
    reads for these options, and the 64 presets have 64 different ids. *)
Theorem getPresetDefinitions_wired (thisId : option string) :
  let instanceId := match thisId with
                    | Some i => if isEmpty i then "instance" else i
                    | None => "instance"
                    end in
  let newline := String (ascii_of_nat 10) "" in
  length (getPresetDefinitions thisId) = 64%nat /\
  NoDup (map fst (getPresetDefinitions thisId)) /\
  Forall (fun e =>
            let p := snd e in
            let inIdx := channelIndex (input (actionOptions p)) in
            let outIdx := channelIndex (output (actionOptions p)) in
            feedbackId p = "matrix_point_muted" /\
            actionId p = "matrix_point_mute_toggle" /\
            feedbackOptions p = actionOptions p /\
            fst e = "matrix_mute_in" +:+ toString inIdx +:+ "_out" +:+ toString outIdx /\
            category p = "Out " +:+ toString outIdx /\
            text p = "In " +:+ toString inIdx +:+ newline
                       +:+ "$(" +:+ instanceId +:+ ":" +:+ gainInputKey inIdx outIdx +:+ ")")
         (getPresetDefinitions thisId).
Proof.
  intros instanceId newline. unfold getPresetDefinitions. fold instanceId.
  generalize instanceId as i. intros i. split; [reflexivity|]. split.
  - apply (bool_decide_unpack _). vm_compute. exact I.
  - apply Forall_forall. intros e He. apply list_elem_of_In in He.
    apply in_flat_map in He as (outNum & Hout & He).
    apply in_map_iff in He as (inNum & <- & Hin).
    cbn [presetFor snd fst feedbackId actionId feedbackOptions actionOptions
           category text pointOptions input output].
    rewrite (channelIndex_loopNumbers inNum Hin), (channelIndex_loopNumbers outNum Hout).
    repeat split.
Qed.

(** ** Publishing the variables *)


(** ** The host calls of a run *)

Lemma handleOscMessage_calls (address : string) (args : list Arg) (st : Instance) :
  let r := handleOscMessage address args st in
  (exists handled, calls (snd r) = (calls st ++ handled)%list /\
                   forallb isHandlerCall handled = true) /\
  (fst r = false ->
   syncState (snd r) = syncState st /\ syncVariableDefs (snd r) = syncVariableDefs st).
Proof.
  unfold handleOscMessage.
  match goal with |- context [if ?c then _ else _] => destruct c end; cbn [fst snd].
  - split; [|discriminate].
    exists [UpdateStatus "ok" (statusLabel "Connected" st); CheckFeedbacks []].
    split; [|reflexivity].
    unfold checkFeedbacks, call. cbn [calls].
    destruct (storeSyncValue_frame (default "" (pathToVariableId (updateStatusOk "Connected" st)
                                                 (VString address)))
                (messageValue args) (updateStatusOk "Connected" st)) as (-> & _).
    cbn. rewrite <- app_assoc. reflexivity.
  - split; [|intros _; split; reflexivity].
    exists [UpdateStatus "ok" (statusLabel "Connected" st); CheckFeedbacks []].
    split; [|reflexivity]. cbn. rewrite <- app_assoc. reflexivity.
Qed.

Lemma handleBundle_calls (ps : list Packet) (h : bool) (st : Instance) :
  let r := handleBundle ps h st in
  (exists handled, calls (snd r) = (calls st ++ handled)%list /\
                   forallb isHandlerCall handled = true) /\
  (fst r = false ->
   h = false /\
   syncState (snd r) = syncState st /\ syncVariableDefs (snd r) = syncVariableDefs st).
Proof.
  revert h st. induction ps as [|p ps IH]; intros h st.
  - cbn. split; [exists []; rewrite app_nil_r; auto|auto].
  - destruct p as [address args|inner]; cbn [handleBundle]; [|apply IH].
    destruct (isEmpty address); [apply IH|].
    destruct (handleOscMessage_calls address args st) as ((l1 & Hc1 & Hf1) & Hs1).
    destruct (handleOscMessage address args st) as [r st1]. cbn [fst snd] in *.
    destruct (IH (r || h) st1) as ((l2 & Hc2 & Hf2) & Hs2). cbv zeta in *.
    split.
    + exists (l1 ++ l2)%list. rewrite Hc2, Hc1, <- app_assoc. split; [reflexivity|].
      rewrite forallb_app, Hf1, Hf2. reflexivity.
    + intros Hr. destruct (Hs2 Hr) as (Hor & Hs & Hd).
      apply orb_false_elim in Hor as [-> ->].
      destruct (Hs1 eq_refl) as (Hs' & Hd'). split; [reflexivity|]. split; congruence.
Qed.

Section RunCalls.
Context {osc : OscLib}.

Lemma parseOscIteration_calls h st h' st' :
  parseOscIteration h st = Normal (Next h' st') ->
  (exists handled, calls st' = (calls st ++ handled)%list /\
                   forallb isHandlerCall handled = true) /\
  (h' = false ->
   h = false /\ syncState st' = syncState st /\ syncVariableDefs st' = syncVariableDefs st).
Proof.
  unfold parseOscIteration.
  destruct (standardDecode (receiveBuffer st)) as [d|]; cbn [cbind]; [|discriminate].
  destruct (withPathOnlyFallback (receiveBuffer st) d) as [ml packet].
  destruct (_ <? _); [discriminate|].
  set (st0 := set_receiveBuffer _ st).
  assert (Hnone : (exists handled, calls st0 = (calls st ++ handled)%list /\
                                   forallb isHandlerCall handled = true)).
  { exists []. rewrite app_nil_r. auto. }
  intros Hn.
  destruct packet as [[address args|ps]|].
  - destruct (isEmpty address); [injection Hn as <- <-; auto|].
    destruct (handleOscMessage_calls address args st0) as (Hc & Hs).
    destruct (handleOscMessage address args st0) as [r st1]. cbn [fst snd] in *.
    injection Hn as <- <-. split; [exact Hc|].
    intros Hor. apply orb_false_elim in Hor as [-> ->]. split; [reflexivity|].
    exact (Hs eq_refl).
  - destruct (handleBundle_calls ps h st0) as (Hc & Hs).
    destruct (handleBundle ps h st0) as [r st1]. cbn [fst snd] in *.
    injection Hn as <- <-. split; [exact Hc|exact Hs].
  - injection Hn as <- <-. auto.
Qed.

Lemma parseLoop_calls fuel h st h' st' :
  parseLoop fuel h st = Some (Normal (h', st')) ->
  (exists handled, calls st' = (calls st ++ handled)%list /\
                   forallb isHandlerCall handled = true) /\
  (h' = false ->
   h = false /\ syncState st' = syncState st /\ syncVariableDefs st' = syncVariableDefs st).
Proof.
  assert (Hnone : forall s : Instance,
             exists handled, calls s = (calls s ++ handled)%list /\
                             forallb isHandlerCall handled = true).
  { intros s. exists []. rewrite app_nil_r. auto. }
  revert h st. induction fuel as [|fuel IH]; intros h st; cbn [parseLoop];
    destruct (receiveBuffer st); try discriminate;
    try (intros [= <- <-]; auto; fail).
  destruct (parseOscIteration h st) as [[|h1 st1]|] eqn:Hit; [| |discriminate].
  - intros [= <- <-]; auto.
  - intros Hl.
    destruct (parseOscIteration_calls _ _ _ _ Hit) as ((l1 & Hc1 & Hf1) & Hs1).
    destruct (IH _ _ Hl) as ((l2 & Hc2 & Hf2) & Hs2). split.
    + exists (l1 ++ l2)%list. rewrite Hc2, Hc1, <- app_assoc. split; [reflexivity|].
      rewrite forallb_app, Hf1, Hf2. reflexivity.
    + intros Hh. destruct (Hs2 Hh) as (Hh1 & Hs & Hd).
      destruct (Hs1 Hh1) as (Hh0 & Hs' & Hd'). split; [exact Hh0|]. split; congruence.
Qed.

End RunCalls.

(** X20.  The host calls of a run of [parseOscIncoming]: status and feedback
    refreshes of the handlers, then at most one publication of the
    variables; nothing is sent to the device. When the run publishes
    nothing, the store and the definitions are what they were: a change to
    them is always published. *)
Theorem parseOscIncoming_calls {osc : OscLib} (fuel : nat) (st st' : Instance) :
  parseOscIncoming fuel st = Some (Normal st') ->
  exists handled published,
    calls st' = (calls st ++ handled ++ published)%list /\
    forallb isHandlerCall handled = true /\
    (published = [SetVariableDefinitions ("device_name" :: syncVariableDefs st');
                  SetVariableValues
                    (syncState st' ∪ {["device_name" := VString (deviceName st')]})]
     \/ (published = [] /\ syncState st' = syncState st /\
         syncVariableDefs st' = syncVariableDefs st)).
Proof.
  unfold parseOscIncoming.
  destruct (parseLoop fuel false st) as [[[h st1]|]|] eqn:E; try discriminate.
  intros [= <-]. destruct (parseLoop_calls _ _ _ _ _ E) as ((l & Hc & Hf) & Hs).
  exists l. destruct h.
  - eexists. split; [|split; [exact Hf|left; reflexivity]].
    unfold applySyncVariables, call. cbn [calls syncVariableDefs syncState].
    rewrite Hc, <- !app_assoc. reflexivity.
  - exists []. split; [rewrite app_nil_r; exact Hc|]. split; [exact Hf|].
    right. destruct (Hs eq_refl) as (_ & Hs' & Hd'). auto.
Qed.

Lemma parseOscIncoming_calls_example :
  let st := exampleInstance (gainFrame ++ pingEcho)%list in
  exists st' handled published,
    @parseOscIncoming OscWire.StdOsc 4 st = Some (Normal st') /\
    calls st' = (calls st ++ handled ++ published)%list /\
    forallb isHandlerCall handled = true /\
    forallb (fun c => negb (isOscSend c)) (calls st') = true.
Proof.
  intros st.
  destruct (@parseOscIncoming OscWire.StdOsc 4 st) as [[st'|]|] eqn:E;
    try (vm_compute in E; discriminate E).
  destruct (@parseOscIncoming_calls OscWire.StdOsc 4 st st' E)
    as (handled & published & Hc & Hf & _).
  exists st', handled, published.
  split; [reflexivity|]. split; [exact Hc|]. split; [exact Hf|].
  assert (Hst : Some (Normal st') = @parseOscIncoming OscWire.StdOsc 4 st)
    by (symmetry; exact E).
  vm_compute in Hst. injection Hst as ->. vm_compute. reflexivity.
Defined.

(** ** Variable names *)

Lemma lacks_take (x : ascii) (n : nat) (s : string) :
  lacks x s = true -> lacks x (take n s) = true.
Proof.
  revert s. induction n as [|n IH]; intros [|c s]; cbn [take lacks]; auto.
  intros H. apply andb_prop in H as [-> Hs]. cbn. auto.
Qed.

Lemma lacks_drop (x : ascii) (n : nat) (s : string) :
  lacks x s = true -> lacks x (drop n s) = true.
Proof.
  revert s. induction n as [|n IH]; intros [|c s]; cbn [drop lacks]; auto.
  intros H. apply andb_prop in H as [_ Hs]. auto.
Qed.

Lemma lacks_underscore_zeros (n : nat) : lacks "_" (repeatChar "0" n) = true.
Proof. induction n as [|n IH]; [reflexivity|]. cbn [repeatChar lacks]. rewrite IH. reflexivity. Qed.

Lemma lacks_underscore_digits (s : string) : allDigits s = true -> lacks "_" s = true.
Proof.
  induction s as [|c s IH]; [reflexivity|]. cbn [allDigits lacks].
  intros H. apply andb_prop in H as [Hc Hs]. rewrite IH by assumption.
  destruct (ascii_eqb c "_") eqn:E; [|reflexivity].
  apply Ascii.eqb_eq in E. subst c. vm_compute in Hc. discriminate.
Qed.

Lemma lacks_underscore_layout (ds : string) (n : Z) :
  lacks "_" ds = true -> lacks "_" (layout ds n) = true.
Proof.
  intros H. unfold layout.
  repeat match goal with |- context [if ?c then _ else _] => destruct c end;
    rewrite ?lacks_append, ?lacks_underscore_zeros,
      ?(lacks_underscore_digits _ (digitsOfZ_digits _)),
      ?(lacks_take _ _ _ H), ?(lacks_drop _ _ _ H), ?H; reflexivity.
Qed.

Lemma toString_lacks_underscore (x : float) : lacks "_" (toString x) = true.
Proof.
  unfold toString. destruct (Prim2SF x) as [s|s| |s m e]; try reflexivity.
  - destruct s; reflexivity.
  - destruct (shortestDigits _ _ _ _ _ _) as [d n].
    rewrite lacks_append, lacks_underscore_layout
      by apply lacks_underscore_digits, digitsOfZ_digits.
    destruct s; reflexivity.
Qed.

Lemma splitUnderscore_nonempty (s : string) : splitUnderscore s <> [].
Proof.
  destruct s as [|c s]; cbn [splitUnderscore]; [discriminate|].
  destruct (ascii_eqb c "_"); [discriminate|].
  destruct (splitUnderscore s); discriminate.
Qed.

Lemma splitUnderscore_lacks (s : string) :
  lacks "_" s = true -> splitUnderscore s = [s].
Proof.
  induction s as [|c s IH]; [reflexivity|]. cbn [lacks splitUnderscore].
  intros H. apply andb_prop in H as [Hc Hs]. apply negb_true_iff in Hc.
  rewrite Hc, IH by assumption. reflexivity.
Qed.

Lemma splitUnderscore_append (s t : string) :
  lacks "_" s = true ->
  splitUnderscore (s +:+ "_" +:+ t) = s :: splitUnderscore t.
Proof.
  induction s as [|c s IH]; [reflexivity|]. cbn [lacks].
  intros H. apply andb_prop in H as [Hc Hs]. apply negb_true_iff in Hc.
  rewrite append_cons. cbn [splitUnderscore]. rewrite Hc, IH by assumption.
  reflexivity.
Qed.

Lemma channelLabel_toString (a : float) (type : string) :
  channelLabel (VString (toString a)) type = channelLabel (VNumber a) type.
Proof. reflexivity. Qed.

Lemma splitUnderscore_key2 (p q : string) (a b : float) :
  lacks "_" p = true -> lacks "_" q = true ->
  splitUnderscore (p +:+ "_" +:+ q +:+ "_" +:+ toString a +:+ "_" +:+ toString b)
  = [p; q; toString a; toString b].
Proof.
  intros Hp Hq.
  rewrite (splitUnderscore_append p) by exact Hp.
  rewrite (splitUnderscore_append q) by exact Hq.
  rewrite (splitUnderscore_append (toString a)) by apply toString_lacks_underscore.
  rewrite splitUnderscore_lacks by apply toString_lacks_underscore.
  reflexivity.
Qed.

Lemma splitUnderscore_key1 (p q : string) (a : float) :
  lacks "_" p = true -> lacks "_" q = true ->
  splitUnderscore (p +:+ "_" +:+ q +:+ "_" +:+ toString a)
  = [p; q; toString a].
Proof.
  intros Hp Hq.
  rewrite (splitUnderscore_append p) by exact Hp.
  rewrite (splitUnderscore_append q) by exact Hq.
  rewrite splitUnderscore_lacks by apply toString_lacks_underscore.
  reflexivity.
Qed.

(** X21.  The variables the actions create carry the channel labels in their
    names: for every input and output number, the name of the key of a
    crosspoint gain is [Gain: <input label> -> <output label>], of an output
    gain [Gain: <output label>], and of a mute key [Mute: <label>], with the
    labels [channelLabel] gives the numbers. *)
Theorem variableIdToName_action_keys (a b : float) :
  variableIdToName (gainInputKey a b)
  = Some ("Gain: " +:+ channelLabel (VNumber a) "input" +:+ " -> "
            +:+ channelLabel (VNumber b) "output") /\
  variableIdToName (gainOutputKey b)
  = Some ("Gain: " +:+ channelLabel (VNumber b) "output") /\
  variableIdToName ("mute_input_" +:+ toString a)
  = Some ("Mute: " +:+ channelLabel (VNumber a) "input") /\
  variableIdToName ("mute_output_" +:+ toString b)
  = Some ("Mute: " +:+ channelLabel (VNumber b) "output").
Proof.
  split; [|split; [|split]].
  - unfold variableIdToName, gainInputKey.
    change ("gain_input_" +:+ toString a +:+ "_" +:+ toString b)
      with ("gain" +:+ "_" +:+ "input" +:+ "_" +:+ toString a +:+ "_" +:+ toString b).
    rewrite (splitUnderscore_key2 "gain" "input") by reflexivity.
    reflexivity.
  - unfold variableIdToName, gainOutputKey.
    change ("gain_output_" +:+ toString b)
      with ("gain" +:+ "_" +:+ "output" +:+ "_" +:+ toString b).
    rewrite (splitUnderscore_key1 "gain" "output") by reflexivity.
    reflexivity.
  - unfold variableIdToName.
    change ("mute_input_" +:+ toString a)
      with ("mute" +:+ "_" +:+ "input" +:+ "_" +:+ toString a).
    rewrite (splitUnderscore_key1 "mute" "input") by reflexivity.
    reflexivity.
  - unfold variableIdToName.
    change ("mute_output_" +:+ toString b)
      with ("mute" +:+ "_" +:+ "output" +:+ "_" +:+ toString b).
    rewrite (splitUnderscore_key1 "mute" "output") by reflexivity.
    reflexivity.
Qed.

(** X22.  A variable never gets an empty name: the name [variableIdToName]
    gives an identifier has at least one character. *)
Theorem variableIdToName_nonempty (variableId name : string) :
  variableIdToName variableId = Some name -> name <> "".
Proof.
  unfold variableIdToName.
  destruct variableId as [|c r]; [intros [= <-]; discriminate|].
  cbn [isEmpty].
  repeat match goal with
         | |- context [if ?c then _ else _] => destruct c
         end;
    try (intros [= <-]; rewrite append_cons; discriminate).
  - destruct (match nth_error _ 1 with Some _ => _ | None => _ end);
      [|discriminate]. intros [= <-]. rewrite append_cons. discriminate.
  - destruct (match nth_error _ 1 with Some _ => _ | None => _ end);
      [|discriminate]. intros [= <-]. rewrite append_cons. discriminate.
  - intros [= <-]. cbn [underscoresToSpaces capitalizeWords]. discriminate.
Qed.

Lemma variableIdToName_nonempty_example :
  variableIdToName "device_name" = Some "Device Name" /\ "Device Name" <> "".
Proof.
  split; [reflexivity|].
  apply (variableIdToName_nonempty "device_name"). reflexivity.
Defined.
